(** * alchemy-go: the request execution core

    A shallow embedding of the error classifier ([errors]), the retry loop
    with its backoff delay and the HTTP executor, the JSON-RPC call and
    batch-call codec ([client]) and the asset-transfer pagination iterator
    ([data]), with the properties the specification states about them (C1
    to C10); and of the code around
    them, the hexadecimal codec ([hex]), quantities and data ([types]),
    block numbers and log filters ([node]), the middlewares and the
    configuration and construction of a client ([alchemy]), with properties
    read off the code (X1 to X30).

    Conventions.
    - Go [int], [uint64] and [time.Duration] values are integers of [Z]; the
      places where a wrap-around could matter say so.
    - A nilable Go value ([error], a pointer, an [interface{}]) is an
      [option]; [None] is [nil].
    - Code that talks to the outside (the HTTP transport, the context, the
      JSON codec) is a function of the history of the interaction, so that
      every deterministic environment is covered and the definitions can be
      evaluated. *)

From stdpp Require Import gmap strings list pretty.
From Stdlib Require Import ZArith Lia Floats.SpecFloat Strings.Byte.

#[local] Open Scope Z_scope.
#[local] Set Warnings "-register-all".

Abbreviation bytes := (list Byte.byte).

(** ** Package errors *)

Module Errors.

(** The sentinel errors ([errors.New] values, compared by identity). *)
Inductive Sentinel :=
| ErrNilResponse | ErrInvalidResponse | ErrContextCanceled | ErrContextDeadline
| ErrInvalidAPIKey | ErrRateLimited | ErrNetworkNotFound | ErrInvalidAddress
| ErrInvalidHash | ErrInvalidParameter.

#[global] Instance Sentinel_eq_dec : EqDecision Sentinel.
Proof. solve_decision. Defined.

(** The HTTP error, with what the response it was made from carried. *)
Record HTTPError := mkHTTPError {
  StatusCode : Z;
  Status : string;
  Body : bytes;
  URL : string
}.

(** The error object of a JSON-RPC response envelope. *)
Record JSONRPCError := mkJSONRPCError {
  Code : Z;
  Message : string;
  Data : bytes
}.

(** The error of the enhanced API. *)
Record APIError := mkAPIError {
  Type_ : string;
  APIMessage : string;
  Details : string
}.

(** The dynamic type of an [error] value. [EAlchemy] is the AlchemyError pointer type
    ([New], [Wrap]); [EStopRetry] is the client's stopRetry pointer type, which has no
    [Unwrap] method; [EForeign] is an error made outside the package
    ([fmt.Errorf], encoding/json, net/http), with the error it unwraps to,
    if any, and no [Is]/[As] method of its own. *)
Inductive error :=
| ESentinel (s : Sentinel)
| EHTTP (e : HTTPError)
| EJSONRPC (e : JSONRPCError)
| EAPI (e : APIError)
| EAlchemy (code message : string) (cause : option error)
| EStopRetry (err : error)
| EForeign (msg : string) (cause : option error).

Definition ParseError : Z := -32700.
Definition InvalidRequest : Z := -32600.
Definition MethodNotFound : Z := -32601.
Definition InvalidParams : Z := -32602.
Definition InternalError : Z := -32603.
Definition ServerErrorStart : Z := -32099.
Definition ServerErrorEnd : Z := -32000.

Definition NewHTTPError (statusCode : Z) (status : string) (body : bytes) : HTTPError :=
  {| StatusCode := statusCode; Status := status; Body := body; URL := "" |}.

Definition NewJSONRPCError (code : Z) (message : string) (data : bytes) : JSONRPCError :=
  {| Code := code; Message := message; Data := data |}.

Definition Wrap (err : option error) (code message : string) : error :=
  EAlchemy code message err.

(** The IsRetryable method of HTTPError. *)
Definition HTTPError_IsRetryable (e : HTTPError) : bool :=
  if StatusCode e =? 429 then true
  else if (500 <=? StatusCode e) && (StatusCode e <? 600) then true
  else if StatusCode e =? 408 then true
  else false.

Definition IsInternalError (e : JSONRPCError) : bool := Code e =? InternalError.

Definition IsServerError (e : JSONRPCError) : bool :=
  (ServerErrorStart <=? Code e) && (Code e <=? ServerErrorEnd).

(** The IsRetryable method of JSONRPCError. *)
Definition JSONRPCError_IsRetryable (e : JSONRPCError) : bool :=
  if IsServerError e || IsInternalError e then true else false.

(** The [Unwrap] method of each error type. *)
Definition Unwrap (err : error) : option error :=
  match err with
  | EAlchemy _ _ cause => cause
  | EForeign _ cause => cause
  | ESentinel _ | EHTTP _ | EJSONRPC _ | EAPI _ | EStopRetry _ => None
  end.

(** [errors.As(err, &httpErr)] with [httpErr] an HTTPError pointer: the
    first HTTPError on the [Unwrap] chain of [err]. *)
Fixpoint As_HTTPError (err : error) : option HTTPError :=
  match err with
  | EHTTP h => Some h
  | EAlchemy _ _ (Some cause) => As_HTTPError cause
  | EForeign _ (Some cause) => As_HTTPError cause
  | _ => None
  end.

(** [errors.Is(err, target)] for a sentinel [target]. *)
Fixpoint Is (err : error) (target : Sentinel) : bool :=
  match err with
  | ESentinel s => bool_decide (s = target)
  | EAlchemy _ _ (Some cause) => Is cause target
  | EForeign _ (Some cause) => Is cause target
  | _ => false
  end.

(** [errors.IsRetryable] *)
Definition IsRetryable (err : option error) : bool :=
  match err with
  | None => false
  | Some err =>
      match As_HTTPError err with
      | Some httpErr => HTTPError_IsRetryable httpErr
      | None =>
          if Is err ErrRateLimited then true
          else if Is err ErrContextCanceled || Is err ErrContextDeadline then false
          else false
      end
  end.

(** The types of an APIError that the classifiers look at. *)
Definition ErrTypeRateLimitExceeded : string := "RATE_LIMIT_EXCEEDED".
Definition ErrTypeInvalidAPIKey : string := "INVALID_API_KEY".
Definition ErrTypeInternalError : string := "INTERNAL_ERROR".

(** The IsRetryable method of APIError. *)
Definition APIError_IsRetryable (e : APIError) : bool :=
  if bool_decide (Type_ e = ErrTypeRateLimitExceeded)
     || bool_decide (Type_ e = ErrTypeInternalError)
  then true else false.

(** [errors.As(err, &apiErr)] with [apiErr] an APIError pointer. *)
Fixpoint As_APIError (err : error) : option APIError :=
  match err with
  | EAPI a => Some a
  | EAlchemy _ _ (Some cause) => As_APIError cause
  | EForeign _ (Some cause) => As_APIError cause
  | _ => None
  end.

Definition IsAuthError (err : option error) : bool :=
  match err with
  | None => false
  | Some err =>
      if Is err ErrInvalidAPIKey then true
      else
        match As_HTTPError err with
        | Some httpErr => (StatusCode httpErr =? 401) || (StatusCode httpErr =? 403)
        | None =>
            match As_APIError err with
            | Some apiErr => bool_decide (Type_ apiErr = ErrTypeInvalidAPIKey)
            | None => false
            end
        end
  end.

Definition IsRateLimitError (err : option error) : bool :=
  match err with
  | None => false
  | Some err =>
      if Is err ErrRateLimited then true
      else
        match As_HTTPError err with
        | Some httpErr => StatusCode httpErr =? 429
        | None =>
            match As_APIError err with
            | Some apiErr => bool_decide (Type_ apiErr = ErrTypeRateLimitExceeded)
            | None => false
            end
        end
  end.

End Errors.

(** ** The standard library types the client is written against *)

Module http.

(** [http.Request], as far as the client sets it. *)
Record Request := mkRequest {
  Method : string;
  URL : string;
  Header : gmap string string;
  ReqBody : option bytes
}.

(** [http.Response]: status line and what [io.ReadAll(resp.Body)] returns,
    the bytes read and the read error, if any. *)
Record Response := mkResponse {
  StatusCode : Z;
  Status : string;
  Body : bytes;
  ReadErr : option Errors.error
}.

Definition Header_Set (req : Request) (key value : string) : Request :=
  {| Method := Method req; URL := URL req;
     Header := <[key := value]> (Header req); ReqBody := ReqBody req |}.

End http.

Module context.

(** The non-nil values of [ctx.Err()]. *)
Inductive Err := Canceled | DeadlineExceeded.

End context.

(** ** Package client *)

Module Client.
Import Errors.

(** The values behind [interface{}]: call parameters and the variables that
    results are decoded into. *)
Inductive Value :=
| VNil
| VBool (b : bool)
| VInt (z : Z)
| VString (s : string)
| VList (l : list Value)
| VStruct (fields : list (string * Value)).

(** A pointer to a variable. *)
Definition loc := positive.

(** What a call can observe and change outside its own locals. *)
Record World := mkWorld {
  sent : list http.Request;   (** requests handed to the transport, oldest first *)
  slept : list Z;             (** the backoff waits that ran to their end *)
  requestIDCounter : Z;       (** the package variable of that name *)
  heap : gmap loc Value       (** the variables that decode targets point to *)
}.

Definition log_sent (req : http.Request) (w : World) : World :=
  {| sent := sent w ++ [req]; slept := slept w;
     requestIDCounter := requestIDCounter w; heap := heap w |}.

Definition log_slept (d : Z) (w : World) : World :=
  {| sent := sent w; slept := slept w ++ [d];
     requestIDCounter := requestIDCounter w; heap := heap w |}.

Definition set_requestIDCounter (n : Z) (w : World) : World :=
  {| sent := sent w; slept := slept w; requestIDCounter := n; heap := heap w |}.

Definition set_heap (h : gmap loc Value) (w : World) : World :=
  {| sent := sent w; slept := slept w;
     requestIDCounter := requestIDCounter w; heap := h |}.

(** [context.Context]: [Err] is [ctx.Err()], and [Done w d] is the outcome
    of the [select] between [ctx.Done()] and [time.After(d)]: the context's
    error when the context finishes first, [None] when the timer fires. *)
Record Context := mkContext {
  Err : World -> option context.Err;
  Done : World -> Z -> option context.Err
}.

(** The [*http.Client] of an [HTTPClient]: its answer to a request, given
    what happened before. A handler returns a response or an error, never
    both and never neither. *)
Definition Transport := Context -> World -> http.Request -> http.Response + error.

Definition Handler := Context -> http.Request -> World -> (http.Response + error) * World.

(** [Middleware]: the [Wrap] method. *)
Definition Middleware := Handler -> Handler.

(** The retrier: exponential backoff between attempts. *)
Record Retrier := mkRetrier {
  MaxRetries : Z;
  InitialDelay : Z;
  MaxDelay : Z;
  Multiplier : spec_float;
  Jitter : spec_float
}.

Record HTTPClient := mkHTTPClient {
  baseURL : string;
  apiKey : string;
  httpClient : Transport;
  middlewares : list Middleware;
  retrier : Retrier;
  debug : bool
}.

Record JSONRPCRequest := mkJSONRPCRequest {
  JSONRPC : string;
  Method : string;
  Params : list Value;
  ID : Z
}.

Record JSONRPCResponse := mkJSONRPCResponse {
  resp_JSONRPC : string;
  resp_ID : Z;
  resp_Result : bytes;
  resp_Error : option JSONRPCError
}.

Record JSONRPCClient := mkJSONRPCClient {
  rpc_httpClient : HTTPClient
}.

(** The type [BatchCall]: one call of a batch; [call_Result] is the pointer
    the result is decoded into. *)
Record BatchCall := mkBatchCall {
  call_Method : string;
  call_Params : list Value;
  call_Result : option loc
}.

Record BatchResult := mkBatchResult {
  Error : option error;
  Result : option loc
}.

Record BatchCallResponse := mkBatchCallResponse {
  bcr_JSONRPC : string;
  bcr_ID : Z;
  bcr_Result : bytes;
  bcr_Error : option JSONRPCError
}.

(** The [body interface{}] of [Post]. *)
Inductive PostBody :=
| NoBody
| Single (req : JSONRPCRequest)
| Batch (reqs : list JSONRPCRequest).

(** What a function that can fail or panic returns. *)
Inductive outcome (A : Type) :=
| Ok (a : A)
| Fail (err : error)
| Panic.
Arguments Ok {A} a.
Arguments Fail {A} err.
Arguments Panic {A}.

(** The code the client calls and the retry loop takes as given:
    encoding/json, [http.NewRequestWithContext], and [calculateDelay], which
    is float64 arithmetic over [math.Pow] and [rand.Float64] (the state of
    the random source is part of the history it is given); it is defined in
    [Backoff] below. The retry loop hands the delay to the timer and does
    nothing else with it. *)
Class Runtime := {
  calculateDelay : Retrier -> Z -> World -> Z;
  NewRequestWithContext : string -> string -> option bytes -> http.Request + error;
  json_Marshal : PostBody -> bytes + error;
  json_Unmarshal_JSONRPCResponse : bytes -> JSONRPCResponse + error;
  json_Unmarshal_BatchCallResponses : bytes -> list BatchCallResponse + error;
  json_Unmarshal_into : bytes -> Value -> Value * option error
}.

Section WithRuntime.
Context `{Runtime}.

Definition uint64 (z : Z) : Z := z mod 2 ^ 64.

(** *** The retrier *)

Definition is_stopRetry (err : error) : bool :=
  match err with EStopRetry _ => true | _ => false end.

Definition ShouldRetry (r : Retrier) (err : error) : bool := IsRetryable (Some err).

(** The error the loop returns for a finished context. *)
Definition context_error (e : context.Err) : error :=
  match e with
  | context.Canceled => ESentinel ErrContextCanceled
  | context.DeadlineExceeded => ESentinel ErrContextDeadline
  end.

(** The loop of [Retrier.Do], [for attempt := 0; attempt <= r.MaxRetries;
    attempt++], by recursion on the number of iterations that remain,
    [MaxRetries + 1 - attempt]. [fn] is a closure: [C] is the type of the
    variables it captures. *)
Fixpoint Retrier_Do_from {C : Type} (r : Retrier) (ctx : Context)
    (fn : C -> World -> option error * C * World)
    (remaining : nat) (attempt : Z) (lastErr : option error) (c : C) (w : World)
    : option error * C * World :=
  match remaining with
  | O => (lastErr, c, w)
  | S remaining' =>
      match Err ctx w with
      | Some e => (Some (context_error e), c, w)
      | None =>
          let '(err, c, w) := fn c w in
          match err with
          | None => (None, c, w)
          | Some err =>
              if is_stopRetry err then (Some err, c, w)
              else if negb (ShouldRetry r err) then (Some err, c, w)
              else if attempt =? MaxRetries r then (Some err, c, w)
              else
                let delay := calculateDelay r attempt w in
                match Done ctx w delay with
                | Some e => (Some (context_error e), c, w)
                | None =>
                    Retrier_Do_from r ctx fn remaining' (attempt + 1) (Some err) c
                      (log_slept delay w)
                end
          end
      end
  end.

Definition Retrier_Do {C : Type} (r : Retrier) (ctx : Context)
    (fn : C -> World -> option error * C * World) (c : C) (w : World)
    : option error * C * World :=
  Retrier_Do_from r ctx fn (Z.to_nat (MaxRetries r + 1)) 0 None c w.

(** *** The HTTP client *)

(** The float64 constants of [NewHTTPClient]. *)
Definition float64_2 : spec_float := S754_finite false 4503599627370496 (-51).
Definition float64_0 : spec_float := S754_zero false.

(** [HTTPClientConfig]. [Timeout] only configures the [http.Client] that
    [NewHTTPClient] makes when none is given; here one is always given. *)
Record HTTPClientConfig := mkHTTPClientConfig {
  cfg_BaseURL : string;
  cfg_APIKey : string;
  cfg_MaxRetries : Z;
  cfg_RetryDelay : Z;
  cfg_RetryMaxDelay : Z;
  cfg_HTTPClient : Transport;
  cfg_Middlewares : list Middleware;
  cfg_Debug : bool
}.

Definition NewHTTPClient (cfg : HTTPClientConfig) : HTTPClient :=
  {| baseURL := cfg_BaseURL cfg;
     apiKey := cfg_APIKey cfg;
     httpClient := cfg_HTTPClient cfg;
     middlewares := cfg_Middlewares cfg;
     retrier := {| MaxRetries := cfg_MaxRetries cfg;
                   InitialDelay := cfg_RetryDelay cfg;
                   MaxDelay := cfg_RetryMaxDelay cfg;
                   Multiplier := float64_2;
                   Jitter := float64_0 |};
     debug := cfg_Debug cfg |}.

Definition doRequest (c : HTTPClient) : Handler :=
  fun ctx req w => (httpClient c ctx w req, log_sent req w).

(** The handler chain of [Do]: the first middleware is outermost. *)
Definition handler_chain (c : HTTPClient) : Handler :=
  foldr (fun (m : Middleware) (handler : Handler) => m handler) (doRequest c) (middlewares c).

(** The closure that [Do] gives to the retrier; it captures [resp] and
    [lastErr]. *)
Definition Do_attempt (handler : Handler) (ctx : Context) (req : http.Request)
    (captured : option http.Response * option error) (w : World)
    : option error * (option http.Response * option error) * World :=
  let '(r, w) := handler ctx req w in
  match r with
  | inr err =>
      if IsRetryable (Some err) then (Some err, (None, Some err), w)
      else (Some (EStopRetry err), (None, Some err), w)
  | inl resp =>
      if (http.StatusCode resp =? 429) || (500 <=? http.StatusCode resp) then
        let lastErr :=
          EHTTP (NewHTTPError (http.StatusCode resp) (http.Status resp) (http.Body resp)) in
        (Some lastErr, (Some resp, Some lastErr), w)
      else (None, (Some resp, snd captured), w)
  end.

(** [HTTPClient.Do] returns a response and an error, as in Go. *)
Definition Do (c : HTTPClient) (ctx : Context) (req : http.Request) (w : World)
    : option http.Response * option error * World :=
  let handler := handler_chain c in
  let '(err, (resp, lastErr), w) :=
    Retrier_Do (retrier c) ctx (Do_attempt handler ctx req) (None, None) w in
  match err with
  | Some (EStopRetry e) => (None, Some e, w)
  | Some err =>
      match lastErr with
      | Some lastErr => (None, Some lastErr, w)
      | None => (None, Some err, w)
      end
  | None => (resp, None, w)
  end.

Definition request_url (c : HTTPClient) (path : string) : string :=
  let url := baseURL c +:+ "/" +:+ apiKey c in
  if bool_decide (path = "") then url else url +:+ "/" +:+ path.

(** What [Post], [Get] and [GetWithQuery] do with the result of [Do]; a nil
    response with a nil error is dereferenced. *)
Definition read_response (r : option http.Response * option error * World)
    : outcome bytes * World :=
  match r with
  | (_, Some err, w) => (Fail err, w)
  | (None, None, w) => (Panic, w)
  | (Some resp, None, w) =>
      match http.ReadErr resp with
      | Some err => (Fail (Wrap (Some err) "READ_ERROR" "failed to read response body"), w)
      | None =>
          if (http.StatusCode resp <? 200) || (300 <=? http.StatusCode resp) then
            (Fail (EHTTP (NewHTTPError (http.StatusCode resp) (http.Status resp)
                            (http.Body resp))), w)
          else (Ok (http.Body resp), w)
      end
  end.

Definition Post (c : HTTPClient) (ctx : Context) (path : string) (body : PostBody)
    (w : World) : outcome bytes * World :=
  let url := request_url c path in
  let marshalled :=
    match body with
    | NoBody => inl None
    | _ => match json_Marshal body with
           | inl data => inl (Some data)
           | inr err => inr err
           end
    end in
  match marshalled with
  | inr err => (Fail (Wrap (Some err) "MARSHAL_ERROR" "failed to marshal request body"), w)
  | inl bodyReader =>
      match NewRequestWithContext "POST" url bodyReader with
      | inr err => (Fail (Wrap (Some err) "REQUEST_ERROR" "failed to create request"), w)
      | inl req =>
          let req := http.Header_Set req "Content-Type" "application/json" in
          let req := http.Header_Set req "Accept" "application/json" in
          read_response (Do c ctx req w)
      end
  end.

Definition Get (c : HTTPClient) (ctx : Context) (path : string) (w : World)
    : outcome bytes * World :=
  let url := request_url c path in
  match NewRequestWithContext "GET" url None with
  | inr err => (Fail (Wrap (Some err) "REQUEST_ERROR" "failed to create request"), w)
  | inl req =>
      let req := http.Header_Set req "Accept" "application/json" in
      read_response (Do c ctx req w)
  end.

(** *** The JSON-RPC client *)

(** [atomic.AddUint64(&requestIDCounter, 1)] *)
Definition NextRequestID (w : World) : Z * World :=
  let n := uint64 (requestIDCounter w + 1) in
  (n, set_requestIDCounter n w).

(** [json.Unmarshal(raw, target)] for a target behind an [interface{}]: the
    variable is rewritten, also when the decoder fails part-way; a target
    that is no pointer to a variable is refused. *)
Definition Unmarshal (raw : bytes) (target : loc) (w : World) : option error * World :=
  match heap w !! target with
  | Some v =>
      let '(v', err) := json_Unmarshal_into raw v in
      (err, set_heap (<[target := v']> (heap w)) w)
  | None => (Some (EForeign "json: Unmarshal(non-pointer)" None), w)
  end.

Definition Call (c : JSONRPCClient) (ctx : Context) (method : string)
    (params : list Value) (result : option loc) (w : World) : outcome unit * World :=
  let '(id, w) := NextRequestID w in
  let req := {| JSONRPC := "2.0"; Method := method; Params := params; ID := id |} in
  match Post (rpc_httpClient c) ctx "" (Single req) w with
  | (Fail err, w) => (Fail err, w)
  | (Panic, w) => (Panic, w)
  | (Ok respBody, w) =>
      match json_Unmarshal_JSONRPCResponse respBody with
      | inr err =>
          (Fail (Wrap (Some err) "UNMARSHAL_ERROR" "failed to unmarshal JSON-RPC response"), w)
      | inl resp =>
          match resp_Error resp with
          | Some e => (Fail (EJSONRPC e), w)
          | None =>
              match result with
              | Some target =>
                  if (0 <? Z.of_nat (length (resp_Result resp))) then
                    match Unmarshal (resp_Result resp) target w with
                    | (Some err, w) =>
                        (Fail (Wrap (Some err) "UNMARSHAL_ERROR" "failed to unmarshal result"), w)
                    | (None, w) => (Ok tt, w)
                    end
                  else (Ok tt, w)
              | None => (Ok tt, w)
              end
          end
      end
  end.

(** [fmt.Errorf("missing response for call %d", i)] *)
Definition missing_response (i : nat) : error :=
  EForeign ("missing response for call " +:+ pretty i) None.

(** The requests of a batch: ids 1, 2, ... in the order of the calls. *)
Definition batch_requests (calls : list BatchCall) : list JSONRPCRequest :=
  imap (fun i call =>
          {| JSONRPC := "2.0"; Method := call_Method call;
             Params := call_Params call; ID := uint64 (Z.of_nat i + 1) |}) calls.

(** [responseMap[responses[i].ID] = &responses[i]], in the order of the
    responses: a later response replaces an earlier one of the same id. *)
Definition response_map (responses : list BatchCallResponse)
    : gmap Z BatchCallResponse :=
  foldl (fun m resp => <[bcr_ID resp := resp]> m) ∅ responses.

(** One iteration of the loop "process results in order". *)
Definition BatchCall_slot (responseMap : gmap Z BatchCallResponse) (i : nat)
    (call : BatchCall) (results : list BatchResult) (w : World)
    : list BatchResult * World :=
  match responseMap !! uint64 (Z.of_nat i + 1) with
  | None =>
      (<[i := {| Error := Some (missing_response i); Result := None |}]> results, w)
  | Some resp =>
      match bcr_Error resp with
      | Some e => (<[i := {| Error := Some (EJSONRPC e); Result := None |}]> results, w)
      | None =>
          match call_Result call with
          | Some target =>
              if (0 <? Z.of_nat (length (bcr_Result resp))) then
                match Unmarshal (bcr_Result resp) target w with
                | (Some err, w) =>
                    (<[i := {| Error := Some (Wrap (Some err) "UNMARSHAL_ERROR"
                                                 "failed to unmarshal result");
                               Result := None |}]> results, w)
                | (None, w) =>
                    (<[i := {| Error := None; Result := Some target |}]> results, w)
                end
              else (results, w)
          | None => (results, w)
          end
      end
  end.

(** [for i, call := range calls], from index [i] on. *)
Fixpoint BatchCall_process (responseMap : gmap Z BatchCallResponse) (i : nat)
    (calls : list BatchCall) (results : list BatchResult) (w : World)
    : list BatchResult * World :=
  match calls with
  | [] => (results, w)
  | call :: calls' =>
      let '(results, w) := BatchCall_slot responseMap i call results w in
      BatchCall_process responseMap (S i) calls' results w
  end.

(** The method [BatchCall] of [JSONRPCClient]. *)
Definition JSONRPCClient_BatchCall (c : JSONRPCClient) (ctx : Context)
    (calls : list BatchCall) (w : World) : outcome (list BatchResult) * World :=
  if bool_decide (length calls = 0%nat) then (Ok [], w)
  else
    let requests := batch_requests calls in
    match Post (rpc_httpClient c) ctx "" (Batch requests) w with
    | (Fail err, w) => (Fail err, w)
    | (Panic, w) => (Panic, w)
    | (Ok respBody, w) =>
        match json_Unmarshal_BatchCallResponses respBody with
        | inr err =>
            (Fail (Wrap (Some err) "UNMARSHAL_ERROR" "failed to unmarshal batch response"), w)
        | inl responses =>
            let responseMap := response_map responses in
            let results :=
              replicate (length calls) {| Error := None; Result := None |} in
            let '(results, w) := BatchCall_process responseMap 0 calls results w in
            (Ok results, w)
        end
    end.

(** [CallRaw]: the call without a decode target; the raw result is
    returned. *)
Definition CallRaw (c : JSONRPCClient) (ctx : Context) (method : string)
    (params : list Value) (w : World) : outcome bytes * World :=
  let '(id, w) := NextRequestID w in
  let req := {| JSONRPC := "2.0"; Method := method; Params := params; ID := id |} in
  match Post (rpc_httpClient c) ctx "" (Single req) w with
  | (Fail err, w) => (Fail err, w)
  | (Panic, w) => (Panic, w)
  | (Ok respBody, w) =>
      match json_Unmarshal_JSONRPCResponse respBody with
      | inr err =>
          (Fail (Wrap (Some err) "UNMARSHAL_ERROR" "failed to unmarshal JSON-RPC response"), w)
      | inl resp =>
          match resp_Error resp with
          | Some e => (Fail (EJSONRPC e), w)
          | None => (Ok (resp_Result resp), w)
          end
      end
  end.

(** *** Middlewares *)

(** [Chain]: [next = middlewares[i].Wrap(next)] for [i] from the last index
    down, so the first middleware is outermost. *)
Definition Chain (middlewares : list Middleware) : Middleware :=
  fun next => foldr (fun (m : Middleware) (next : Handler) => m next) next middlewares.

(** The [Wrap] method of [UserAgentMiddleware]. The header is set in the
    request that [Do] holds, so a later attempt starts from a request that
    already carries it. *)
Definition UserAgentMiddleware (userAgent : string) : Middleware :=
  fun next ctx req w => next ctx (http.Header_Set req "User-Agent" userAgent) w.

(** *** Handlers as Go types them

    A [Handler] above returns a response or an error. The function type of
    the source lets a handler, and so a middleware, return neither, or
    both. [Do] takes a handler at its word: when the error is nil it reads
    the status of the response, and on a nil response that read panics. *)





End WithRuntime.

End Client.

(** ** Package client: the backoff delay

    [calculateDelay] is float64 arithmetic. The floats are those of
    [SpecFloat] at the parameters of binary64, every operation rounding to
    nearest, ties to even, on its own, as the compiler for amd64 has it (a
    compiler that fuses a multiplication with the addition after it rounds
    once where this rounds twice). [math.Pow] is left open; [rand.Float64()]
    is given as the number it returns. *)

Module Backoff.
Import Client.

Definition prec : Z := 53.
Definition emax : Z := 1024.

(** [float64(x)] for an integer [x]. *)
Definition float64 (x : Z) : spec_float := binary_normalize prec emax x 0 false.

(** The constants [0], [1] and [2]. *)
Definition zero : spec_float := S754_zero false.
Definition one : spec_float := float64 1.
Definition two : spec_float := float64 2.

Definition mul : spec_float -> spec_float -> spec_float := SFmul prec emax.
Definition add : spec_float -> spec_float -> spec_float := SFadd prec emax.
Definition sub : spec_float -> spec_float -> spec_float := SFsub prec emax.

(** [x > y] and [x < y]: false when one of the two is NaN. *)
Definition gt (x y : spec_float) : bool := SFltb y x.
Definition lt (x y : spec_float) : bool := SFltb x y.

(** The integer part of a finite float, rounded toward zero. *)
Definition truncate (f : spec_float) : option Z :=
  match f with
  | S754_zero _ => Some 0
  | S754_finite s m e =>
      let magnitude := if 0 <=? e then Z.pos m * 2 ^ e else Z.pos m / 2 ^ (- e) in
      Some (if s then - magnitude else magnitude)
  | S754_infinity _ | S754_nan => None
  end.

(** [time.Duration(f)], the conversion of a float64 to int64: the integer
    part when that is an int64. Otherwise (NaN, an infinity, a value out of
    range) Go leaves the result to the implementation: [None]. *)
Definition Duration (f : spec_float) : option Z :=
  match truncate f with
  | Some z => if (- 2 ^ 63 <=? z) && (z <? 2 ^ 63) then Some z else None
  | None => None
  end.

Section WithPow.
Variable math_Pow : spec_float -> spec_float -> spec_float.

(** [delay] after each of the four steps of [calculateDelay]. *)
Definition exponential (r : Retrier) (attempt : Z) : spec_float :=
  mul (float64 (InitialDelay r)) (math_Pow (Multiplier r) (float64 attempt)).

Definition capped (r : Retrier) (delay : spec_float) : spec_float :=
  if gt delay (float64 (MaxDelay r)) then float64 (MaxDelay r) else delay.

Definition jittered (r : Retrier) (rand_Float64 : spec_float) (delay : spec_float)
    : spec_float :=
  if gt (Jitter r) zero then
    let jitter := mul (mul delay (Jitter r)) (sub (mul rand_Float64 two) one) in
    add delay jitter
  else delay.

Definition clamped (delay : spec_float) : spec_float :=
  if lt delay zero then zero else delay.

(** The method [calculateDelay] of [Retrier], for the number that
    [rand.Float64()] returns if it is called. *)
Definition calculateDelay (r : Retrier) (attempt : Z) (rand_Float64 : spec_float)
    : option Z :=
  let delay := exponential r attempt in
  let delay := capped r delay in
  let delay := jittered r rand_Float64 delay in
  let delay := clamped delay in
  Duration delay.

End WithPow.



End Backoff.

(** ** Package data: asset transfers and their iterator *)

Module Data.
Import Errors.
Export Client (outcome, Ok, Fail, Panic).

Record AssetTransfersParams := mkAssetTransfersParams {
  FromBlock : string;
  ToBlock : string;
  FromAddress : option string;
  ToAddress : option string;
  ContractAddresses : list string;
  Category : list string;
  Order : string;
  WithMetadata : bool;
  ExcludeZeroValue : bool;
  MaxCount : string;
  PageKey : string
}.

Definition CategoryExternal : string := "external".
Definition CategoryERC20 : string := "erc20".

Definition NewAssetTransfersParams : AssetTransfersParams :=
  {| FromBlock := ""; ToBlock := ""; FromAddress := None; ToAddress := None;
     ContractAddresses := []; Category := [CategoryExternal; CategoryERC20]; Order := "";
     WithMetadata := false; ExcludeZeroValue := true; MaxCount := ""; PageKey := "" |}.

Record RawContract := mkRawContract {
  raw_Value : option string;
  raw_Address : option string;
  raw_Decimal : option string
}.

Record ERC1155Metadata := mkERC1155Metadata {
  erc1155_TokenID : string;
  erc1155_Value : string
}.

Record TransferMetadata := mkTransferMetadata {
  BlockTimestamp : string
}.

Record AssetTransfer := mkAssetTransfer {
  transfer_Category : string;
  BlockNum : string;
  From : string;
  To : option string;
  Value : option spec_float;
  TokenID : option string;
  ERC1155 : list ERC1155Metadata;
  Asset : option string;
  UniqueID : string;
  Hash : string;
  Raw : RawContract;
  Metadata : option TransferMetadata
}.

Record AssetTransfersResponse := mkAssetTransfersResponse {
  resp_PageKey : string;
  Transfers : list AssetTransfer
}.

Definition HasMore (r : AssetTransfersResponse) : bool :=
  negb (bool_decide (resp_PageKey r = "")).

(** The requests for asset transfers made so far, oldest first. *)
Definition FetchLog := list AssetTransfersParams.

(** The data client, as the iterator sees it: [rpc] is what the JSON-RPC
    call [alchemy_getAssetTransfers] decodes into [result], or the error it
    returns (the iterator's context included), given the requests made
    before. *)
Record Client := mkClient {
  rpc : FetchLog -> AssetTransfersParams -> AssetTransfersResponse + error
}.

Definition GetAssetTransfers (c : Client) (params : AssetTransfersParams)
    (log : FetchLog) : (AssetTransfersResponse + error) * FetchLog :=
  (rpc c log params, log ++ [params]).

(** The iterator. [params] is the iterator's own copy; the mutex is left
    out: calls are taken one at a time. *)
Record AssetTransfersIterator := mkIterator {
  client : Client;
  params : AssetTransfersParams;
  current : option AssetTransfersResponse;
  index : nat;
  done : bool;
  err : option error
}.

Definition set_PageKey (key : string) (p : AssetTransfersParams) : AssetTransfersParams :=
  {| FromBlock := FromBlock p; ToBlock := ToBlock p; FromAddress := FromAddress p;
     ToAddress := ToAddress p; ContractAddresses := ContractAddresses p;
     Category := Category p; Order := Order p; WithMetadata := WithMetadata p;
     ExcludeZeroValue := ExcludeZeroValue p; MaxCount := MaxCount p; PageKey := key |}.

Definition set_params (p : AssetTransfersParams) (it : AssetTransfersIterator) :=
  {| client := client it; params := p; current := current it;
     index := index it; done := done it; err := err it |}.

Definition set_current (r : option AssetTransfersResponse) (it : AssetTransfersIterator) :=
  {| client := client it; params := params it; current := r;
     index := index it; done := done it; err := err it |}.

Definition set_index (i : nat) (it : AssetTransfersIterator) :=
  {| client := client it; params := params it; current := current it;
     index := i; done := done it; err := err it |}.

Definition set_done (b : bool) (it : AssetTransfersIterator) :=
  {| client := client it; params := params it; current := current it;
     index := index it; done := b; err := err it |}.

Definition set_err (e : option error) (it : AssetTransfersIterator) :=
  {| client := client it; params := params it; current := current it;
     index := index it; done := done it; err := e |}.

(** The constructor copies the parameters and calls nothing. *)
Definition GetAssetTransfersIterator (c : Client) (params : AssetTransfersParams)
    : AssetTransfersIterator :=
  {| client := c; params := params; current := None;
     index := 0; done := false; err := None |}.

Definition fetchNext (it : AssetTransfersIterator) (log : FetchLog)
    : option error * AssetTransfersIterator * FetchLog :=
  match GetAssetTransfers (client it) (params it) log with
  | (inr e, log) => (Some e, it, log)
  | (inl result, log) => (None, set_index 0 (set_current (Some result) it), log)
  end.

(** [Next]. [Ok (Some t)] is a transfer, [Ok None] is the end (nil, nil),
    [Fail e] is (nil, e). [Transfers !! index] is [Some] exactly when
    [index < len(Transfers)]; a nil [current] would be dereferenced. *)
Definition Next (it : AssetTransfersIterator) (log : FetchLog)
    : outcome (option AssetTransfer) * AssetTransfersIterator * FetchLog :=
  match err it with
  | Some e => (Fail e, it, log)
  | None =>
      if done it then (Ok None, it, log)
      else
        let '(ferr, it, log) :=
          match current it with
          | None => fetchNext it log
          | Some _ => (None, it, log)
          end in
        match ferr with
        | Some e => (Fail e, set_err (Some e) it, log)
        | None =>
            match current it with
            | None => (Panic, it, log)
            | Some cur =>
                match Transfers cur !! index it with
                | Some transfer => (Ok (Some transfer), set_index (S (index it)) it, log)
                | None =>
                    if negb (HasMore cur) then (Ok None, set_done true it, log)
                    else
                      let it := set_params (set_PageKey (resp_PageKey cur) (params it)) it in
                      match fetchNext it log with
                      | (Some e, it, log) => (Fail e, set_err (Some e) it, log)
                      | (None, it, log) =>
                          match current it with
                          | None => (Panic, it, log)
                          | Some cur =>
                              match Transfers cur with
                              | [] => (Ok None, set_done true it, log)
                              | transfer :: _ => (Ok (Some transfer), set_index 1 it, log)
                              end
                          end
                      end
                end
            end
        end
  end.

Definition HasNext (it : AssetTransfersIterator) : bool :=
  if done it || bool_decide (is_Some (err it)) then false
  else
    match current it with
    | Some cur =>
        if bool_decide (index it < length (Transfers cur))%nat then true
        else HasMore cur
    | None => true
    end.

Definition Error (it : AssetTransfersIterator) : option error := err it.

Definition Reset (it : AssetTransfersIterator) : AssetTransfersIterator :=
  {| client := client it; params := set_PageKey "" (params it); current := None;
     index := 0; done := false; err := None |}.

(** The loop of [Collect]. It ends when [Next] reports the end or an error;
    [fuel] bounds the number of calls of [Next], and [None] is "not done
    within [fuel] calls". *)
Fixpoint Collect_loop (fuel : nat) (transfers : list AssetTransfer)
    (it : AssetTransfersIterator) (log : FetchLog)
    : option (outcome (list AssetTransfer) * AssetTransfersIterator * FetchLog) :=
  match fuel with
  | O => None
  | S fuel =>
      match Next it log with
      | (Fail e, it, log) => Some (Fail e, it, log)
      | (Panic, it, log) => Some (Panic, it, log)
      | (Ok None, it, log) => Some (Ok transfers, it, log)
      | (Ok (Some transfer), it, log) => Collect_loop fuel (transfers ++ [transfer]) it log
      end
  end.

Definition Collect (fuel : nat) (it : AssetTransfersIterator) (log : FetchLog) :=
  Collect_loop fuel [] it log.

(** The calls a consumer can make, and what each does to the iterator and
    to the log of fetches. *)
Inductive call := CallNext | CallHasNext | CallError | CallReset.

Definition exec (c : call) (st : AssetTransfersIterator * FetchLog)
    : AssetTransfersIterator * FetchLog :=
  match c with
  | CallNext => let '(_, it, log) := Next st.1 st.2 in (it, log)
  | CallHasNext => let _ := HasNext st.1 in st
  | CallError => let _ := Error st.1 in st
  | CallReset => (Reset st.1, st.2)
  end.

Definition run (calls : list call) (st : AssetTransfersIterator * FetchLog)
    : AssetTransfersIterator * FetchLog :=
  foldl (fun st c => exec c st) st calls.

(** The loop of [CollectN], [for i := 0; i < n; i++], by recursion on the
    iterations that remain. *)
Fixpoint CollectN_loop (remaining : nat) (transfers : list AssetTransfer)
    (it : AssetTransfersIterator) (log : FetchLog)
    : outcome (list AssetTransfer) * AssetTransfersIterator * FetchLog :=
  match remaining with
  | O => (Ok transfers, it, log)
  | S remaining =>
      match Next it log with
      | (Fail e, it, log) => (Fail e, it, log)
      | (Panic, it, log) => (Panic, it, log)
      | (Ok None, it, log) => (Ok transfers, it, log)
      | (Ok (Some transfer), it, log) =>
          CollectN_loop remaining (transfers ++ [transfer]) it log
      end
  end.

(** [CollectN]. [make([]AssetTransfer, 0, n)] panics for a negative [n]; it
    also panics for an [n] beyond what the platform can allocate, a limit
    that is left out here. *)
Definition CollectN (n : Z) (it : AssetTransfersIterator) (log : FetchLog)
    : outcome (list AssetTransfer) * AssetTransfersIterator * FetchLog :=
  if n <? 0 then (Panic, it, log) else CollectN_loop (Z.to_nat n) [] it log.

End Data.

(** ** Package hex: hexadecimal strings

    A Go string is a sequence of bytes: a [string] of 8-bit characters. *)

Module Hex.
Import Stdlib.Strings.Ascii.
#[local] Open Scope char_scope.
#[local] Open Scope string_scope.
#[local] Open Scope Z_scope.

Definition code (c : ascii) : Z := Z.of_N (N_of_ascii c).

Definition char (n : Z) : ascii := ascii_of_N (Z.to_N n).

(** [lo <= c && c <= hi] on bytes. *)
Definition between (lo hi c : ascii) : bool := (code lo <=? code c) && (code c <=? code hi).

Definition Has0xPrefix (s : string) : bool :=
  match s with
  | String c0 (String c1 _) =>
      Ascii.eqb c0 "0" && (Ascii.eqb c1 "x" || Ascii.eqb c1 "X")
  | _ => false
  end.

(** [s[2:]] for a string of at least two bytes. *)
Definition drop2 (s : string) : string :=
  match s with
  | String _ (String _ rest) => rest
  | _ => ""
  end.

Definition TrimPrefix (s : string) : string :=
  if Has0xPrefix s then drop2 s else s.

Definition AddPrefix (s : string) : string :=
  if Has0xPrefix s then s else "0x" +:+ s.

(** *** strconv *)

(** The [Err] of a [*strconv.NumError]. *)
Inductive NumError := ErrSyntax | ErrRange.

(** The digit of [strconv.FormatUint]: "0123456789abcdefghijklmnopqrstuvwxyz"[d]. *)
Definition digit_char (d : Z) : ascii :=
  if d <? 10 then char (code "0" + d) else char (code "a" + (d - 10)).

(** The digits of [n] in [base], most significant first, in front of [acc];
    [fuel] bounds the number of digits. *)
Fixpoint format_digits (fuel : nat) (base n : Z) (acc : string) : string :=
  match fuel with
  | O => acc
  | S fuel =>
      let acc := String (digit_char (n mod base)) acc in
      if n / base =? 0 then acc else format_digits fuel base (n / base) acc
  end.

(** [strconv.FormatUint(n, base)] for a uint64 [n] and [2 <= base <= 36]: at
    most 64 digits. *)
Definition FormatUint (n base : Z) : string := format_digits 64 base n "".

(** [lower(c)] of strconv: [c | ('x' - 'X')]. *)
Definition lower (c : ascii) : ascii := char (Z.lor (code c) 32).

(** The loop of [strconv.ParseUint(s, base, 64)] for a base that is given
    (not 0): no prefix, no underscore. [n] is the value so far; the sum is
    computed in uint64 and checked for wrap-around as in the source. *)
Fixpoint ParseUint_loop (base : Z) (s : string) (n : Z) : Z * option NumError :=
  match s with
  | "" => (n, None)
  | String c s =>
      let d :=
        if between "0" "9" c then Some (code c - code "0")
        else if between "a" "z" (lower c) then Some (code (lower c) - code "a" + 10)
        else None in
      match d with
      | None => (0, Some ErrSyntax)
      | Some d =>
          if base <=? d then (0, Some ErrSyntax)
          else if (2 ^ 64 - 1) / base + 1 <=? n then (2 ^ 64 - 1, Some ErrRange)
          else
            let n := (n * base) mod 2 ^ 64 in
            let n1 := (n + d) mod 2 ^ 64 in
            if (n1 <? n) || (2 ^ 64 - 1 <? n1) then (2 ^ 64 - 1, Some ErrRange)
            else ParseUint_loop base s n1
      end
  end.

Definition ParseUint (s : string) (base : Z) : Z * option NumError :=
  match s with
  | "" => (0, Some ErrSyntax)
  | _ => ParseUint_loop base s 0
  end.

Definition EncodeUint64 (n : Z) : string :=
  if n =? 0 then "0x0" else "0x" +:+ FormatUint n 16.

Definition DecodeUint64 (s : string) : Z * option NumError :=
  let s := TrimPrefix s in
  match s with
  | "" => (0, None)
  | _ => ParseUint s 16
  end.

(** *** encoding/hex *)

Inductive HexError := ErrLength | InvalidByteError (b : ascii).

(** [hex.EncodeToString]: two lower-case digits per byte. *)
Fixpoint EncodeToString (b : bytes) : string :=
  match b with
  | [] => ""
  | x :: b =>
      let n := Z.of_N (Byte.to_N x) in
      String (digit_char (n / 16)) (String (digit_char (n mod 16)) (EncodeToString b))
  end.

(** [reverseHexTable]: the value of a hexadecimal digit, of either case. *)
Definition fromHexChar (c : ascii) : option Z :=
  if between "0" "9" c then Some (code c - code "0")
  else if between "a" "f" c then Some (code c - code "a" + 10)
  else if between "A" "F" c then Some (code c - code "A" + 10)
  else None.

Definition byte_of_Z (n : Z) : Byte.byte :=
  match Byte.of_N (Z.to_N n) with
  | Some b => b
  | None => Byte.x00
  end.

(** [hex.DecodeString]: the bytes decoded before the first error, and the
    error. *)
Fixpoint DecodeString (s : string) : bytes * option HexError :=
  match s with
  | "" => ([], None)
  | String p "" =>
      match fromHexChar p with
      | None => ([], Some (InvalidByteError p))
      | Some _ => ([], Some ErrLength)
      end
  | String p (String q s) =>
      match fromHexChar p, fromHexChar q with
      | None, _ => ([], Some (InvalidByteError p))
      | Some _, None => ([], Some (InvalidByteError q))
      | Some a, Some b =>
          let '(rest, err) := DecodeString s in
          (byte_of_Z (a * 16 + b) :: rest, err)
      end
  end.

Definition Encode (b : bytes) : string := "0x" +:+ EncodeToString b.

Definition Decode (s : string) : bytes * option HexError :=
  let s := TrimPrefix s in
  let s := if Nat.odd (String.length s) then "0" +:+ s else s in
  DecodeString s.

(** *** math/big *)

(** The digits of [n > 0] in base 16, as [big.Int.Text(16)] writes them. *)
Definition Text16_abs (n : Z) : string :=
  format_digits (S (Z.to_nat (Z.log2 n))) 16 n "".

(** [n.Text(16)] *)
Definition Text16 (n : Z) : string :=
  if n =? 0 then "0"
  else if n <? 0 then "-" +:+ Text16_abs (- n)
  else Text16_abs n.

(** The digits of [SetString(s, 16)]: every byte a digit below 16, in the
    alphabet of [math/big] (0-9, a-z, A-Z). *)
Fixpoint scan16 (s : string) (n : Z) : option Z :=
  match s with
  | "" => Some n
  | String c s =>
      let d :=
        if between "0" "9" c then Some (code c - code "0")
        else if between "a" "z" c then Some (code c - code "a" + 10)
        else if between "A" "Z" c then Some (code c - code "A" + 10)
        else None in
      match d with
      | Some d => if d <? 16 then scan16 s (n * 16 + d) else None
      | None => None
      end
  end.

(** [new(big.Int).SetString(s, 16)]: an optional sign, then at least one
    digit, and nothing else; [None] is "not ok". *)
Definition SetString16 (s : string) : option Z :=
  let '(neg, digits) :=
    match s with
    | String "+" rest => (false, rest)
    | String "-" rest => (true, rest)
    | _ => (false, s)
    end in
  match digits with
  | "" => None
  | _ =>
      match scan16 digits 0 with
      | Some n => Some (if neg then - n else n)
      | None => None
      end
  end.

(** [n.Text(16)[1:]] *)
Definition drop1 (s : string) : string :=
  match s with
  | String _ rest => rest
  | "" => ""
  end.

(** [EncodeBigInt]; [None] is the nil pointer. *)
Definition EncodeBigInt (n : option Z) : string :=
  match n with
  | None => "0x0"
  | Some n =>
      if n =? 0 then "0x0"
      else if n <? 0 then "-0x" +:+ drop1 (Text16 n)
      else "0x" +:+ Text16 n
  end.

(** [DecodeBigInt]: the number, or the string its error message names. *)
Definition DecodeBigInt (s : string) : Z + string :=
  if bool_decide (s = "") || bool_decide (s = "0x") || bool_decide (s = "0x0") then inl 0
  else
    let '(negative, s) :=
      match s with
      | String "-" rest => (true, rest)
      | _ => (false, s)
      end in
    let s := TrimPrefix s in
    match SetString16 s with
    | None => inr s
    | Some n => inl (if negative then - n else n)
    end.

(** *** Validity *)

Definition isHexDigit (c : ascii) : bool :=
  between "0" "9" c || between "a" "f" c || between "A" "F" c.

(** [utf8.RuneError] *)
Definition RuneError : Z := 65533.

(** A continuation byte: [locb <= c && c <= hicb]. *)
Definition continuation (c : ascii) : bool := (128 <=? code c) && (code c <=? 191).

(** The first rune of a non-empty string and its width, as a [range] loop
    decodes it: the UTF-8 rules of [utf8.DecodeRuneInString], with one byte
    and [RuneError] for every invalid or cut-off encoding. *)
Definition decode_rune (c0 : ascii) (rest : string) : Z * nat :=
  let b0 := code c0 in
  if b0 <? 128 then (b0, 1%nat)
  else if (b0 <? 194) || (244 <? b0) then (RuneError, 1%nat)
  else
    let size : nat := if b0 <? 224 then 2%nat else if b0 <? 240 then 3%nat else 4%nat in
    let lo := if b0 =? 224 then 160 else if b0 =? 240 then 144 else 128 in
    let hi := if b0 =? 237 then 159 else if b0 =? 244 then 143 else 191 in
    if (S (String.length rest) <? size)%nat then (RuneError, 1%nat)
    else
      match rest with
      | String c1 rest =>
          let b1 := code c1 in
          if (b1 <? lo) || (hi <? b1) then (RuneError, 1%nat)
          else if (size <=? 2)%nat then
            (Z.lor (Z.shiftl (Z.land b0 31) 6) (Z.land b1 63), 2%nat)
          else
            match rest with
            | String c2 rest =>
                let b2 := code c2 in
                if negb (continuation c2) then (RuneError, 1%nat)
                else if (size <=? 3)%nat then
                  (Z.lor (Z.lor (Z.shiftl (Z.land b0 15) 12) (Z.shiftl (Z.land b1 63) 6))
                     (Z.land b2 63), 3%nat)
                else
                  match rest with
                  | String c3 _ =>
                      if negb (continuation c3) then (RuneError, 1%nat)
                      else
                        (Z.lor (Z.lor (Z.lor (Z.shiftl (Z.land b0 7) 18)
                                         (Z.shiftl (Z.land b1 63) 12))
                                  (Z.shiftl (Z.land b2 63) 6))
                           (Z.land (code c3) 63), 4%nat)
                  | "" => (RuneError, 1%nat)
                  end
            | "" => (RuneError, 1%nat)
            end
      | "" => (RuneError, 1%nat)
      end.

Fixpoint string_drop (n : nat) (s : string) : string :=
  match n, s with
  | O, _ => s
  | S n, String _ s => string_drop n s
  | S _, "" => ""
  end.

(** The runes of [for _, c := range s]; [fuel] bounds their number by the
    number of bytes. *)
Fixpoint runes_from (fuel : nat) (s : string) : list Z :=
  match fuel, s with
  | S fuel, String c0 rest =>
      let '(r, size) := decode_rune c0 rest in
      r :: runes_from fuel (string_drop (size - 1) rest)
  | _, _ => []
  end.

Definition runes (s : string) : list Z := runes_from (String.length s) s.

(** [byte(c)] for a rune [c]. *)
Definition byte_of_rune (r : Z) : ascii := char (r mod 256).

(** The loop of the three validity checks:
    [for _, c := range s { if !isHexDigit(byte(c)) { return false } }]. *)
Definition all_hex_digits (s : string) : bool :=
  forallb (fun r => isHexDigit (byte_of_rune r)) (runes s).

Definition IsValidHex (s : string) : bool :=
  if negb (Has0xPrefix s) then false
  else
    let s := drop2 s in
    if (String.length s =? 0)%nat then false else all_hex_digits s.

Definition IsValidAddress (s : string) : bool :=
  if negb (Has0xPrefix s) then false
  else
    let s := drop2 s in
    if negb (String.length s =? 40)%nat then false else all_hex_digits s.

Definition IsValidHash (s : string) : bool :=
  if negb (Has0xPrefix s) then false
  else
    let s := drop2 s in
    if negb (String.length s =? 64)%nat then false else all_hex_digits s.

End Hex.

(** ** Package types: quantities and data *)

Module Types.

(** [Quantity], [Data], [Address] and [Hash] are string types. *)
Definition QuantityFromUint64 (n : Z) : string := Hex.EncodeUint64 n.

Definition QuantityFromBigInt (n : option Z) : string :=
  match n with
  | None => "0x0"
  | Some _ => Hex.EncodeBigInt n
  end.

(** [Quantity.Uint64]: the error of [DecodeUint64] is dropped. *)
Definition Quantity_Uint64 (q : string) : Z := (Hex.DecodeUint64 q).1.

(** [Quantity.BigInt]: zero when [DecodeBigInt] fails. *)
Definition Quantity_BigInt (q : string) : Z :=
  match Hex.DecodeBigInt q with
  | inl n => n
  | inr _ => 0
  end.

Definition Quantity_IsZero (q : string) : bool :=
  bool_decide (q = "") || bool_decide (q = "0x0") || bool_decide (q = "0x").

Definition DataFromBytes (b : bytes) : string := Hex.Encode b.

(** [Data.Bytes]: the error of [Decode] is dropped. *)
Definition Data_Bytes (d : string) : bytes := (Hex.Decode d).1.

End Types.

(** ** Package node: block numbers and log filters *)

Module Node.

Definition BlockLatest : string := "latest".
Definition BlockPending : string := "pending".
Definition BlockEarliest : string := "earliest".
Definition BlockFinalized : string := "finalized".
Definition BlockSafe : string := "safe".

Definition BlockNumber (n : Z) : string := Hex.EncodeUint64 n.

Definition BlockNumberFromBigInt (n : option Z) : string :=
  match n with
  | None => BlockLatest
  | Some _ => Hex.EncodeBigInt n
  end.

Definition IsTag (b : string) : bool :=
  bool_decide (b = BlockLatest) || bool_decide (b = BlockPending) ||
  bool_decide (b = BlockEarliest) || bool_decide (b = BlockFinalized) ||
  bool_decide (b = BlockSafe).

(** [BlockNumberOrTag.Uint64] *)
Definition Uint64 (b : string) : Z :=
  if IsTag b then 0 else (Hex.DecodeUint64 b).1.

(** An element of [Topics]: nil, a string, or a list of strings. *)
Inductive Topic :=
| TopicNil
| TopicString (s : string)
| TopicStrings (l : list string).

(** The [Address] of a filter: unset, one address, or several. *)
Inductive FilterAddress :=
| NoAddress
| OneAddress (s : string)
| Addresses (l : list string).

Record LogFilter := mkLogFilter {
  FromBlock : string;
  ToBlock : string;
  Address : FilterAddress;
  Topics : list Topic;
  BlockHash : option string
}.

Definition NewLogFilter : LogFilter :=
  {| FromBlock := ""; ToBlock := ""; Address := NoAddress; Topics := []; BlockHash := None |}.

Definition set_Topics (topics : list Topic) (f : LogFilter) : LogFilter :=
  {| FromBlock := FromBlock f; ToBlock := ToBlock f; Address := Address f;
     Topics := topics; BlockHash := BlockHash f |}.

(** [ensureTopics]: a shorter slice is copied into a new one of [size]
    elements, the rest nil. *)
Definition ensureTopics (size : nat) (f : LogFilter) : LogFilter :=
  if (length (Topics f) <? size)%nat then
    set_Topics (Topics f ++ replicate (size - length (Topics f)) TopicNil) f
  else f.

Definition SetTopic0 (topic : string) (f : LogFilter) : LogFilter :=
  let f := ensureTopics 1 f in
  set_Topics (<[0%nat := TopicString topic]> (Topics f)) f.

Definition SetTopic1 (topic : string) (f : LogFilter) : LogFilter :=
  let f := ensureTopics 2 f in
  set_Topics (<[1%nat := TopicString topic]> (Topics f)) f.

Definition SetTopic2 (topic : string) (f : LogFilter) : LogFilter :=
  let f := ensureTopics 3 f in
  set_Topics (<[2%nat := TopicString topic]> (Topics f)) f.

Definition SetTopic3 (topic : string) (f : LogFilter) : LogFilter :=
  let f := ensureTopics 4 f in
  set_Topics (<[3%nat := TopicString topic]> (Topics f)) f.

(** [hashesToStrings] copies the strings of the hashes. *)
Definition hashesToStrings (hashes : list string) : list string := hashes.

Definition SetTopic0Or (topics : list string) (f : LogFilter) : LogFilter :=
  let f := ensureTopics 1 f in
  set_Topics (<[0%nat := TopicStrings (hashesToStrings topics)]> (Topics f)) f.

Definition SetBlockHash (hash : string) (f : LogFilter) : LogFilter :=
  {| FromBlock := ""; ToBlock := ""; Address := Address f; Topics := Topics f;
     BlockHash := Some hash |}.

Definition SetBlockRange (from to : string) (f : LogFilter) : LogFilter :=
  {| FromBlock := from; ToBlock := to; Address := Address f; Topics := Topics f;
     BlockHash := BlockHash f |}.

End Node.

(** ** Package data: the block number of a transfer *)

Module DataTypes.
Import Stdlib.Strings.Ascii.
Import Hex Data.
#[local] Open Scope char_scope.
#[local] Open Scope string_scope.
#[local] Open Scope Z_scope.

Definition hexDigitToValue (c : ascii) : Z :=
  if between "0" "9" c then code c - code "0"
  else if between "a" "f" c then code c - code "a" + 10
  else if between "A" "F" c then code c - code "A" + 10
  else 0.

(** The loop of the method [BlockNumber] of [AssetTransfer]:
    [n = n*16 + uint64(hexDigitToValue(byte(c)))] in uint64. *)
Definition BlockNumber_loop (rs : list Z) : Z :=
  foldl (fun n r => (n * 16 + hexDigitToValue (byte_of_rune r)) mod 2 ^ 64) 0 rs.

(** The method [BlockNumber] of [AssetTransfer]. [None] is the panic of
    [t.BlockNum[2:]] on a string of one byte. *)
Definition AssetTransfer_BlockNumber (t : AssetTransfer) : option Z :=
  if bool_decide (BlockNum t = "") then Some 0
  else if (String.length (BlockNum t) <? 2)%nat then None
  else Some (BlockNumber_loop (runes (drop2 (BlockNum t)))).

End DataTypes.

(** ** Package alchemy: configuration and construction *)

Module Alchemy.
Import Client.

Definition EthMainnet : string := "eth-mainnet".

(** [time.Second], in nanoseconds. *)
Definition Second : Z := 1000000000.

(** The method [BaseURL] of [Network]. *)
Definition Network_BaseURL (n : string) : string := "https://" +:+ n +:+ ".g.alchemy.com/v2".

(** The method [NFTURL] of [Network]. *)
Definition Network_NFTURL (n : string) : string := "https://" +:+ n +:+ ".g.alchemy.com/nft/v3".

(** [Config]. An HTTP client is always given, as for [HTTPClientConfig]. *)
Record Config := mkConfig {
  APIKey : string;
  Network : string;
  BaseURL : string;
  Timeout : Z;
  MaxRetries : Z;
  RetryDelay : Z;
  RetryMaxDelay : Z;
  HTTPClient : Transport;
  Debug : bool
}.

(** [DefaultConfig] leaves the API key, the base URL and the HTTP client
    zero; [WithDefaults] reads the other fields only. *)
Record Defaults := mkDefaults {
  def_Network : string;
  def_Timeout : Z;
  def_MaxRetries : Z;
  def_RetryDelay : Z;
  def_RetryMaxDelay : Z
}.

Definition DefaultConfig : Defaults :=
  {| def_Network := EthMainnet;
     def_Timeout := 30 * Second;
     def_MaxRetries := 3;
     def_RetryDelay := 1 * Second;
     def_RetryMaxDelay := 30 * Second |}.

Inductive ConfigError := ErrMissingAPIKey.

Definition Validate (c : Config) : option ConfigError :=
  if bool_decide (APIKey c = "") then Some ErrMissingAPIKey else None.

Definition WithDefaults (c : Config) : Config :=
  let defaults := DefaultConfig in
  {| APIKey := APIKey c;
     Network := if bool_decide (Network c = "") then def_Network defaults else Network c;
     BaseURL := BaseURL c;
     Timeout := if Timeout c =? 0 then def_Timeout defaults else Timeout c;
     MaxRetries := if MaxRetries c =? 0 then def_MaxRetries defaults else MaxRetries c;
     RetryDelay := if RetryDelay c =? 0 then def_RetryDelay defaults else RetryDelay c;
     RetryMaxDelay :=
       if RetryMaxDelay c =? 0 then def_RetryMaxDelay defaults else RetryMaxDelay c;
     HTTPClient := HTTPClient c;
     Debug := Debug c |}.

Definition GetBaseURL (c : Config) : string :=
  if negb (bool_decide (BaseURL c = "")) then BaseURL c else Network_BaseURL (Network c).

(** The client [New] returns: its configuration, the HTTP client and the
    JSON-RPC client its sub-clients share, and the NFT URL of its data
    client. *)
Record Alchemy := mkAlchemy {
  config : Config;
  http_client : Client.HTTPClient;
  rpc_client : JSONRPCClient;
  nftURL : string
}.

Definition New (cfg : Config) : Alchemy + ConfigError :=
  let cfg := WithDefaults cfg in
  match Validate cfg with
  | Some err => inr err
  | None =>
      let httpClient :=
        NewHTTPClient {| cfg_BaseURL := GetBaseURL cfg;
                         cfg_APIKey := APIKey cfg;
                         cfg_MaxRetries := MaxRetries cfg;
                         cfg_RetryDelay := RetryDelay cfg;
                         cfg_RetryMaxDelay := RetryMaxDelay cfg;
                         cfg_HTTPClient := HTTPClient cfg;
                         cfg_Middlewares := [];
                         cfg_Debug := Debug cfg |} in
      inl {| config := cfg;
             http_client := httpClient;
             rpc_client := {| rpc_httpClient := httpClient |};
             nftURL := Network_NFTURL (Network cfg) |}
  end.

Definition set_Network_BaseURL (network baseURL : string) (c : Config) : Config :=
  {| APIKey := APIKey c; Network := network; BaseURL := baseURL; Timeout := Timeout c;
     MaxRetries := MaxRetries c; RetryDelay := RetryDelay c;
     RetryMaxDelay := RetryMaxDelay c; HTTPClient := HTTPClient c; Debug := Debug c |}.

Definition WithNetwork (a : Alchemy) (network : string) : Alchemy + ConfigError :=
  New (set_Network_BaseURL network "" (config a)).

End Alchemy.

(** ** Vocabulary of the properties *)

Module ErrorsSpec.
Import Errors.

(** The last error on the [Unwrap] chain of [err]. *)
Fixpoint root (err : error) : error :=
  match err with
  | EAlchemy _ _ (Some cause) => root cause
  | EForeign _ (Some cause) => root cause
  | _ => err
  end.

(** An error made outside the package whose chain holds no error of the
    package: what net/http returns for a failed exchange. *)
Fixpoint foreign_chain (err : error) : bool :=
  match err with
  | EForeign _ None => true
  | EForeign _ (Some cause) => foreign_chain cause
  | _ => false
  end.

End ErrorsSpec.

Module RetrySpec.
Import Client.

(** From [w] to [w']: [k] requests were sent, each of them [req], the waits
    [delays] ran to their end, and nothing else changed. *)
Definition exchanges (req : http.Request) (k : nat) (delays : list Z) (w w' : World)
    : Prop :=
  sent w' = sent w ++ replicate k req /\
  slept w' = slept w ++ delays /\
  requestIDCounter w' = requestIDCounter w /\
  heap w' = heap w.


End RetrySpec.

Module JSONRPCSpec.
Import Errors Client.

(** The ids that [n] successive calls of [NextRequestID] return. *)
Fixpoint request_ids (n : nat) (w : World) : list Z :=
  match n with
  | O => []
  | S n => let '(id, w) := NextRequestID w in id :: request_ids n w
  end.

(** The runtime whose decoder of response envelopes reports the id [f id]
    where that of [R] reports [id]. *)
Definition with_response_ID (f : Z -> Z) (R : Runtime) : Runtime :=
  {| calculateDelay := @calculateDelay R;
     NewRequestWithContext := @NewRequestWithContext R;
     json_Marshal := @json_Marshal R;
     json_Unmarshal_JSONRPCResponse := fun body =>
       match @json_Unmarshal_JSONRPCResponse R body with
       | inl resp =>
           inl {| resp_JSONRPC := resp_JSONRPC resp; resp_ID := f (resp_ID resp);
                  resp_Result := resp_Result resp; resp_Error := resp_Error resp |}
       | inr err => inr err
       end;
     json_Unmarshal_BatchCallResponses := @json_Unmarshal_BatchCallResponses R;
     json_Unmarshal_into := @json_Unmarshal_into R |}.

Section WithRuntime.
Context `{Runtime}.

(** What [Call] does with the raw result of an exchange that gave one. *)
Definition decode_result (raw : bytes) (result : option loc) (w : World)
    : outcome unit * World :=
  match result with
  | Some target =>
      if (0 <? Z.of_nat (length raw)) then
        match Unmarshal raw target w with
        | (Some err, w) =>
            (Fail (Wrap (Some err) "UNMARSHAL_ERROR" "failed to unmarshal result"), w)
        | (None, w) => (Ok tt, w)
        end
      else (Ok tt, w)
  | None => (Ok tt, w)
  end.

End WithRuntime.

End JSONRPCSpec.

Module DataSpec.
Import Data.

(** The endpoint answers the request for the page at cursor [key] with the
    first of [pages], transfers and next cursor, and so on along the
    cursors, up to a page without next cursor; every one of these pages has
    a transfer. *)
Fixpoint serves (c : Client) (p : AssetTransfersParams) (key : string)
    (pages : list (list AssetTransfer * string)) : Prop :=
  match pages with
  | [] => key = ""
  | (transfers, next) :: pages =>
      key <> "" /\ transfers <> [] /\
      (forall log, rpc c log (set_PageKey key p) =
                     inl {| resp_PageKey := next; Transfers := transfers |}) /\
      serves c p next pages
  end.

(** The requests for these pages. *)
Fixpoint requests (p : AssetTransfersParams) (key : string)
    (pages : list (list AssetTransfer * string)) : list AssetTransfersParams :=
  match pages with
  | [] => []
  | (_, next) :: pages => set_PageKey key p :: requests p next pages
  end.

(** The transfers of these pages, in order. *)
Definition transfers_of (pages : list (list AssetTransfer * string)) : list AssetTransfer :=
  concat (map fst pages).

(** The transfers [l] in front of the transfers of a result. *)
Definition after (l : list AssetTransfer) (r : outcome (list AssetTransfer))
    : outcome (list AssetTransfer) :=
  match r with
  | Ok l' => Ok (l ++ l')
  | Fail e => Fail e
  | Panic => Panic
  end.

End DataSpec.

Module NodeSpec.
Import Node.

(** The setter of topic [i], for [i] from 0 to 3. *)
Definition SetTopic (i : nat) : string -> LogFilter -> LogFilter :=
  match i with
  | 0%nat => SetTopic0
  | 1%nat => SetTopic1
  | 2%nat => SetTopic2
  | _ => SetTopic3
  end.

(** Element [i] set to [v] in a slice first grown to [i + 1] elements if it
    is shorter. *)
Definition set_at (i : nat) (v : Topic) (topics : list Topic) : list Topic :=
  <[i := v]> (if (length topics <? S i)%nat
              then topics ++ replicate (S i - length topics) TopicNil
              else topics).

End NodeSpec.

Module HexSpec.
Import Stdlib.Strings.Ascii.

(** Every byte of the string passes the test. *)
Fixpoint every (test : ascii -> bool) (s : string) : bool :=
  match s with
  | EmptyString => true
  | String c s => test c && every test s
  end.

(** The string is ASCII: every byte is below 128. *)
Definition ascii_only (s : string) : bool := every (fun c => (Hex.code c <? 128)%Z) s.

End HexSpec.

Module ClientSpec.
Import Errors Client.

(** A status that [Do] turns into an error and the classifier lets the loop
    retry. *)
Definition retried_status (s : Z) : Prop := s = 429 \/ 500 <= s <= 599.


Section WithRuntime.
Context `{Runtime}.

(** What one iteration of the batch loop assigns to its slot, if anything,
    and the world it leaves. *)
Definition slot_result (responseMap : gmap Z BatchCallResponse) (i : nat)
    (call : BatchCall) (w : World) : option BatchResult * World :=
  match responseMap !! uint64 (Z.of_nat i + 1) with
  | None => (Some {| Error := Some (missing_response i); Result := None |}, w)
  | Some resp =>
      match bcr_Error resp with
      | Some e => (Some {| Error := Some (EJSONRPC e); Result := None |}, w)
      | None =>
          match call_Result call with
          | Some target =>
              if (0 <? Z.of_nat (length (bcr_Result resp))) then
                match Unmarshal (bcr_Result resp) target w with
                | (Some err, w) =>
                    (Some {| Error := Some (Wrap (Some err) "UNMARSHAL_ERROR"
                                              "failed to unmarshal result");
                             Result := None |}, w)
                | (None, w) => (Some {| Error := None; Result := Some target |}, w)
                end
              else (None, w)
          | None => (None, w)
          end
      end
  end.

(** The world after the iterations for [calls], the first of which has
    index [i]. *)
Fixpoint world_after (responseMap : gmap Z BatchCallResponse) (i : nat)
    (calls : list BatchCall) (w : World) : World :=
  match calls with
  | [] => w
  | call :: calls' =>
      world_after responseMap (S i) calls' (slot_result responseMap i call w).2
  end.

(** The world in which the iteration for slot [i] of a batch starts. *)
Definition world_before (responseMap : gmap Z BatchCallResponse)
    (calls : list BatchCall) (w : World) (i : nat) : World :=
  world_after responseMap 0 (take i calls) w.

End WithRuntime.

End ClientSpec.

(** ** A test double of the runtime and of a server

    A small runtime to evaluate the client on: a codec over one-letter
    messages, a context that never finishes, and transports that answer
    every request alike. *)

Module ClientExamples.
Import Errors Client.

(** A response body is decoded by its first byte: [e] is a protocol error
    with code -32000, [p] one with code -32602, [r] a result (the rest of
    the body); anything else is malformed. *)
Definition decode_response (body : bytes) : JSONRPCResponse + error :=
  match body with
  | "e"%byte :: _ =>
      inl {| resp_JSONRPC := "2.0"; resp_ID := 1; resp_Result := [];
             resp_Error := Some (NewJSONRPCError (-32000) "server error" []) |}
  | "p"%byte :: _ =>
      inl {| resp_JSONRPC := "2.0"; resp_ID := 1; resp_Result := [];
             resp_Error := Some (NewJSONRPCError (-32602) "invalid params" []) |}
  | "r"%byte :: rest =>
      inl {| resp_JSONRPC := "2.0"; resp_ID := 1; resp_Result := rest;
             resp_Error := None |}
  | _ => inr (EForeign "invalid character" None)
  end.

(** A batch body is a sequence of two-byte envelopes: the id as a digit,
    then [r] (a result, the digit itself), [e] (a protocol error) or [n]
    (neither). *)
Fixpoint decode_batch (body : bytes) : list BatchCallResponse + error :=
  match body with
  | [] => inl []
  | id :: kind :: rest =>
      match decode_batch rest with
      | inr err => inr err
      | inl responses =>
          let n := Z.of_N (Byte.to_N id) - 48 in
          let resp :=
            match kind with
            | "r"%byte => Some {| bcr_JSONRPC := "2.0"; bcr_ID := n; bcr_Result := [id];
                                  bcr_Error := None |}
            | "e"%byte => Some {| bcr_JSONRPC := "2.0"; bcr_ID := n; bcr_Result := [];
                                  bcr_Error := Some (NewJSONRPCError (-32602)
                                                       "invalid params" []) |}
            | "n"%byte => Some {| bcr_JSONRPC := "2.0"; bcr_ID := n; bcr_Result := [];
                                  bcr_Error := None |}
            | _ => None
            end in
          match resp with
          | Some resp => inl (resp :: responses)
          | None => inr (EForeign "invalid character" None)
          end
      end
  | _ => inr (EForeign "unexpected end of JSON input" None)
  end.

(** [math.Pow] as far as the retry loop needs it, for an exponent that is a
    whole number from 0 up: repeated multiplication, which is exact for the
    base 2. *)
Definition math_Pow (x y : spec_float) : spec_float :=
  match Backoff.truncate y with
  | Some n => Nat.iter (Z.to_nat n) (fun acc => Backoff.mul acc x) Backoff.one
  | None => S754_nan
  end.

(** The delay is the one [calculateDelay] computes, with a random source
    that returns 0; where Go leaves the conversion to the implementation it
    is the smallest int64, as on amd64. *)
#[local] Instance test_runtime : Runtime := {|
  calculateDelay := fun r attempt _ =>
    default (- 2 ^ 63) (Backoff.calculateDelay math_Pow r attempt Backoff.zero);
  NewRequestWithContext := fun method url body =>
    inl {| http.Method := method; http.URL := url; http.Header := ∅;
           http.ReqBody := body |};
  json_Marshal := fun _ => inl [];
  json_Unmarshal_JSONRPCResponse := decode_response;
  json_Unmarshal_BatchCallResponses := decode_batch;
  json_Unmarshal_into := fun raw _ => (VString (String.string_of_list_byte raw), None)
|}.

Definition background : Context :=
  {| Err := fun _ => None; Done := fun _ _ => None |}.

(** A server that answers every request with the same status and body. *)
Definition always (status : Z) (body : bytes) : Transport :=
  fun _ _ _ =>
    inl {| http.StatusCode := status; http.Status := pretty status;
           http.Body := body; http.ReadErr := None |}.

Definition test_client (server : Transport) (maxRetries : Z) : HTTPClient :=
  NewHTTPClient
    {| cfg_BaseURL := "https://eth-mainnet.g.alchemy.com/v2"; cfg_APIKey := "demo";
       cfg_MaxRetries := maxRetries; cfg_RetryDelay := 1000000000;
       cfg_RetryMaxDelay := 30000000000; cfg_HTTPClient := server;
       cfg_Middlewares := []; cfg_Debug := false |}.

Definition test_request : http.Request :=
  {| http.Method := "GET"; http.URL := "https://eth-mainnet.g.alchemy.com/v2/demo";
     http.Header := ∅; http.ReqBody := None |}.

(** Nothing sent yet, and three variables for results. *)
Definition initial_world : World :=
  {| sent := []; slept := []; requestIDCounter := 0;
     heap := <[3%positive := VNil]> (<[2%positive := VNil]> (<[1%positive := VNil]> ∅)) |}.

Definition three_calls : list BatchCall :=
  [ {| call_Method := "eth_blockNumber"; call_Params := [];
       call_Result := Some 1%positive |};
    {| call_Method := "eth_chainId"; call_Params := [];
       call_Result := Some 2%positive |};
    {| call_Method := "eth_gasPrice"; call_Params := [];
       call_Result := Some 3%positive |} ].

(** A server whose batch answer has the envelopes for ids 3 and 1, in that
    order, and none for id 2. *)
Definition batch_body : bytes := ["3"; "r"; "1"; "r"]%byte.

Definition batch_client : JSONRPCClient :=
  {| rpc_httpClient := test_client (always 200 batch_body) 3 |}.

(** A server whose envelope for id 1 has neither result nor error. *)
Definition hollow_body : bytes := ["1"; "n"; "2"; "r"; "3"; "r"]%byte.

Definition hollow_client : JSONRPCClient :=
  {| rpc_httpClient := test_client (always 200 hollow_body) 3 |}.


(** The responses in a body that decodes. *)
Definition responses_of (body : bytes) : list BatchCallResponse :=
  match decode_batch body with
  | inl responses => responses
  | inr _ => []
  end.

End ClientExamples.

Module DataExamples.
Import Errors Data.

(** A transfer known by its unique id alone. *)
Definition transfer (id : string) : AssetTransfer :=
  {| transfer_Category := "external"; BlockNum := "0x1"; From := "0x00"; To := None;
     Value := None; TokenID := None; ERC1155 := []; Asset := None; UniqueID := id;
     Hash := "0x00";
     Raw := {| raw_Value := None; raw_Address := None; raw_Decimal := None |};
     Metadata := None |}.

(** An endpoint with two pages: [a, b] with next cursor "k2", then [c]. *)
Definition two_pages : Client :=
  {| rpc := fun _ p =>
       if bool_decide (PageKey p = "") then
         inl {| resp_PageKey := "k2"; Transfers := [transfer "a"; transfer "b"] |}
       else if bool_decide (PageKey p = "k2") then
         inl {| resp_PageKey := ""; Transfers := [transfer "c"] |}
       else inr (EForeign "unknown page key" None) |}.

(** An endpoint whose first page is [a, b] with next cursor "k2" and whose
    second page cannot be fetched. *)
Definition second_page_fails : Client :=
  {| rpc := fun _ p =>
       if bool_decide (PageKey p = "") then
         inl {| resp_PageKey := "k2"; Transfers := [transfer "a"; transfer "b"] |}
       else inr (EForeign "connection reset by peer" None) |}.

(** An endpoint that follows the cursor "k2" with an empty page. *)
Definition empty_second_page : Client :=
  {| rpc := fun _ p =>
       if bool_decide (PageKey p = "") then
         inl {| resp_PageKey := "k2"; Transfers := [transfer "a"] |}
       else inl {| resp_PageKey := "k3"; Transfers := [] |} |}.

End DataExamples.

Module RetryExamples.
Import Errors Client ClientExamples.

(** A context that is cancelled from the start. *)
Definition cancelled : Context :=
  {| Err := fun _ => Some context.Canceled; Done := fun _ _ => Some context.Canceled |}.

(** A context whose deadline passes during the first wait. *)
Definition deadline_while_waiting : Context :=
  {| Err := fun _ => None; Done := fun _ _ => Some context.DeadlineExceeded |}.

(** A server that cannot be reached: the error of net/http, which wraps
    the one of the dialer. *)
Definition unreachable : Transport :=
  fun _ _ _ =>
    inr (EForeign "Post: dial tcp: connection refused"
           (Some (EForeign "dial tcp: connection refused" None))).

(** A client with two User-Agent middlewares. *)
Definition ua_client : HTTPClient :=
  NewHTTPClient
    {| cfg_BaseURL := "https://eth-mainnet.g.alchemy.com/v2"; cfg_APIKey := "demo";
       cfg_MaxRetries := 3; cfg_RetryDelay := 1000000000;
       cfg_RetryMaxDelay := 30000000000; cfg_HTTPClient := always 200 [];
       cfg_Middlewares := [UserAgentMiddleware "alchemy-go/1.0";
                           UserAgentMiddleware "my-app/2.0"];
       cfg_Debug := false |}.



End RetryExamples.

Module AlchemyExamples.
Import Client Alchemy.

(** The configuration of the README: an API key and nothing else. *)
Definition demo_config : Config :=
  {| APIKey := "demo"; Network := ""; BaseURL := ""; Timeout := 0; MaxRetries := 0;
     RetryDelay := 0; RetryMaxDelay := 0; HTTPClient := ClientExamples.always 200 [];
     Debug := false |}.

(** A configuration meant to switch retries off, with an endpoint of its
    own. *)
Definition no_retry_config : Config :=
  {| APIKey := "demo"; Network := "eth-sepolia"; BaseURL := "http://localhost:8545";
     Timeout := 0; MaxRetries := -1; RetryDelay := 0; RetryMaxDelay := 0;
     HTTPClient := ClientExamples.always 200 []; Debug := false |}.

End AlchemyExamples.

(** * Properties *)

(** ** The error classifier *)

Module ErrorsFacts.
Import Errors.

Lemma HTTPError_IsRetryable_iff (h : HTTPError) :
  HTTPError_IsRetryable h = true <->
  StatusCode h = 408 \/ StatusCode h = 429 \/ 500 <= StatusCode h <= 599.
Proof.
  unfold HTTPError_IsRetryable.
  destruct (Z.eqb_spec (StatusCode h) 429); [lia|].
  destruct (Z.leb_spec 500 (StatusCode h)), (Z.ltb_spec (StatusCode h) 600); simpl;
    destruct (Z.eqb_spec (StatusCode h) 408); split; intros; try lia; congruence.
Qed.

Lemma JSONRPCError_IsRetryable_iff (e : JSONRPCError) :
  JSONRPCError_IsRetryable e = true <->
  ServerErrorStart <= Code e <= ServerErrorEnd \/ Code e = InternalError.
Proof.
  unfold JSONRPCError_IsRetryable, IsServerError, IsInternalError.
  destruct (Z.leb_spec ServerErrorStart (Code e)), (Z.leb_spec (Code e) ServerErrorEnd),
    (Z.eqb_spec (Code e) InternalError); simpl; split; intros; try lia; congruence.
Qed.

Lemma IsRetryable_iff (err : error) :
  IsRetryable (Some err) = true <->
  (exists h, As_HTTPError err = Some h /\ HTTPError_IsRetryable h = true) \/
  (As_HTTPError err = None /\ Is err ErrRateLimited = true).
Proof.
  unfold IsRetryable. destruct (As_HTTPError err) as [h|] eqn:Has.
  - split.
    + intros Hr. left. exists h. split; [reflexivity | exact Hr].
    + intros [(h' & Heq & Hr) | (Hnone & _)]; [congruence | discriminate].
  - destruct (Is err ErrRateLimited) eqn:Hrl.
    + split; [intros _; right; split; reflexivity | reflexivity].
    + split.
      * destruct (Is err ErrContextCanceled || Is err ErrContextDeadline); discriminate.
      * intros [(h' & Heq & _) | (_ & Hr)]; discriminate.
Qed.

(** C4 (counterexample). The specification has the error classifier return
    "retryable" for a JSON-RPC protocol error whose code is in the
    server-error range. For the protocol error with code -32000,
    [errors.IsRetryable] returns false. *)
Lemma IsRetryable_server_error_code_not_retryable :
  IsRetryable (Some (EJSONRPC (NewJSONRPCError (-32000) "server error" []))) = false.
Proof. reflexivity. Qed.

(** C4 (as amended). [errors.IsRetryable] returns true exactly for an error
    whose [Unwrap] chain carries an HTTP error with status 408, 429 or in
    [500,599], and for an error without HTTP error on its chain that is the
    rate-limit sentinel; it returns false for nil, for the cancellation and
    deadline sentinels and for every JSON-RPC protocol error and API error.
    Protocol errors are classified by a method of their own,
    [JSONRPCError.IsRetryable], which is true exactly for the codes in
    [-32099,-32000] and -32603, and so false for -32602, -32601 and -32700;
    the same holds of the method of HTTP errors and the status set above. *)
Theorem IsRetryable_classification :
  (forall err : error,
      IsRetryable (Some err) = true <->
      (exists h, As_HTTPError err = Some h /\
                 (StatusCode h = 408 \/ StatusCode h = 429 \/ 500 <= StatusCode h <= 599)) \/
      (As_HTTPError err = None /\ Is err ErrRateLimited = true)) /\
  IsRetryable None = false /\
  (forall h : HTTPError,
      IsRetryable (Some (EHTTP h)) = HTTPError_IsRetryable h /\
      (HTTPError_IsRetryable h = true <->
       StatusCode h = 408 \/ StatusCode h = 429 \/ 500 <= StatusCode h <= 599)) /\
  (forall s : Sentinel, IsRetryable (Some (ESentinel s)) = true <-> s = ErrRateLimited) /\
  (forall e : JSONRPCError,
      IsRetryable (Some (EJSONRPC e)) = false /\
      (JSONRPCError_IsRetryable e = true <->
       -32099 <= Code e <= -32000 \/ Code e = -32603)) /\
  (forall e : APIError, IsRetryable (Some (EAPI e)) = false) /\
  (forall e : JSONRPCError,
      Code e = InvalidParams \/ Code e = MethodNotFound \/ Code e = ParseError ->
      JSONRPCError_IsRetryable e = false).
Proof.
  split; [|split; [|split; [|split; [|split; [|split]]]]].
  - intros err. rewrite IsRetryable_iff.
    split; (intros [(h & Has & Hh) | Hrl]; [left | right; exact Hrl]);
      exists h; (split; [exact Has | apply HTTPError_IsRetryable_iff, Hh]).
  - reflexivity.
  - intros h. split; [reflexivity | apply HTTPError_IsRetryable_iff].
  - intros s. split; [destruct s; simpl; congruence | intros ->; reflexivity].
  - intros e. split; [reflexivity | apply JSONRPCError_IsRetryable_iff].
  - reflexivity.
  - intros e Hcode. destruct (JSONRPCError_IsRetryable e) eqn:Hr; [|reflexivity].
    apply JSONRPCError_IsRetryable_iff in Hr.
    unfold InvalidParams, MethodNotFound, ParseError, ServerErrorStart, ServerErrorEnd,
      InternalError in *. lia.
Qed.

(** C4 as amended, at an HTTP error of status 503 and at the code -32602. *)
Lemma IsRetryable_classification_witness :
  IsRetryable (Some (EHTTP (NewHTTPError 503 "503 Service Unavailable" []))) = true /\
  JSONRPCError_IsRetryable (NewJSONRPCError (-32602) "invalid params" []) = false.
Proof.
  destruct IsRetryable_classification as (Hgen & _ & Hhttp & _ & _ & _ & Hcodes).
  split.
  - apply Hgen. left. eexists. split; [reflexivity | simpl; lia].
  - apply Hcodes. left. reflexivity.
Defined.

End ErrorsFacts.

(** ** The HTTP executor and the retry loop *)

Module ClientFacts.
Import Errors Client ClientSpec.

Section WithRuntime.
Context `{Runtime}.

Lemma retried_status_IsRetryable (s : Z) (status : string) (body : bytes) :
  retried_status s ->
  IsRetryable (Some (EHTTP (NewHTTPError s status body))) = true.
Proof.
  intros Hs. apply ErrorsFacts.IsRetryable_iff. left. eexists.
  split; [reflexivity|]. apply ErrorsFacts.HTTPError_IsRetryable_iff. simpl.
  unfold retried_status in Hs. lia.
Qed.

Lemma Do_attempt_error_status (handler : Handler) ctx req captured w resp w' :
  handler ctx req w = (inl resp, w') ->
  http.StatusCode resp = 429 \/ 500 <= http.StatusCode resp ->
  Do_attempt handler ctx req captured w =
    (Some (EHTTP (NewHTTPError (http.StatusCode resp) (http.Status resp) (http.Body resp))),
     (Some resp,
      Some (EHTTP (NewHTTPError (http.StatusCode resp) (http.Status resp) (http.Body resp)))),
     w').
Proof.
  intros Hh Hs. unfold Do_attempt. rewrite Hh.
  replace ((http.StatusCode resp =? 429) || (500 <=? http.StatusCode resp)) with true;
    [reflexivity|].
  symmetry. apply orb_true_iff.
  destruct Hs as [-> | Hs]; [left; reflexivity | right; apply Z.leb_le; lia].
Qed.

Lemma Do_attempt_retried_status (handler : Handler) ctx req captured w resp w' :
  handler ctx req w = (inl resp, w') ->
  retried_status (http.StatusCode resp) ->
  Do_attempt handler ctx req captured w =
    (Some (EHTTP (NewHTTPError (http.StatusCode resp) (http.Status resp) (http.Body resp))),
     (Some resp,
      Some (EHTTP (NewHTTPError (http.StatusCode resp) (http.Status resp) (http.Body resp)))),
     w').
Proof.
  intros Hh Hs. apply Do_attempt_error_status; [exact Hh|].
  unfold retried_status in Hs. lia.
Qed.

Lemma Do_attempt_other_status (handler : Handler) ctx req captured w resp w' :
  handler ctx req w = (inl resp, w') ->
  http.StatusCode resp <> 429 -> http.StatusCode resp < 500 ->
  Do_attempt handler ctx req captured w = (None, (Some resp, snd captured), w').
Proof.
  intros Hh H429 H500. unfold Do_attempt. rewrite Hh.
  destruct (Z.eqb_spec (http.StatusCode resp) 429); [contradiction|].
  destruct (Z.leb_spec 500 (http.StatusCode resp)); [lia | reflexivity].
Qed.

(** The loop under a context that never finishes, against a handler that
    sends one request per call and always gets status [s] back: it makes
    every iteration that remains. *)
Lemma Retrier_Do_from_retried_status (r : Retrier) (ctx : Context) (handler : Handler)
    (req : http.Request) (s : Z) :
  (forall w, Err ctx w = None) ->
  (forall w d, Done ctx w d = None) ->
  retried_status s ->
  (forall w, exists resp req',
      handler ctx req w = (inl resp, log_sent req' w) /\ http.StatusCode resp = s) ->
  forall (remaining : nat) (attempt : Z) lastErr captured w,
    attempt + Z.of_nat remaining = MaxRetries r + 1 ->
    (0 < remaining)%nat ->
    exists resp w',
      Retrier_Do_from r ctx (Do_attempt handler ctx req) remaining attempt lastErr captured w =
        (Some (EHTTP (NewHTTPError s (http.Status resp) (http.Body resp))),
         (Some resp, Some (EHTTP (NewHTTPError s (http.Status resp) (http.Body resp)))),
         w') /\
      http.StatusCode resp = s /\
      length (sent w') = (length (sent w) + remaining)%nat /\
      length (slept w') = (length (slept w) + (remaining - 1))%nat.
Proof.
  intros Hctx Hdone Hs Hh remaining.
  induction remaining as [|remaining IH]; intros attempt lastErr captured w Hcount Hpos; [lia|].
  simpl. rewrite Hctx.
  destruct (Hh w) as (resp & req' & Hcall & Hstatus).
  rewrite (Do_attempt_retried_status _ _ _ _ _ _ _ Hcall) by (rewrite Hstatus; exact Hs).
  rewrite Hstatus. simpl is_stopRetry. cbv iota.
  unfold ShouldRetry. rewrite (retried_status_IsRetryable _ _ _ Hs). simpl negb. cbv iota.
  destruct (Z.eqb_spec attempt (MaxRetries r)) as [Hlast | Hmore].
  - exists resp, (log_sent req' w). repeat split; try assumption.
    + simpl. rewrite length_app. simpl. lia.
    + simpl. lia.
  - rewrite Hdone.
    destruct (IH (attempt + 1)
                (Some (EHTTP (NewHTTPError s (http.Status resp) (http.Body resp))))
                (Some resp, Some (EHTTP (NewHTTPError s (http.Status resp) (http.Body resp))))
                (log_slept (calculateDelay r attempt (log_sent req' w)) (log_sent req' w)))
      as (resp' & w' & Hrun & Hstatus' & Hsent & Hslept); [lia | lia |].
    exists resp', w'. rewrite Hrun. repeat split; try assumption.
    + rewrite Hsent. simpl. rewrite length_app. simpl. lia.
    + rewrite Hslept. simpl. rewrite length_app. simpl. lia.
Qed.

(** The loop against a handler whose answer depends on how many requests
    were sent before: after [k] answers that are retried, an answer of
    another status below 500 ends the loop at once. *)
Lemma Retrier_Do_from_until_other_status (r : Retrier) (ctx : Context) (handler : Handler)
    (req : http.Request) (status_of : nat -> Z) :
  (forall w, Err ctx w = None) ->
  (forall w d, Done ctx w d = None) ->
  (forall w, exists resp req',
      handler ctx req w = (inl resp, log_sent req' w) /\
      http.StatusCode resp = status_of (length (sent w))) ->
  forall (k remaining : nat) (attempt : Z) lastErr captured w,
    attempt + Z.of_nat remaining = MaxRetries r + 1 ->
    (k < remaining)%nat ->
    (forall j, (j < k)%nat -> retried_status (status_of (length (sent w) + j)%nat)) ->
    status_of (length (sent w) + k)%nat <> 429 ->
    status_of (length (sent w) + k)%nat < 500 ->
    exists resp captured' w',
      Retrier_Do_from r ctx (Do_attempt handler ctx req) remaining attempt lastErr captured w =
        (None, (Some resp, captured'), w') /\
      http.StatusCode resp = status_of (length (sent w) + k)%nat /\
      length (sent w') = (length (sent w) + k + 1)%nat /\
      length (slept w') = (length (slept w) + k)%nat.
Proof.
  intros Hctx Hdone Hh k.
  induction k as [|k IH]; intros remaining attempt lastErr captured w Hcount Hk Hretried
    H429 H500; (destruct remaining as [|remaining]; [lia|]);
    simpl Retrier_Do_from; rewrite Hctx;
    destruct (Hh w) as (resp & req' & Hcall & Hstatus).
  - rewrite Nat.add_0_r in H429, H500.
    rewrite (Do_attempt_other_status _ _ _ _ _ _ _ Hcall) by (rewrite Hstatus; assumption).
    exists resp, (snd captured), (log_sent req' w). rewrite Nat.add_0_r.
    repeat split; [exact Hstatus | | ]; simpl; rewrite ?length_app; simpl; lia.
  - assert (Hs : retried_status (http.StatusCode resp))
      by (rewrite Hstatus; specialize (Hretried 0%nat); rewrite Nat.add_0_r in Hretried;
          apply Hretried; lia).
    rewrite (Do_attempt_retried_status _ _ _ _ _ _ _ Hcall Hs).
    simpl is_stopRetry. cbv iota.
    unfold ShouldRetry. rewrite (retried_status_IsRetryable _ _ _ Hs). simpl negb. cbv iota.
    destruct (Z.eqb_spec attempt (MaxRetries r)) as [Hlast | Hmore]; [lia|].
    rewrite Hdone.
    set (w1 := log_slept (calculateDelay r attempt (log_sent req' w)) (log_sent req' w)).
    assert (Hsent1 : length (sent w1) = S (length (sent w)))
      by (simpl; rewrite length_app; simpl; lia).
    assert (Hslept1 : length (slept w1) = S (length (slept w)))
      by (simpl; rewrite length_app; simpl; lia).
    destruct (IH remaining (attempt + 1)
                (Some (EHTTP (NewHTTPError (http.StatusCode resp) (http.Status resp)
                                (http.Body resp))))
                (Some resp,
                 Some (EHTTP (NewHTTPError (http.StatusCode resp) (http.Status resp)
                                (http.Body resp)))) w1)
      as (resp' & captured' & w' & Hrun & Hstatus' & Hsent & Hslept).
    + lia.
    + lia.
    + intros j Hj. rewrite Hsent1.
      replace (S (length (sent w)) + j)%nat with (length (sent w) + S j)%nat by lia.
      apply Hretried. lia.
    + rewrite Hsent1.
      replace (S (length (sent w)) + k)%nat with (length (sent w) + S k)%nat by lia.
      exact H429.
    + rewrite Hsent1.
      replace (S (length (sent w)) + k)%nat with (length (sent w) + S k)%nat by lia.
      exact H500.
    + exists resp', captured', w'. rewrite Hrun. rewrite Hsent1 in Hstatus', Hsent.
      rewrite Hslept1 in Hslept.
      replace (S (length (sent w)) + k)%nat with (length (sent w) + S k)%nat
        in Hstatus' by lia.
      repeat split; [exact Hstatus' | lia | lia].
Qed.

(** Retrying stops with the first answer that is not retried: when the
    first [k <= MaxRetries] answers have a retried status and the next one
    another status below 500, [Do] returns that response after [k + 1]
    requests and [k] waits. *)
Lemma Do_until_other_status (c : HTTPClient) (ctx : Context) (req : http.Request)
    (status_of : nat -> Z) (k : nat) (w : World) :
  (forall w, Err ctx w = None) ->
  (forall w d, Done ctx w d = None) ->
  (forall w, exists resp req',
      handler_chain c ctx req w = (inl resp, log_sent req' w) /\
      http.StatusCode resp = status_of (length (sent w))) ->
  Z.of_nat k <= MaxRetries (retrier c) ->
  (forall j, (j < k)%nat -> retried_status (status_of (length (sent w) + j)%nat)) ->
  status_of (length (sent w) + k)%nat <> 429 ->
  status_of (length (sent w) + k)%nat < 500 ->
  exists resp w',
    Do c ctx req w = (Some resp, None, w') /\
    http.StatusCode resp = status_of (length (sent w) + k)%nat /\
    length (sent w') = (length (sent w) + k + 1)%nat /\
    length (slept w') = (length (slept w) + k)%nat.
Proof.
  intros Hctx Hdone Hh Hk Hretried H429 H500.
  destruct (Retrier_Do_from_until_other_status (retrier c) ctx (handler_chain c) req
              status_of Hctx Hdone Hh k (Z.to_nat (MaxRetries (retrier c) + 1)) 0 None
              (None, None) w) as (resp & captured' & w' & Hrun & Hstatus & Hsent & Hslept);
    try assumption; try lia.
  exists resp, w'. unfold Do, Retrier_Do. rewrite Hrun.
  repeat split; assumption.
Qed.

(** One exchange that ends in a response of a status below 500 other than
    429: [Do] makes one attempt. *)
Lemma Do_single_attempt (c : HTTPClient) ctx req w resp w' :
  0 <= MaxRetries (retrier c) ->
  Err ctx w = None ->
  handler_chain c ctx req w = (inl resp, w') ->
  http.StatusCode resp <> 429 -> http.StatusCode resp < 500 ->
  Do c ctx req w = (Some resp, None, w').
Proof.
  intros Hmax Hctx Hcall H429 H500. unfold Do, Retrier_Do.
  replace (Z.to_nat (MaxRetries (retrier c) + 1))
    with (S (Z.to_nat (MaxRetries (retrier c)))) by lia.
  simpl. rewrite Hctx.
  rewrite (Do_attempt_other_status _ _ _ _ _ _ _ Hcall) by assumption. reflexivity.
Qed.

(** A status of 600 or more is made an HTTP error, which the classifier does
    not let the loop retry. *)
Lemma Do_status_beyond_5xx (c : HTTPClient) ctx req w resp w' :
  0 <= MaxRetries (retrier c) ->
  Err ctx w = None ->
  handler_chain c ctx req w = (inl resp, w') ->
  600 <= http.StatusCode resp ->
  Do c ctx req w =
    (None,
     Some (EHTTP (NewHTTPError (http.StatusCode resp) (http.Status resp) (http.Body resp))),
     w').
Proof.
  intros Hmax Hctx Hcall Hs. unfold Do, Retrier_Do.
  replace (Z.to_nat (MaxRetries (retrier c) + 1))
    with (S (Z.to_nat (MaxRetries (retrier c)))) by lia.
  simpl. rewrite Hctx.
  rewrite (Do_attempt_error_status _ _ _ _ _ _ _ Hcall) by lia.
  simpl is_stopRetry. cbv iota. unfold ShouldRetry.
  replace (IsRetryable (Some (EHTTP (NewHTTPError (http.StatusCode resp) (http.Status resp)
                                       (http.Body resp))))) with false; [reflexivity|].
  symmetry. apply not_true_is_false. intros Hr.
  apply ErrorsFacts.IsRetryable_iff in Hr as [(h & Has & Hh) | [Has _]]; [|discriminate].
  simpl in Has. injection Has as <-.
  apply ErrorsFacts.HTTPError_IsRetryable_iff in Hh. simpl in Hh. lia.
Qed.

(** C2. Against a server that answers every request with status [s], under
    a context that never finishes and with [MaxRetries >= 0]: if [s] is 429
    or in [500,599], [Do] sends [MaxRetries + 1] requests (the first attempt
    and [MaxRetries] retries, with a wait before each retry) and fails with
    the HTTP error of status [s], which [Post] and [Get] pass on; for every
    other [s] outside [200,299], [Post] and [Get] fail with the HTTP error
    of status [s] after one request and no wait (below 500, [Do] itself
    hands the response back without error). 503 is of the first kind, 404
    of the second. *)
Theorem Do_retries_by_status (c : HTTPClient) (ctx : Context) (req : http.Request)
    (s : Z) (w : World) :
  0 <= MaxRetries (retrier c) ->
  (forall w, Err ctx w = None) ->
  (forall w d, Done ctx w d = None) ->
  (forall w, exists resp req',
      handler_chain c ctx req w = (inl resp, log_sent req' w) /\
      http.StatusCode resp = s /\ http.ReadErr resp = None) ->
  (retried_status s ->
   exists e w',
     Do c ctx req w = (None, Some (EHTTP e), w') /\
     read_response (Do c ctx req w) = (Fail (EHTTP e), w') /\
     StatusCode e = s /\
     length (sent w') = (length (sent w) + Z.to_nat (MaxRetries (retrier c) + 1))%nat /\
     length (slept w') = (length (slept w) + Z.to_nat (MaxRetries (retrier c)))%nat) /\
  (~ retried_status s -> s < 200 \/ 300 <= s ->
   exists e req',
     read_response (Do c ctx req w) = (Fail (EHTTP e), log_sent req' w) /\
     StatusCode e = s) /\
  (~ retried_status s -> s < 500 ->
   exists resp req',
     Do c ctx req w = (Some resp, None, log_sent req' w) /\
     http.StatusCode resp = s).
Proof.
  intros Hmax Hctx Hdone Hserver. split; [|split].
  - intros Hs.
    assert (Hserver' : forall w, exists resp req',
               handler_chain c ctx req w = (inl resp, log_sent req' w) /\
               http.StatusCode resp = s)
      by (intros w0; destruct (Hserver w0) as (resp & req' & ? & ? & ?); eauto).
    destruct (Retrier_Do_from_retried_status (retrier c) ctx (handler_chain c) req s
                Hctx Hdone Hs Hserver' (Z.to_nat (MaxRetries (retrier c) + 1)) 0 None
                (None, None) w) as (resp & w' & Hrun & Hstatus & Hsent & Hslept); [lia | lia |].
    exists (NewHTTPError s (http.Status resp) (http.Body resp)), w'.
    assert (HDo : Do c ctx req w =
                  (None, Some (EHTTP (NewHTTPError s (http.Status resp) (http.Body resp))), w'))
      by (unfold Do, Retrier_Do; rewrite Hrun; reflexivity).
    split; [exact HDo|]. split; [rewrite HDo; reflexivity|]. split; [reflexivity|].
    split; [exact Hsent | rewrite Hslept; lia].
  - intros Hs Hnot2xx. destruct (Hserver w) as (resp & req' & Hcall & Hstatus & Hread).
    exists (NewHTTPError s (http.Status resp) (http.Body resp)), req'.
    split; [|reflexivity].
    destruct (Z.lt_ge_cases s 500) as [Hlow | Hhigh].
    + rewrite (Do_single_attempt c ctx req w resp _ Hmax (Hctx w) Hcall)
        by (unfold retried_status in Hs; lia).
      unfold read_response. rewrite Hread, Hstatus.
      destruct (Z.ltb_spec s 200); [reflexivity|].
      destruct (Z.leb_spec 300 s); [reflexivity | lia].
    + rewrite (Do_status_beyond_5xx c ctx req w resp _ Hmax (Hctx w) Hcall)
        by (unfold retried_status in Hs; lia).
      rewrite Hstatus. reflexivity.
  - intros Hs Hlow. destruct (Hserver w) as (resp & req' & Hcall & Hstatus & Hread).
    exists resp, req'. split; [|exact Hstatus].
    apply Do_single_attempt; try assumption; [apply Hctx | |];
      unfold retried_status in Hs; lia.
Qed.

(** ** JSON-RPC calls *)



(** ** Batch calls *)

Lemma BatchCall_slot_result (responseMap : gmap Z BatchCallResponse) i call results w :
  BatchCall_slot responseMap i call results w =
    (match (slot_result responseMap i call w).1 with
     | Some r => <[i := r]> results
     | None => results
     end, (slot_result responseMap i call w).2).
Proof.
  unfold BatchCall_slot, slot_result.
  destruct (responseMap !! uint64 (Z.of_nat i + 1)) as [resp|]; [|reflexivity].
  destruct (bcr_Error resp); [reflexivity|].
  destruct (call_Result call) as [target|]; [|reflexivity].
  destruct (0 <? Z.of_nat (length (bcr_Result resp))); [|reflexivity].
  destruct (Unmarshal (bcr_Result resp) target w) as [[err|] w']; reflexivity.
Qed.

(** The loop writes slot [i + j] for the [j]-th of its calls and no other
    slot, and threads the world through the iterations in order. *)
Lemma BatchCall_process_spec (responseMap : gmap Z BatchCallResponse) calls :
  forall i results w,
    (i + length calls <= length results)%nat ->
    exists results',
      BatchCall_process responseMap i calls results w =
        (results', world_after responseMap i calls w) /\
      length results' = length results /\
      (forall j, (j < i)%nat -> results' !! j = results !! j) /\
      (forall j call, calls !! j = Some call ->
         results' !! (i + j)%nat =
           match (slot_result responseMap (i + j) call
                    (world_after responseMap i (take j calls) w)).1 with
           | Some r => Some r
           | None => results !! (i + j)%nat
           end).
Proof.
  induction calls as [|call calls IH]; intros i results w Hlen.
  - exists results. simpl. repeat split; try reflexivity. intros j c Hj. discriminate.
  - simpl in Hlen. simpl BatchCall_process. rewrite BatchCall_slot_result.
    set (r := (slot_result responseMap i call w).1).
    set (w1 := (slot_result responseMap i call w).2).
    set (results1 := match r with Some r => <[i := r]> results | None => results end).
    assert (Hlen1 : length results1 = length results)
      by (unfold results1; destruct r; [apply length_insert | reflexivity]).
    destruct (IH (S i) results1 w1) as (results' & Hrun & Hlen' & Hbefore & Hslots);
      [lia|].
    exists results'. split; [exact Hrun|]. split; [lia|]. split.
    + intros j Hj. rewrite Hbefore by lia. unfold results1.
      destruct r; [apply list_lookup_insert_ne; lia | reflexivity].
    + intros [|j] c Hj.
      * simpl in Hj. injection Hj as <-. rewrite Nat.add_0_r. simpl take. simpl world_after.
        rewrite Hbefore by lia. fold r. unfold results1.
        destruct r; [apply list_lookup_insert_eq; lia | reflexivity].
      * simpl in Hj. replace (i + S j)%nat with (S i + j)%nat by lia.
        rewrite (Hslots j c Hj). simpl take. simpl world_after. fold w1.
        destruct (slot_result responseMap (S i + j) c
                    (world_after responseMap (S i) (take j calls) w1)).1; [reflexivity|].
        unfold results1. destruct r; [apply list_lookup_insert_ne; lia | reflexivity].
Qed.

(** What a non-empty batch returns once the exchange and the decoding of
    the response array have succeeded. *)
Lemma BatchCall_results (c : JSONRPCClient) ctx calls w respBody w1 responses :
  calls <> [] ->
  Post (rpc_httpClient c) ctx "" (Batch (batch_requests calls)) w = (Ok respBody, w1) ->
  json_Unmarshal_BatchCallResponses respBody = inl responses ->
  exists results,
    JSONRPCClient_BatchCall c ctx calls w =
      (Ok results, world_before (response_map responses) calls w1 (length calls)) /\
    length results = length calls /\
    (forall i call, calls !! i = Some call ->
       results !! i =
         Some (default {| Error := None; Result := None |}
                 (slot_result (response_map responses) i call
                    (world_before (response_map responses) calls w1 i)).1)).
Proof.
  intros Hne Hpost Hdecode. unfold JSONRPCClient_BatchCall.
  rewrite bool_decide_eq_false_2 by (destruct calls; [contradiction | discriminate]).
  rewrite Hpost, Hdecode.
  destruct (BatchCall_process_spec (response_map responses) calls 0
              (replicate (length calls) {| Error := None; Result := None |}) w1)
    as (results & Hrun & Hlen & _ & Hslots); [rewrite length_replicate; lia|].
  exists results. rewrite Hrun. unfold world_before. rewrite firstn_all.
  split; [reflexivity|]. split; [rewrite Hlen; apply length_replicate|].
  intros i call Hi. specialize (Hslots i call Hi). simpl in Hslots. rewrite Hslots.
  destruct (slot_result _ _ _ _).1; [reflexivity|]. simpl.
  apply lookup_replicate_2. apply lookup_lt_Some in Hi. exact Hi.
Qed.


Lemma uint64_slot_id calls i (call : BatchCall) :
  Z.of_nat (length calls) < 2 ^ 63 ->
  calls !! i = Some call ->
  uint64 (Z.of_nat i + 1) = Z.of_nat i + 1.
Proof.
  intros Hlen Hi. apply lookup_lt_Some in Hi. unfold uint64.
  apply Z.mod_small. lia.
Qed.




Lemma world_after_app (responseMap : gmap Z BatchCallResponse) calls1 calls2 :
  forall i w,
    world_after responseMap i (calls1 ++ calls2) w =
    world_after responseMap (i + length calls1) calls2 (world_after responseMap i calls1 w).
Proof.
  induction calls1 as [|call calls1 IH]; intros i w; simpl.
  - rewrite Nat.add_0_r. reflexivity.
  - rewrite IH. f_equal. lia.
Qed.

Lemma world_before_S (responseMap : gmap Z BatchCallResponse) calls w i call :
  calls !! i = Some call ->
  world_before responseMap calls w (S i) =
  (slot_result responseMap i call (world_before responseMap calls w i)).2.
Proof.
  intros Hi. unfold world_before. rewrite (take_S_r _ _ _ Hi), world_after_app. simpl.
  rewrite length_take_le by (apply lookup_lt_Some in Hi; lia). reflexivity.
Qed.



(** C9. A batch call with no calls ([len(calls) == 0]) returns the empty
    result list and no error, and leaves the world as it was: no request is
    built, marshalled or sent, whatever the client, the context and the
    runtime are. *)
Theorem BatchCall_empty (c : JSONRPCClient) (ctx : Context) (calls : list BatchCall)
    (w : World) :
  length calls = 0%nat ->
  JSONRPCClient_BatchCall c ctx calls w = (Ok [], w) /\
  sent (JSONRPCClient_BatchCall c ctx calls w).2 = sent w.
Proof.
  intros Hlen. destruct calls as [|call calls]; [|discriminate].
  split; reflexivity.
Qed.

(** C10. In a batch whose exchange succeeds and whose response array
    decodes, a slot whose envelope has no error object and an empty result
    payload, or whose call has no target, holds neither an error nor a
    result, and its iteration leaves the world as it was. *)
Theorem BatchCall_slot_left_empty (c : JSONRPCClient) (ctx : Context)
    (calls : list BatchCall) (w : World) (respBody : bytes) (w1 : World)
    (responses : list BatchCallResponse) :
  calls <> [] ->
  Z.of_nat (length calls) < 2 ^ 63 ->
  Post (rpc_httpClient c) ctx "" (Batch (batch_requests calls)) w = (Ok respBody, w1) ->
  json_Unmarshal_BatchCallResponses respBody = inl responses ->
  let responseMap := response_map responses in
  let before := world_before responseMap calls w1 in
  exists results,
    JSONRPCClient_BatchCall c ctx calls w = (Ok results, before (length calls)) /\
    (forall i call resp,
       calls !! i = Some call ->
       responseMap !! (Z.of_nat i + 1) = Some resp ->
       bcr_Error resp = None ->
       bcr_Result resp = [] \/ call_Result call = None ->
       results !! i = Some {| Error := None; Result := None |} /\
       before (S i) = before i).
Proof.
  intros Hne Hlen Hpost Hdecode responseMap before.
  destruct (BatchCall_results c ctx calls w respBody w1 responses Hne Hpost Hdecode)
    as (results & Hrun & Hlength & Hslots).
  exists results. split; [exact Hrun|].
  intros i call resp Hi Hsome Herr Hempty.
  pose proof (uint64_slot_id calls i call Hlen Hi) as Hid.
  pose proof (Hslots i call Hi) as Hslot.
  pose proof (world_before_S responseMap calls w1 i call Hi) as Hnext.
  fold responseMap in Hslot. fold before in Hslot, Hnext.
  unfold slot_result in Hslot, Hnext.
  rewrite Hid, Hsome, Herr in Hslot, Hnext.
  destruct (call_Result call) as [target|]; [|split; assumption].
  destruct Hempty as [Hempty | ?]; [|discriminate].
  rewrite Hempty in Hslot, Hnext. split; assumption.
Qed.

End WithRuntime.

#[local] Existing Instance ClientExamples.test_runtime.



(** C9 on a client whose server would answer. *)
Lemma BatchCall_empty_witness :
  JSONRPCClient_BatchCall ClientExamples.batch_client ClientExamples.background []
    ClientExamples.initial_world = (Ok [], ClientExamples.initial_world).
Proof.
  apply (BatchCall_empty ClientExamples.batch_client ClientExamples.background []
           ClientExamples.initial_world).
  reflexivity.
Defined.


(** C10 on a batch whose envelope for id 1 has neither result nor error. *)
Lemma BatchCall_slot_left_empty_witness :
  exists results w',
    JSONRPCClient_BatchCall ClientExamples.hollow_client ClientExamples.background
      ClientExamples.three_calls ClientExamples.initial_world = (Ok results, w') /\
    results !! 0%nat = Some {| Error := None; Result := None |}.
Proof.
  destruct (BatchCall_slot_left_empty ClientExamples.hollow_client
              ClientExamples.background
              ClientExamples.three_calls ClientExamples.initial_world
              ClientExamples.hollow_body
              (Post (rpc_httpClient ClientExamples.hollow_client) ClientExamples.background ""
                 (Batch (batch_requests ClientExamples.three_calls))
                 ClientExamples.initial_world).2
              (ClientExamples.responses_of ClientExamples.hollow_body))
    as (results & Hrun & Hslots).
  - discriminate.
  - simpl. lia.
  - vm_compute. reflexivity.
  - reflexivity.
  - exists results. eexists. split; [exact Hrun|].
    edestruct (Hslots 0%nat) as [Hslot _];
      [reflexivity | vm_compute; reflexivity | reflexivity | left; reflexivity |].
    exact Hslot.
Defined.

(** C2 at 503 with three retries, and at 404. *)
Lemma Do_retries_by_status_witness :
  (exists e w',
      read_response
        (Do (ClientExamples.test_client (ClientExamples.always 503 []) 3)
           ClientExamples.background ClientExamples.test_request
           ClientExamples.initial_world) = (Fail (EHTTP e), w') /\
      StatusCode e = 503 /\ length (sent w') = 4%nat /\ length (slept w') = 3%nat) /\
  (exists e req',
      read_response
        (Do (ClientExamples.test_client (ClientExamples.always 404 []) 3)
           ClientExamples.background ClientExamples.test_request
           ClientExamples.initial_world) =
        (Fail (EHTTP e), log_sent req' ClientExamples.initial_world) /\
      StatusCode e = 404).
Proof.
  split.
  - destruct (Do_retries_by_status
                (ClientExamples.test_client (ClientExamples.always 503 []) 3)
                ClientExamples.background ClientExamples.test_request 503
                ClientExamples.initial_world) as [Hretry _].
    + simpl. lia.
    + reflexivity.
    + reflexivity.
    + intros w. eexists. exists ClientExamples.test_request. repeat split.
    + destruct Hretry as (e & w' & _ & Hread & Hstatus & Hsent & Hslept);
        [right; lia|].
      exists e, w'. repeat split; assumption.
  - destruct (Do_retries_by_status
                (ClientExamples.test_client (ClientExamples.always 404 []) 3)
                ClientExamples.background ClientExamples.test_request 404
                ClientExamples.initial_world) as (_ & Honce & _).
    + simpl. lia.
    + reflexivity.
    + reflexivity.
    + intros w. eexists. exists ClientExamples.test_request. repeat split.
    + destruct Honce as (e & req' & Hread & Hstatus);
        [unfold retried_status; lia | lia |].
      exists e, req'. split; assumption.
Defined.

End ClientFacts.

(** ** The backoff delay *)

Module BackoffFacts.
Import Client Backoff.

(** *** Mantissas *)











(** *** Integers as floats *)





(** *** Comparison with a cap *)


(** *** The delay *)








End BackoffFacts.

(** ** The pagination iterator *)

Module DataFacts.
Import Errors Data.

Lemma set_PageKey_set_PageKey key key' p :
  set_PageKey key (set_PageKey key' p) = set_PageKey key p.
Proof. reflexivity. Qed.

Lemma HasMore_true r : resp_PageKey r <> "" -> HasMore r = true.
Proof. intros Hkey. unfold HasMore. rewrite bool_decide_eq_false_2; [reflexivity | exact Hkey]. Qed.

Lemma HasMore_false r : resp_PageKey r = "" -> HasMore r = false.
Proof. intros Hkey. unfold HasMore. rewrite bool_decide_eq_true_2; [reflexivity | exact Hkey]. Qed.

(** [Next] in an iterator that holds an error. *)
Lemma Next_stored_error it log e :
  err it = Some e -> Next it log = (Fail e, it, log).
Proof. intros Herr. unfold Next. rewrite Herr. reflexivity. Qed.

(** [Next] in an iterator that is done. *)
Lemma Next_done it log :
  err it = None -> done it = true -> Next it log = (Ok None, it, log).
Proof. intros Herr Hdone. unfold Next. rewrite Herr, Hdone. reflexivity. Qed.

(** [Next] serves the current page by index, without a fetch. *)
Lemma Next_in_page it log cur transfer :
  err it = None -> done it = false -> current it = Some cur ->
  Transfers cur !! index it = Some transfer ->
  Next it log = (Ok (Some transfer), set_index (S (index it)) it, log).
Proof.
  intros Herr Hdone Hcur Hitem. unfold Next. rewrite Herr, Hdone, Hcur. simpl.
  rewrite Hcur, Hitem. reflexivity.
Qed.

(** At the end of a page without next cursor the iteration ends, without a
    fetch. *)
Lemma Next_last_page it log cur :
  err it = None -> done it = false -> current it = Some cur ->
  (length (Transfers cur) <= index it)%nat ->
  resp_PageKey cur = "" ->
  Next it log = (Ok None, set_done true it, log).
Proof.
  intros Herr Hdone Hcur Hindex Hkey. unfold Next. rewrite Herr, Hdone, Hcur. simpl.
  rewrite Hcur, (lookup_ge_None_2 _ _ Hindex), (HasMore_false _ Hkey). reflexivity.
Qed.

(** At the end of a page with a next cursor the next page is fetched, with
    the cursor as page key. *)
Lemma Next_following_page it log cur page :
  err it = None -> done it = false -> current it = Some cur ->
  (length (Transfers cur) <= index it)%nat ->
  resp_PageKey cur <> "" ->
  rpc (client it) log (set_PageKey (resp_PageKey cur) (params it)) = inl page ->
  let it' := set_index 0 (set_current (Some page)
               (set_params (set_PageKey (resp_PageKey cur) (params it)) it)) in
  Next it log =
    (match Transfers page with
     | [] => (Ok None, set_done true it')
     | transfer :: _ => (Ok (Some transfer), set_index 1 it')
     end, log ++ [set_PageKey (resp_PageKey cur) (params it)]).
Proof.
  intros Herr Hdone Hcur Hindex Hkey Hfetch it'. unfold Next.
  rewrite Herr, Hdone, Hcur. simpl.
  rewrite Hcur, (lookup_ge_None_2 _ _ Hindex), (HasMore_true _ Hkey). simpl.
  unfold fetchNext, GetAssetTransfers. simpl. rewrite Hfetch. simpl.
  destruct (Transfers page); reflexivity.
Qed.

(** The first [Next] of an iterator without a page fetches with the
    iterator's parameters. *)
Lemma Next_first_fetch_error it log e :
  err it = None -> done it = false -> current it = None ->
  rpc (client it) log (params it) = inr e ->
  Next it log = (Fail e, set_err (Some e) it, log ++ [params it]).
Proof.
  intros Herr Hdone Hcur Hfetch. unfold Next. rewrite Herr, Hdone, Hcur.
  unfold fetchNext, GetAssetTransfers. rewrite Hfetch. reflexivity.
Qed.

Lemma Next_first_fetch it log page :
  err it = None -> done it = false -> current it = None ->
  rpc (client it) log (params it) = inl page ->
  Next it log = Next (set_index 0 (set_current (Some page) it)) (log ++ [params it]).
Proof.
  intros Herr Hdone Hcur Hfetch. unfold Next at 1. rewrite Herr, Hdone, Hcur.
  unfold fetchNext, GetAssetTransfers. rewrite Hfetch.
  unfold Next. simpl. rewrite Herr, Hdone. reflexivity.
Qed.

(** [Next] keeps the client and, but for the page key, the parameters. *)
Lemma Next_client_params it log :
  client (Next it log).1.2 = client it /\
  set_PageKey "" (params (Next it log).1.2) = set_PageKey "" (params it).
Proof.
  unfold Next, fetchNext, GetAssetTransfers.
  repeat case_match; simplify_eq/=; split; reflexivity.
Qed.

(** An error that [Next] returns is the one the iterator holds from then
    on. *)
Lemma Next_Fail_stored it log e it' log' :
  Next it log = (Fail e, it', log') -> err it' = Some e.
Proof.
  unfold Next, fetchNext, GetAssetTransfers.
  repeat case_match; simplify_eq/=; intros; simplify_eq/=; try reflexivity; assumption.
Qed.

Lemma HasNext_stored_error it e : err it = Some e -> HasNext it = false.
Proof.
  intros Herr. unfold HasNext. rewrite Herr.
  rewrite bool_decide_eq_true_2 by eauto. rewrite orb_true_r. reflexivity.
Qed.

Lemma run_Next_stored_error it log e n :
  err it = Some e -> run (replicate n CallNext) (it, log) = (it, log).
Proof.
  intros Herr. induction n as [|n IH]; [reflexivity|].
  simpl. rewrite (Next_stored_error it log e Herr). exact IH.
Qed.

Lemma run_HasNext st n : run (replicate n CallHasNext) st = st.
Proof. induction n as [|n IH]; [reflexivity | exact IH]. Qed.

(** What the calls of a consumer keep of the iterator they started with. *)
Lemma run_client_params calls :
  forall st,
    client (run calls st).1 = client st.1 /\
    set_PageKey "" (params (run calls st).1) = set_PageKey "" (params st.1).
Proof.
  induction calls as [|c calls IH]; intros [it log]; [split; reflexivity|].
  change (run (c :: calls) (it, log)) with (run calls (exec c (it, log))).
  destruct (IH (exec c (it, log))) as [-> ->]. clear IH.
  destruct c; simpl; try (split; reflexivity).
  pose proof (Next_client_params it log) as Hnext.
  destruct (Next it log) as [[res it'] log']. exact Hnext.
Qed.

(** The first [Next] of an iterator without a page starts with a fetch for
    the iterator's parameters. *)
Lemma Next_without_page it log :
  err it = None -> done it = false -> current it = None ->
  exists res it' rest, Next it log = (res, it', log ++ params it :: rest).
Proof.
  intros Herr Hdone Hcur. unfold Next, fetchNext, GetAssetTransfers.
  rewrite Herr, Hdone, Hcur. simpl.
  repeat case_match; simplify_eq/=;
    rewrite <- ?app_assoc; simpl; eexists _, _, _; reflexivity.
Qed.

Lemma set_PageKey_same p : PageKey p = "" -> set_PageKey "" p = p.
Proof. destruct p. simpl. intros ->. reflexivity. Qed.

(** C7 (counterexample). The specification has [Reset] return the iterator
    to the state it had before its first fetch. An iterator made with the
    page key "k2" starts at the page of that cursor, the transfer [c];
    [Reset] blanks the page key, so the iterator it leaves is not the one
    that was made, and the [Next] after it asks for the page without cursor
    and returns [a]. *)
Lemma Reset_forgets_page_key :
  let p := set_PageKey "k2" NewAssetTransfersParams in
  let it := GetAssetTransfersIterator DataExamples.two_pages p in
  let st := run [CallNext] (it, []) in
  (Next it []).1.1 = Ok (Some (DataExamples.transfer "c")) /\
  st.2 = [p] /\
  Reset st.1 <> it /\
  PageKey (params (Reset st.1)) = "" /\
  (Next (Reset st.1) st.2).1.1 = Ok (Some (DataExamples.transfer "a")) /\
  (Next (Reset st.1) st.2).2 = [p; NewAssetTransfersParams].
Proof.
  intros p it st. split; [reflexivity|]. split; [reflexivity|].
  split; [|split; [reflexivity | split; reflexivity]].
  intros Hsame. apply (f_equal (fun it => PageKey (params it))) in Hsame.
  vm_compute in Hsame. discriminate Hsame.
Qed.

(** C7 (as amended). In any state that calls of [Next], [HasNext], [Error]
    and [Reset] lead a new iterator to: an error that [Next] returns is
    stored, and from then on every [Next] returns that error and leaves
    iterator and fetch log as they are; [Reset] gives the state of a new
    iterator with the same parameters and an empty page key, which is the
    state before the first fetch exactly when the iterator was made with an
    empty page key, and the [Next] after it starts with a fetch for the
    empty page key. *)
Theorem stored_error_and_Reset (c : Client) (p : AssetTransfersParams) (log0 : FetchLog)
    (calls : list call) :
  let st := run calls (GetAssetTransfersIterator c p, log0) in
  (forall e it' log',
      Next st.1 st.2 = (Fail e, it', log') ->
      err it' = Some e /\
      HasNext it' = false /\
      (forall log'', Next it' log'' = (Fail e, it', log'')) /\
      (forall n, run (replicate n CallNext) (it', log') = (it', log'))) /\
  (let it := Reset st.1 in
   current it = None /\ index it = 0%nat /\ done it = false /\ err it = None /\
   PageKey (params it) = "" /\
   it = GetAssetTransfersIterator c (set_PageKey "" p) /\
   (PageKey p = "" <-> it = GetAssetTransfersIterator c p)) /\
  (exists res it' rest,
      Next (Reset st.1) st.2 = (res, it', st.2 ++ set_PageKey "" p :: rest)).
Proof.
  intros st.
  destruct (run_client_params calls (GetAssetTransfersIterator c p, log0))
    as [Hclient Hparams]. fold st in Hclient, Hparams. simpl in Hclient, Hparams.
  assert (Hreset : Reset st.1 = GetAssetTransfersIterator c (set_PageKey "" p))
    by (unfold Reset, GetAssetTransfersIterator; rewrite Hclient, Hparams; reflexivity).
  split; [|split].
  - intros e it' log' Hnext. pose proof (Next_Fail_stored _ _ _ _ _ Hnext) as Herr.
    split; [exact Herr|]. split; [exact (HasNext_stored_error _ _ Herr)|].
    split; [intros log''; exact (Next_stored_error _ _ _ Herr)|].
    intros n. exact (run_Next_stored_error _ _ _ n Herr).
  - cbv zeta. do 5 (split; [reflexivity|]). split; [exact Hreset|]. split.
    + intros Hkey. rewrite Hreset, (set_PageKey_same p Hkey). reflexivity.
    + intros Hsame. rewrite Hreset in Hsame.
      apply (f_equal (fun it => PageKey (params it))) in Hsame. simpl in Hsame.
      symmetry. exact Hsame.
  - rewrite Hreset. apply Next_without_page; reflexivity.
Qed.

(** C7 after two transfers and a failed fetch of the second page: the error
    stays, and after [Reset] the next [Next] asks for the first page. *)
Lemma stored_error_and_Reset_witness :
  let st := run [CallNext; CallNext; CallNext]
              (GetAssetTransfersIterator DataExamples.second_page_fails
                 NewAssetTransfersParams, []) in
  err st.1 = Some (EForeign "connection reset by peer" None) /\
  Next st.1 st.2 = (Fail (EForeign "connection reset by peer" None), st.1, st.2) /\
  Reset st.1 = GetAssetTransfersIterator DataExamples.second_page_fails
                 NewAssetTransfersParams /\
  (Next (Reset st.1) st.2).2 = st.2 ++ [NewAssetTransfersParams].
Proof.
  intros st.
  destruct (stored_error_and_Reset DataExamples.second_page_fails
              NewAssetTransfersParams [] [CallNext; CallNext])
    as (Hsticky & (_ & _ & _ & _ & _ & _ & Hreset) & _).
  destruct (Hsticky (EForeign "connection reset by peer" None) st.1 st.2 eq_refl)
    as (Herr & _ & Hnext & _).
  destruct (stored_error_and_Reset DataExamples.second_page_fails
              NewAssetTransfersParams []
              [CallNext; CallNext; CallNext])
    as (_ & (_ & _ & _ & _ & _ & _ & Hreset') & _).
  split; [exact Herr|]. split; [exact (Hnext st.2)|].
  split; [exact (proj1 Hreset' eq_refl) | reflexivity].
Defined.

(** C8 (counterexample). The specification has the first page fetched by the first
    call of [HasNext] when that comes before [Next]. On a new iterator
    [HasNext] answers true and fetches nothing: afterwards the fetch log is
    empty and the iterator has no page; the [Next] that follows makes the
    first fetch. *)
Lemma HasNext_does_not_fetch_first_page :
  let it := GetAssetTransfersIterator DataExamples.two_pages
              NewAssetTransfersParams in
  HasNext it = true /\
  (run [CallHasNext] (it, [])).2 = [] /\
  current (run [CallHasNext] (it, [])).1 = None /\
  (run [CallHasNext; CallNext] (it, [])).2 = [NewAssetTransfersParams].
Proof. repeat split. Qed.

(** C8 (as amended). Making an iterator fetches nothing: the new iterator
    has no page. [HasNext] on it answers true, and no number of calls of
    [HasNext] changes the iterator or the fetch log. The first page is
    fetched by the first call of [Next], which starts with a fetch for the
    parameters the iterator was made with. *)
Theorem first_page_fetched_by_Next (c : Client) (p : AssetTransfersParams)
    (log : FetchLog) :
  let it := GetAssetTransfersIterator c p in
  current it = None /\
  HasNext it = true /\
  (forall n, run (replicate n CallHasNext) (it, log) = (it, log)) /\
  (exists res it' rest, Next it log = (res, it', log ++ p :: rest)).
Proof.
  intros it. split; [reflexivity|]. split; [reflexivity|].
  split; [intros n; apply run_HasNext|].
  apply (Next_without_page it log); reflexivity.
Qed.

(** C6. Against an endpoint that answers the iterator's first request with
    the page [a, b] and a next cursor [k], and the request for the page at
    [k] with the page [x] and no next cursor, [Collect] of a new iterator
    returns [a, b, x] after two fetches, the second with page key [k]
    (whenever it is allowed the four calls of [Next] it makes). In general,
    at the end of a page without next cursor [Next] ends the iteration
    without a fetch, and when the page fetched for a non-empty cursor is
    empty [Next] ends the iteration too: it returns (nil, nil), the iterator
    is done and holds no error. *)
Theorem Collect_two_pages (c : Client) (p : AssetTransfersParams) (log : FetchLog)
    (a b x : AssetTransfer) (k : string) (fuel : nat) :
  k <> "" ->
  rpc c log p = inl {| resp_PageKey := k; Transfers := [a; b] |} ->
  rpc c (log ++ [p]) (set_PageKey k p) = inl {| resp_PageKey := ""; Transfers := [x] |} ->
  (4 <= fuel)%nat ->
  (exists it',
      Collect fuel (GetAssetTransfersIterator c p) log =
        Some (Ok [a; b; x], it', log ++ [p; set_PageKey k p]) /\
      done it' = true /\ err it' = None) /\
  (forall it log cur,
      err it = None -> done it = false -> current it = Some cur ->
      (length (Transfers cur) <= index it)%nat ->
      resp_PageKey cur = "" ->
      Next it log = (Ok None, set_done true it, log)) /\
  (forall it log cur page,
      err it = None -> done it = false -> current it = Some cur ->
      (length (Transfers cur) <= index it)%nat ->
      resp_PageKey cur <> "" ->
      rpc (client it) log (set_PageKey (resp_PageKey cur) (params it)) = inl page ->
      Transfers page = [] ->
      exists it',
        Next it log = (Ok None, it', log ++ [set_PageKey (resp_PageKey cur) (params it)]) /\
        done it' = true /\ err it' = None /\
        forall log', Next it' log' = (Ok None, it', log')).
Proof.
  intros Hk Hfirst Hsecond Hfuel. split; [|split].
  - do 4 (destruct fuel as [|fuel]; [lia|]). clear Hfuel.
    unfold Collect. cbn [Collect_loop].
    rewrite (Next_first_fetch (GetAssetTransfersIterator c p) log _
               eq_refl eq_refl eq_refl Hfirst).
    erewrite Next_in_page; [ | reflexivity | reflexivity | reflexivity | reflexivity ].
    cbn [Collect_loop].
    erewrite Next_in_page; [ | reflexivity | reflexivity | reflexivity | reflexivity ].
    cbn [Collect_loop].
    erewrite Next_following_page;
      [ | reflexivity | reflexivity | reflexivity | simpl; lia | exact Hk | exact Hsecond ].
    cbn [Collect_loop Transfers].
    erewrite Next_last_page;
      [ | reflexivity | reflexivity | reflexivity | simpl; lia | reflexivity ].
    eexists. split; [simpl; rewrite <- app_assoc; reflexivity | split; reflexivity].
  - intros it log0 cur. apply Next_last_page.
  - intros it log0 cur page Herr Hdone Hcur Hindex Hkey Hfetch Hempty.
    rewrite (Next_following_page it log0 cur page Herr Hdone Hcur Hindex Hkey Hfetch).
    rewrite Hempty. eexists. split; [reflexivity|].
    split; [reflexivity|]. split; [exact Herr|].
    intros log'. apply Next_done; [exact Herr | reflexivity].
Qed.

(** C6 on the endpoint with the pages [a, b] and [c]. *)
Lemma Collect_two_pages_witness :
  exists it',
    Collect 4 (GetAssetTransfersIterator DataExamples.two_pages
                 NewAssetTransfersParams) [] =
      Some (Ok [DataExamples.transfer "a"; DataExamples.transfer "b";
                DataExamples.transfer "c"], it',
            [NewAssetTransfersParams;
             set_PageKey "k2" NewAssetTransfersParams]) /\
    done it' = true /\ err it' = None.
Proof.
  destruct (Collect_two_pages DataExamples.two_pages NewAssetTransfersParams
              [] (DataExamples.transfer "a") (DataExamples.transfer "b")
              (DataExamples.transfer "c") "k2" 4) as [Hcollect _].
  - discriminate.
  - reflexivity.
  - reflexivity.
  - lia.
  - exact Hcollect.
Defined.

End DataFacts.

(** ** Hexadecimal strings *)

Module HexFacts.
Import Stdlib.Strings.Ascii.
Import Hex HexSpec.
#[local] Open Scope char_scope.
#[local] Open Scope string_scope.
#[local] Open Scope Z_scope.

Lemma code_range (c : ascii) : 0 <= code c < 256.
Proof.
  unfold code. pose proof (N_ascii_bounded c) as Hc. lia.
Qed.

Lemma char_code (c : ascii) : char (code c) = c.
Proof. unfold char, code. rewrite N2Z.id. apply ascii_N_embedding. Qed.

Lemma code_char (n : Z) : 0 <= n < 256 -> code (char n) = n.
Proof.
  intros Hn. unfold char, code. rewrite N_ascii_embedding by lia. lia.
Qed.

(** The sixteen digits. *)
Lemma digit_cases (d : Z) :
  0 <= d < 16 ->
  d = 0 \/ d = 1 \/ d = 2 \/ d = 3 \/ d = 4 \/ d = 5 \/ d = 6 \/ d = 7 \/
  d = 8 \/ d = 9 \/ d = 10 \/ d = 11 \/ d = 12 \/ d = 13 \/ d = 14 \/ d = 15.
Proof. lia. Qed.

Ltac each_digit H :=
  apply digit_cases in H;
  repeat (destruct H as [H | H]; [subst |]); subst.

Lemma Has0xPrefix_0x (s : string) : Has0xPrefix ("0x" +:+ s) = true.
Proof. reflexivity. Qed.

Lemma TrimPrefix_0x (s : string) : TrimPrefix ("0x" +:+ s) = s.
Proof. reflexivity. Qed.

(** X1. [AddPrefix] makes a string that has the prefix and changes nothing
    when it is applied again; [TrimPrefix] undoes it on a string without
    prefix, and in general sees no difference between a string and the
    string with the prefix added. *)
Theorem prefix_laws (s : string) :
  Has0xPrefix (AddPrefix s) = true /\
  AddPrefix (AddPrefix s) = AddPrefix s /\
  TrimPrefix (AddPrefix s) = TrimPrefix s /\
  (Has0xPrefix s = false -> TrimPrefix (AddPrefix s) = s) /\
  (Has0xPrefix s = true -> AddPrefix s = s).
Proof.
  unfold AddPrefix, TrimPrefix.
  destruct (Has0xPrefix s) eqn:Hs.
  - rewrite Hs. repeat split; try reflexivity. discriminate.
  - rewrite Has0xPrefix_0x. repeat split; try reflexivity. discriminate.
Qed.

(** *** Numbers *)

Lemma ParseUint_loop_cons (base : Z) (c : ascii) (s : string) (n : Z) :
  ParseUint_loop base (String c s) n =
  match
    (if between "0" "9" c then Some (code c - code "0")
     else if between "a" "z" (lower c) then Some (code (lower c) - code "a" + 10)
     else None)
  with
  | None => (0, Some ErrSyntax)
  | Some d =>
      if base <=? d then (0, Some ErrSyntax)
      else if (2 ^ 64 - 1) / base + 1 <=? n then (2 ^ 64 - 1, Some ErrRange)
      else
        if (((n * base) mod 2 ^ 64 + d) mod 2 ^ 64 <? (n * base) mod 2 ^ 64)
           || (2 ^ 64 - 1 <? ((n * base) mod 2 ^ 64 + d) mod 2 ^ 64)
        then (2 ^ 64 - 1, Some ErrRange)
        else ParseUint_loop base s (((n * base) mod 2 ^ 64 + d) mod 2 ^ 64)
  end.
Proof. reflexivity. Qed.

Lemma ParseUint_digit (d : Z) :
  0 <= d < 16 ->
  (if between "0" "9" (digit_char d) then Some (code (digit_char d) - code "0")
   else if between "a" "z" (lower (digit_char d))
        then Some (code (lower (digit_char d)) - code "a" + 10)
        else None) = Some d.
Proof. intros Hd. each_digit Hd; reflexivity. Qed.

(** One digit more: the loop multiplies by 16 and adds, with no overflow
    below 2^60. *)
Lemma ParseUint_loop_digit (d : Z) (s : string) (n : Z) :
  0 <= d < 16 -> 0 <= n < 2 ^ 60 ->
  ParseUint_loop 16 (String (digit_char d) s) n = ParseUint_loop 16 s (n * 16 + d).
Proof.
  intros Hd Hn. rewrite ParseUint_loop_cons, (ParseUint_digit d Hd).
  change (2 ^ 60) with 1152921504606846976 in Hn.
  change ((2 ^ 64 - 1) / 16 + 1) with 1152921504606846976.
  change (2 ^ 64) with 18446744073709551616.
  destruct (Z.leb_spec 16 d); [lia|].
  destruct (Z.leb_spec 1152921504606846976 n); [lia|].
  rewrite (Z.mod_small (n * 16)) by lia.
  rewrite (Z.mod_small (n * 16 + d)) by lia.
  destruct (Z.ltb_spec (n * 16 + d) (n * 16)); [lia|].
  destruct (Z.ltb_spec (18446744073709551616 - 1) (n * 16 + d)); [lia|].
  reflexivity.
Qed.

Lemma format_digits_ParseUint (fuel : nat) :
  forall n acc,
    0 <= n < 16 ^ Z.of_nat fuel -> n < 2 ^ 64 ->
    ParseUint_loop 16 (format_digits fuel 16 n acc) 0 = ParseUint_loop 16 acc n.
Proof.
  induction fuel as [|fuel IH]; intros n acc Hn H64.
  - simpl in Hn. assert (n = 0) as -> by lia. reflexivity.
  - rewrite Nat2Z.inj_succ, Z.pow_succ_r in Hn by lia.
    cbn [format_digits].
    pose proof (Z.mod_pos_bound n 16 ltac:(lia)) as Hmod.
    pose proof (Z.div_mod n 16 ltac:(lia)) as Hdiv.
    destruct (Z.eqb_spec (n / 16) 0) as [Hzero | Hmore].
    + rewrite ParseUint_loop_digit by (change (2 ^ 60) with 1152921504606846976; lia).
      f_equal. lia.
    + rewrite IH.
      * rewrite ParseUint_loop_digit;
          [f_equal; lia | lia |].
        change (2 ^ 60) with 1152921504606846976.
        change (2 ^ 64) with 18446744073709551616 in H64. lia.
      * split; [apply Z.div_pos; lia | apply Z.div_lt_upper_bound; lia].
      * pose proof (Z.div_pos n 16). lia.
Qed.

Lemma format_digits_nonempty (fuel : nat) (n : Z) (acc : string) :
  exists c rest, format_digits (S fuel) 16 n acc = String c rest.
Proof.
  revert n acc. induction fuel as [|fuel IH]; intros n acc.
  - simpl. destruct (n / 16 =? 0); eauto.
  - cbn [format_digits]. destruct (n / 16 =? 0); [eauto|]. apply IH.
Qed.

Lemma DecodeUint64_EncodeUint64_id (n : Z) :
  0 <= n < 2 ^ 64 ->
  DecodeUint64 (EncodeUint64 n) = (n, None).
Proof.
  intros Hn. unfold EncodeUint64.
  destruct (Z.eqb_spec n 0) as [-> | Hpos]; [reflexivity|].
  unfold DecodeUint64. rewrite TrimPrefix_0x. unfold FormatUint.
  destruct (format_digits_nonempty 63 n "") as (c & rest & Hdigits).
  pose proof (format_digits_ParseUint 64 n "") as Hparse.
  rewrite Hdigits in *. unfold ParseUint. rewrite Hparse; [reflexivity | | lia].
  split; [lia|]. change (16 ^ Z.of_nat 64) with (2 ^ 256).
  assert (2 ^ 64 < 2 ^ 256) by (apply Z.pow_lt_mono_r; lia). lia.
Qed.

(** X2. Decoding the encoding of a uint64 gives the number back, without
    error, and so the encoding tells numbers apart. *)
Theorem uint64_round_trip (n m : Z) :
  0 <= n < 2 ^ 64 -> 0 <= m < 2 ^ 64 ->
  DecodeUint64 (EncodeUint64 n) = (n, None) /\
  (EncodeUint64 n = EncodeUint64 m -> n = m).
Proof.
  intros Hn Hm. split; [apply DecodeUint64_EncodeUint64_id, Hn|].
  intros Heq. pose proof (DecodeUint64_EncodeUint64_id n Hn) as Hdn.
  rewrite Heq, (DecodeUint64_EncodeUint64_id m Hm) in Hdn. congruence.
Qed.

Lemma uint64_round_trip_witness :
  DecodeUint64 (EncodeUint64 18446744073709551615) = (18446744073709551615, None).
Proof. apply (uint64_round_trip 18446744073709551615 0); lia. Defined.

Lemma every_format_digits (test : ascii -> bool) (fuel : nat) :
  (forall d, 0 <= d < 16 -> test (digit_char d) = true) ->
  forall n acc, every test acc = true -> every test (format_digits fuel 16 n acc) = true.
Proof.
  intros Htest. induction fuel as [|fuel IH]; intros n acc Hacc; [exact Hacc|].
  cbn [format_digits].
  assert (Hacc' : every test (String (digit_char (n mod 16)) acc) = true).
  { simpl. rewrite Htest by (apply Z.mod_pos_bound; lia). exact Hacc. }
  destruct (n / 16 =? 0); [exact Hacc' | apply IH, Hacc'].
Qed.

(** On an ASCII string a [range] loop yields the bytes. *)
Lemma runes_ascii (s : string) :
  ascii_only s = true -> runes s = List.map code (String.list_ascii_of_string s).
Proof.
  unfold runes. induction s as [|c s IH]; intros Hs; [reflexivity|].
  simpl in Hs. apply andb_true_iff in Hs as [Hc Hs].
  cbn [String.length runes_from]. unfold decode_rune. rewrite Hc.
  cbn [Nat.sub string_drop String.list_ascii_of_string List.map]. rewrite (IH Hs). reflexivity.
Qed.

Lemma byte_of_rune_code (c : ascii) : byte_of_rune (code c) = c.
Proof.
  unfold byte_of_rune. rewrite Z.mod_small by apply code_range. apply char_code.
Qed.

Lemma all_hex_digits_ascii (s : string) :
  ascii_only s = true -> all_hex_digits s = every isHexDigit s.
Proof.
  intros Hs. unfold all_hex_digits. rewrite (runes_ascii s Hs). clear Hs.
  induction s as [|c s IH]; [reflexivity|].
  simpl. rewrite byte_of_rune_code, IH. reflexivity.
Qed.

Lemma every_and (p q : ascii -> bool) (s : string) :
  every (fun c => p c && q c) s = every p s && every q s.
Proof.
  induction s as [|c s IH]; [reflexivity|]. simpl. rewrite IH.
  destruct (p c), (q c), (every p s), (every q s); reflexivity.
Qed.

(** A number below 16^k has at most k digits (one, if k is 0). *)
Lemma length_format_digits (fuel : nat) :
  forall (k : nat) n acc,
    (1 <= k)%nat -> 0 <= n < 16 ^ Z.of_nat k ->
    (String.length (format_digits fuel 16 n acc) <= String.length acc + k)%nat.
Proof.
  induction fuel as [|fuel IH]; intros k n acc Hk Hn; [simpl; lia|].
  cbn [format_digits].
  destruct (Z.eqb_spec (n / 16) 0) as [Hzero | Hmore]; [simpl; lia|].
  destruct k as [|[|k]]; [lia | |].
  - exfalso. apply Hmore. apply Z.div_small. simpl in Hn. lia.
  - specialize (IH (S k) (n / 16) (String (digit_char (n mod 16)) acc) ltac:(lia)).
    simpl String.length in IH. rewrite Nat2Z.inj_succ, Z.pow_succ_r in Hn by lia.
    assert (0 <= n / 16 < 16 ^ Z.of_nat (S k))
      by (split; [apply Z.div_pos; lia | apply Z.div_lt_upper_bound; lia]).
    specialize (IH ltac:(assumption)). lia.
Qed.

(** X3. The encoding of a uint64 passes [IsValidHex]; it is ASCII, and it
    is too short to pass for an address or a hash. *)
Theorem EncodeUint64_valid (n : Z) :
  0 <= n < 2 ^ 64 ->
  IsValidHex (EncodeUint64 n) = true /\
  ascii_only (EncodeUint64 n) = true /\
  IsValidAddress (EncodeUint64 n) = false /\
  IsValidHash (EncodeUint64 n) = false.
Proof.
  intros Hn. unfold EncodeUint64.
  destruct (Z.eqb_spec n 0) as [-> | Hpos]; [repeat split; reflexivity|].
  assert (Hboth : every (fun c => (code c <? 128) && isHexDigit c) (FormatUint n 16) = true).
  { unfold FormatUint. apply every_format_digits; [|reflexivity].
    intros d Hd. each_digit Hd; reflexivity. }
  rewrite every_and in Hboth. apply andb_true_iff in Hboth as [Hascii Hhex].
  destruct (format_digits_nonempty 63 n "") as (c & rest & Hdigits).
  fold (FormatUint n 16) in Hdigits.
  assert (Hlen : (String.length (FormatUint n 16) <= 16)%nat).
  { apply (length_format_digits 64 16 n ""); [lia|].
    change (16 ^ Z.of_nat 16) with (2 ^ 64). lia. }
  unfold IsValidHex, IsValidAddress, IsValidHash, ascii_only.
  rewrite Has0xPrefix_0x. change (drop2 ("0x" +:+ FormatUint n 16)) with (FormatUint n 16).
  cbn [negb]. cbn [every String.append]. fold (ascii_only (FormatUint n 16)).
  repeat split.
  - rewrite Hdigits. cbn [String.length Nat.eqb]. rewrite <- Hdigits.
    rewrite all_hex_digits_ascii by exact Hascii. exact Hhex.
  - exact Hascii.
  - destruct (Nat.eqb_spec (String.length (FormatUint n 16)) 40); [lia | reflexivity].
  - destruct (Nat.eqb_spec (String.length (FormatUint n 16)) 64); [lia | reflexivity].
Qed.

Lemma EncodeUint64_valid_witness : IsValidHex (EncodeUint64 255) = true.
Proof. apply (EncodeUint64_valid 255). lia. Defined.

(** X4. A string that passes for an address, or for a hash, passes
    [IsValidHex]; an address has 42 bytes and a hash 66, so no string is
    both. *)
Theorem IsValidAddress_IsValidHash (s : string) :
  (IsValidAddress s = true -> IsValidHex s = true /\ String.length s = 42%nat) /\
  (IsValidHash s = true -> IsValidHex s = true /\ String.length s = 66%nat) /\
  (IsValidAddress s = true -> IsValidHash s = false).
Proof.
  unfold IsValidAddress, IsValidHash, IsValidHex.
  destruct (Has0xPrefix s) eqn:Hprefix; cbn [negb]; [|repeat split; discriminate].
  assert (Hlen : String.length s = S (S (String.length (drop2 s)))).
  { destruct s as [|c0 [|c1 s]]; try discriminate. reflexivity. }
  split; [|split].
  - destruct (Nat.eqb_spec (String.length (drop2 s)) 40) as [H40 | ?]; [|discriminate].
    cbn [negb]. intros Hhex. rewrite H40. cbn [Nat.eqb]. split; [exact Hhex | lia].
  - destruct (Nat.eqb_spec (String.length (drop2 s)) 64) as [H64 | ?]; [|discriminate].
    cbn [negb]. intros Hhex. rewrite H64. cbn [Nat.eqb]. split; [exact Hhex | lia].
  - destruct (Nat.eqb_spec (String.length (drop2 s)) 40) as [H40 | ?]; [|discriminate].
    intros _. rewrite H40. reflexivity.
Qed.

Lemma IsValidAddress_IsValidHash_witness :
  IsValidHex "0xd8da6bf26964af9d7eed9e03e53415d37aa96045" = true /\
  IsValidHash "0xd8da6bf26964af9d7eed9e03e53415d37aa96045" = false.
Proof.
  destruct (IsValidAddress_IsValidHash "0xd8da6bf26964af9d7eed9e03e53415d37aa96045")
    as (Haddr & _ & Hnot).
  split; [apply Haddr | apply Hnot]; reflexivity.
Defined.

(** *** Bytes *)

Lemma DecodeString_byte (x : Byte.byte) (s : string) :
  DecodeString (String (digit_char (Z.of_N (Byte.to_N x) / 16))
                  (String (digit_char (Z.of_N (Byte.to_N x) mod 16)) s)) =
  let '(rest, err) := DecodeString s in (x :: rest, err).
Proof. destruct x; reflexivity. Qed.

Lemma DecodeString_EncodeToString (b : bytes) :
  DecodeString (EncodeToString b) = (b, None).
Proof.
  induction b as [|x b IH]; [reflexivity|].
  cbn [EncodeToString]. rewrite DecodeString_byte, IH. reflexivity.
Qed.

Lemma length_EncodeToString (b : bytes) :
  String.length (EncodeToString b) = (2 * length b)%nat.
Proof.
  induction b as [|x b IH]; [reflexivity|].
  cbn [EncodeToString String.length length]. rewrite IH. lia.
Qed.

Lemma Decode_Encode_id (b : bytes) : Decode (Encode b) = (b, None).
Proof.
  unfold Decode, Encode. rewrite TrimPrefix_0x, length_EncodeToString.
  replace (Nat.odd (2 * length b)) with false.
  - apply DecodeString_EncodeToString.
  - symmetry. rewrite <- Nat.negb_even. rewrite Nat.even_mul. reflexivity.
Qed.

(** X5. Decoding the encoding of a byte slice gives the bytes back, without
    error, with or without the prefix; the encoding has two digits per byte
    after the prefix. *)
Theorem bytes_round_trip (b : bytes) :
  Decode (Encode b) = (b, None) /\
  Decode (EncodeToString b) = (b, None) /\
  String.length (Encode b) = (2 + 2 * length b)%nat.
Proof.
  split; [apply Decode_Encode_id|]. split.
  - pose proof (Decode_Encode_id b) as Hid. unfold Decode, Encode in *.
    rewrite TrimPrefix_0x in Hid. unfold TrimPrefix.
    destruct (Has0xPrefix (EncodeToString b)) eqn:Hprefix; [|exact Hid].
    destruct b as [|x b]; [discriminate Hprefix|]. exfalso.
    cbn [EncodeToString Has0xPrefix] in Hprefix.
    apply andb_true_iff in Hprefix as [_ Hx].
    assert (Hdigit : 0 <= Z.of_N (Byte.to_N x) mod 16 < 16)
      by (apply Z.mod_pos_bound; lia).
    revert Hx. generalize dependent (Z.of_N (Byte.to_N x) mod 16).
    intros d Hd. each_digit Hd; discriminate.
  - unfold Encode.
    change (String.length ("0x" +:+ EncodeToString b))
      with (S (S (String.length (EncodeToString b)))).
    rewrite length_EncodeToString. reflexivity.
Qed.

(** *** Big integers *)

Lemma scan16_digit (d : Z) (s : string) (n : Z) :
  0 <= d < 16 -> scan16 (String (digit_char d) s) n = scan16 s (n * 16 + d).
Proof. intros Hd. each_digit Hd; reflexivity. Qed.

Lemma format_digits_scan16 (fuel : nat) :
  forall n acc,
    0 <= n < 16 ^ Z.of_nat fuel ->
    scan16 (format_digits fuel 16 n acc) 0 = scan16 acc n.
Proof.
  induction fuel as [|fuel IH]; intros n acc Hn.
  - simpl in Hn. assert (n = 0) as -> by lia. reflexivity.
  - rewrite Nat2Z.inj_succ, Z.pow_succ_r in Hn by lia.
    cbn [format_digits].
    pose proof (Z.mod_pos_bound n 16 ltac:(lia)) as Hmod.
    pose proof (Z.div_mod n 16 ltac:(lia)) as Hdiv.
    destruct (Z.eqb_spec (n / 16) 0) as [Hzero | Hmore].
    + rewrite scan16_digit by lia. f_equal. lia.
    + rewrite IH by (split; [apply Z.div_pos; lia | apply Z.div_lt_upper_bound; lia]).
      rewrite scan16_digit by lia. f_equal. lia.
Qed.

Lemma format_digits_head (fuel : nat) (n : Z) (acc : string) :
  exists d rest, 0 <= d < 16 /\ format_digits (S fuel) 16 n acc = String (digit_char d) rest.
Proof.
  revert n acc. induction fuel as [|fuel IH]; intros n acc.
  - simpl. exists (n mod 16). destruct (n / 16 =? 0); eexists;
      (split; [apply Z.mod_pos_bound; lia | reflexivity]).
  - cbn [format_digits]. destruct (n / 16 =? 0); [|apply IH].
    exists (n mod 16). eexists. split; [apply Z.mod_pos_bound; lia | reflexivity].
Qed.

Lemma Text16_abs_scan16 (n : Z) :
  0 < n ->
  scan16 (Text16_abs n) 0 = Some n /\
  exists d rest, 0 <= d < 16 /\ Text16_abs n = String (digit_char d) rest.
Proof.
  intros Hn. unfold Text16_abs. split; [|apply format_digits_head].
  rewrite format_digits_scan16; [reflexivity|].
  split; [lia|]. rewrite Nat2Z.inj_succ, Z2Nat.id by apply Z.log2_nonneg.
  pose proof (Z.log2_spec n Hn) as [_ Hlt].
  assert (2 ^ Z.succ (Z.log2 n) <= 16 ^ Z.succ (Z.log2 n));
    [apply Z.pow_le_mono_l; lia | lia].
Qed.

Lemma SetString16_digits (d : Z) (rest : string) (n : Z) :
  0 <= d < 16 ->
  scan16 (String (digit_char d) rest) 0 = Some n ->
  SetString16 (String (digit_char d) rest) = Some n.
Proof.
  intros Hd Hscan. unfold SetString16.
  each_digit Hd;
    match type of Hscan with
    | context [digit_char ?d] =>
        let c := eval vm_compute in (digit_char d) in
        change (digit_char d) with c in *
    end;
    cbv beta iota; rewrite Hscan; reflexivity.
Qed.

Lemma DecodeBigInt_digits (digits : string) (n : Z) :
  n <> 0 ->
  scan16 digits 0 = Some n ->
  (exists d rest, 0 <= d < 16 /\ digits = String (digit_char d) rest) ->
  DecodeBigInt ("0x" +:+ digits) = inl n /\
  DecodeBigInt ("-0x" +:+ digits) = inl (- n).
Proof.
  intros Hn Hscan (d & rest & Hd & ->).
  pose proof (SetString16_digits d rest n Hd Hscan) as Hset.
  assert (Hnot0 : String (digit_char d) rest <> "0").
  { intros Heq. rewrite Heq in Hscan. vm_compute in Hscan. injection Hscan as <-.
    apply Hn. reflexivity. }
  assert (Hpos0 : "0x" +:+ String (digit_char d) rest <> "0x0")
    by (intros Heq; injection Heq as Hc Hrest; apply Hnot0; rewrite Hc, Hrest; reflexivity).
  unfold DecodeBigInt. split.
  - rewrite (bool_decide_eq_false_2 (_ = "")) by discriminate.
    rewrite (bool_decide_eq_false_2 (_ = "0x")) by discriminate.
    rewrite (bool_decide_eq_false_2 (_ = "0x0")) by exact Hpos0.
    cbn [orb].
    change ("0x" +:+ String (digit_char d) rest)
      with (String "0" (String "x" (String (digit_char d) rest))).
    cbv beta iota zeta.
    change (TrimPrefix (String "0" (String "x" (String (digit_char d) rest))))
      with (String (digit_char d) rest).
    rewrite Hset. reflexivity.
  - rewrite (bool_decide_eq_false_2 (_ = "")) by discriminate.
    rewrite (bool_decide_eq_false_2 (_ = "0x")) by discriminate.
    rewrite (bool_decide_eq_false_2 (_ = "0x0")) by discriminate.
    cbn [orb].
    change ("-0x" +:+ String (digit_char d) rest)
      with (String "-" (String "0" (String "x" (String (digit_char d) rest)))).
    cbv beta iota zeta.
    change (TrimPrefix (String "0" (String "x" (String (digit_char d) rest))))
      with (String (digit_char d) rest).
    rewrite Hset. reflexivity.
Qed.

Lemma DecodeBigInt_EncodeBigInt_id (n : Z) :
  DecodeBigInt (EncodeBigInt (Some n)) = inl n.
Proof.
  unfold EncodeBigInt, Text16.
  destruct (Z.eqb_spec n 0) as [-> | Hnz]; [reflexivity|].
  destruct (Z.ltb_spec n 0) as [Hneg | Hpos].
  - destruct (Text16_abs_scan16 (- n) ltac:(lia)) as [Hscan Hhead].
    change (drop1 ("-" +:+ Text16_abs (- n))) with (Text16_abs (- n)).
    destruct (DecodeBigInt_digits (Text16_abs (- n)) (- n) ltac:(lia) Hscan Hhead)
      as [_ Hdecode].
    rewrite Hdecode. f_equal. lia.
  - destruct (Text16_abs_scan16 n ltac:(lia)) as [Hscan Hhead].
    destruct (DecodeBigInt_digits (Text16_abs n) n Hnz Hscan Hhead) as [Hdecode _].
    exact Hdecode.
Qed.

(** X6. Decoding the encoding of an integer of any size and sign gives the
    integer back, so the encoding tells integers apart; the nil pointer is
    encoded as zero is. *)
Theorem bigint_round_trip (n m : Z) :
  DecodeBigInt (EncodeBigInt (Some n)) = inl n /\
  (EncodeBigInt (Some n) = EncodeBigInt (Some m) -> n = m) /\
  EncodeBigInt None = EncodeBigInt (Some 0).
Proof.
  split; [apply DecodeBigInt_EncodeBigInt_id|]. split; [|reflexivity].
  intros Heq. pose proof (DecodeBigInt_EncodeBigInt_id n) as Hdn.
  rewrite Heq, DecodeBigInt_EncodeBigInt_id in Hdn. congruence.
Qed.

(** *** What a failed decoding returns *)

Lemma ParseUint_loop_result (s : string) :
  forall n v err,
    0 <= n < 2 ^ 64 ->
    ParseUint_loop 16 s n = (v, err) ->
    match err with
    | None => 0 <= v < 2 ^ 64
    | Some ErrSyntax => v = 0
    | Some ErrRange => v = 2 ^ 64 - 1
    end.
Proof.
  induction s as [|c s IH]; intros n v err Hn Hrun.
  - simpl in Hrun. injection Hrun as <- <-. exact Hn.
  - rewrite ParseUint_loop_cons in Hrun.
    destruct (if between "0" "9" c then _ else _) as [d|];
      [|injection Hrun as <- <-; reflexivity].
    destruct (16 <=? d); [injection Hrun as <- <-; reflexivity|].
    destruct ((2 ^ 64 - 1) / 16 + 1 <=? n); [injection Hrun as <- <-; reflexivity|].
    destruct (_ || _); [injection Hrun as <- <-; reflexivity|].
    apply (IH _ _ _ (Z.mod_pos_bound _ (2 ^ 64) ltac:(lia)) Hrun).
Qed.

(** X7. [DecodeUint64] returns a uint64; with a syntax error it returns 0
    and with a range error 2^64 - 1, which is what a caller that drops the
    error, as [Quantity.Uint64] does, goes on with. The empty string and the
    bare prefix decode to 0 without error. *)
Theorem DecodeUint64_result (s : string) :
  match (DecodeUint64 s).2 with
  | None => 0 <= (DecodeUint64 s).1 < 2 ^ 64
  | Some ErrSyntax => (DecodeUint64 s).1 = 0
  | Some ErrRange => (DecodeUint64 s).1 = 2 ^ 64 - 1
  end /\
  Types.Quantity_Uint64 s = (DecodeUint64 s).1 /\
  DecodeUint64 "" = (0, None) /\ DecodeUint64 "0x" = (0, None).
Proof.
  split; [|repeat split].
  unfold DecodeUint64. destruct (TrimPrefix s) as [|c digits] eqn:Hs; [simpl; lia|].
  unfold ParseUint.
  destruct (ParseUint_loop 16 (String c digits) 0) as [v err] eqn:Hrun.
  apply (ParseUint_loop_result _ 0 v err ltac:(lia) Hrun).
Qed.

End HexFacts.

(** ** Quantities, block numbers and log filters *)

Module NodeFacts.
Import Hex Types Node NodeSpec.

Lemma EncodeUint64_prefix (n : Z) : exists digits, EncodeUint64 n = "0x" +:+ digits.
Proof. unfold EncodeUint64. destruct (n =? 0); eauto. Qed.

(** X8. A block number made from a uint64 is no tag and reads back as that
    number; every tag reads as 0. *)
Theorem BlockNumber_Uint64 (n : Z) (b : string) :
  0 <= n < 2 ^ 64 ->
  IsTag (BlockNumber n) = false /\
  Uint64 (BlockNumber n) = n /\
  (IsTag b = true -> Uint64 b = 0).
Proof.
  intros Hn.
  assert (Htag : IsTag (BlockNumber n) = false).
  { unfold BlockNumber. destruct (EncodeUint64_prefix n) as [digits ->].
    unfold IsTag. rewrite !bool_decide_eq_false_2 by discriminate. reflexivity. }
  split; [exact Htag|]. split.
  - unfold Uint64. rewrite Htag. unfold BlockNumber.
    rewrite (HexFacts.DecodeUint64_EncodeUint64_id n Hn). reflexivity.
  - intros Hb. unfold Uint64. rewrite Hb. reflexivity.
Qed.

Lemma BlockNumber_Uint64_witness : Uint64 (BlockNumber 19000000) = 19000000.
Proof. apply (BlockNumber_Uint64 19000000 ""). lia. Defined.

(** X9. Quantities and data read back what they were made from: a uint64,
    an integer of any size, a byte slice. A quantity made from a uint64 is
    zero exactly when the number is. *)
Theorem Quantity_Data_round_trip (n : Z) (z : Z) (b : bytes) :
  0 <= n < 2 ^ 64 ->
  Quantity_Uint64 (QuantityFromUint64 n) = n /\
  Quantity_BigInt (QuantityFromBigInt (Some z)) = z /\
  Quantity_BigInt (QuantityFromBigInt None) = 0 /\
  Data_Bytes (DataFromBytes b) = b /\
  (Quantity_IsZero (QuantityFromUint64 n) = true <-> n = 0).
Proof.
  intros Hn.
  assert (Hround : Quantity_Uint64 (QuantityFromUint64 n) = n)
    by (unfold Quantity_Uint64, QuantityFromUint64;
        rewrite (HexFacts.DecodeUint64_EncodeUint64_id n Hn); reflexivity).
  split; [exact Hround|]. split.
  { unfold Quantity_BigInt, QuantityFromBigInt.
    rewrite HexFacts.DecodeBigInt_EncodeBigInt_id. reflexivity. }
  split; [reflexivity|]. split.
  { unfold Data_Bytes, DataFromBytes. rewrite HexFacts.Decode_Encode_id. reflexivity. }
  split; [|intros ->; reflexivity].
  unfold Quantity_IsZero. intros Hzero. rewrite <- Hround.
  apply orb_true_iff in Hzero as [Hzero | Hzero];
    [apply orb_true_iff in Hzero as [Hzero | Hzero]|];
    apply bool_decide_eq_true_1 in Hzero; rewrite Hzero; reflexivity.
Qed.

Lemma Quantity_Data_round_trip_witness :
  Quantity_Uint64 (QuantityFromUint64 1000000) = 1000000.
Proof. apply (Quantity_Data_round_trip 1000000 0 []). lia. Defined.

(** *** Log filters *)

Lemma set_at_lookup (i : nat) (v : Topic) (topics : list Topic) (j : nat) :
  set_at i v topics !! j =
  if decide (j = i) then Some v
  else if decide (j < length topics)%nat then topics !! j
  else if decide (j < S i)%nat then Some TopicNil
  else None.
Proof.
  unfold set_at.
  destruct (Nat.ltb_spec (length topics) (S i)) as [Hshort | Hlong].
  - destruct (decide (j = i)) as [-> | Hne].
    + apply list_lookup_insert_eq. rewrite length_app, length_replicate. lia.
    + rewrite list_lookup_insert_ne by congruence.
      destruct (decide (j < length topics)%nat) as [Hj | Hj].
      * apply lookup_app_l. exact Hj.
      * rewrite lookup_app_r by lia.
        destruct (decide (j < S i)%nat) as [Hj' | Hj'].
        -- apply lookup_replicate_2. lia.
        -- apply lookup_ge_None_2. rewrite length_replicate. lia.
  - destruct (decide (j = i)) as [-> | Hne].
    + apply list_lookup_insert_eq. lia.
    + rewrite list_lookup_insert_ne by congruence.
      destruct (decide (j < length topics)%nat) as [Hj | Hj]; [reflexivity|].
      destruct (decide (j < S i)%nat); [lia|]. apply lookup_ge_None_2. lia.
Qed.

Lemma length_set_at (i : nat) (v : Topic) (topics : list Topic) :
  length (set_at i v topics) = Nat.max (length topics) (S i).
Proof.
  unfold set_at. rewrite length_insert.
  destruct (Nat.ltb_spec (length topics) (S i));
    [rewrite length_app, length_replicate|]; lia.
Qed.

Lemma SetTopic_set_at (i : nat) (topic : string) (f : LogFilter) :
  (i <= 3)%nat ->
  SetTopic i topic f = set_Topics (set_at i (TopicString topic) (Topics f)) f.
Proof.
  intros Hi. destruct i as [|[|[|[|i]]]]; [| | | |lia];
    unfold SetTopic, SetTopic0, SetTopic1, SetTopic2, SetTopic3, ensureTopics, set_at;
    destruct (length (Topics f) <? _)%nat; reflexivity.
Qed.

(** X10. A topic setter grows the topics to reach its position, the new
    positions in between being nil, sets its position and leaves the others
    as they were; setters of different positions can be applied in either
    order. *)
Theorem SetTopic_positions (i j : nat) (a b : string) (f : LogFilter) :
  (i <= 3)%nat -> (j <= 3)%nat ->
  Topics (SetTopic i a f) !! i = Some (TopicString a) /\
  length (Topics (SetTopic i a f)) = Nat.max (length (Topics f)) (S i) /\
  (forall k, k <> i ->
     Topics (SetTopic i a f) !! k =
       if decide (k < length (Topics f))%nat then Topics f !! k
       else if decide (k < i)%nat then Some TopicNil else None) /\
  (i <> j -> SetTopic i a (SetTopic j b f) = SetTopic j b (SetTopic i a f)).
Proof.
  intros Hi Hj. rewrite (SetTopic_set_at i a f Hi). cbn [Topics set_Topics].
  split; [|split; [|split]].
  - rewrite set_at_lookup. rewrite decide_True by reflexivity. reflexivity.
  - apply length_set_at.
  - intros k Hk. rewrite set_at_lookup. rewrite decide_False by exact Hk.
    destruct (decide (k < length (Topics f))%nat); [reflexivity|].
    destruct (decide (k < S i)%nat), (decide (k < i)%nat); try reflexivity; lia.
  - intros Hne. rewrite (SetTopic_set_at j b f Hj).
    rewrite (SetTopic_set_at i a _ Hi), (SetTopic_set_at j b _ Hj).
    unfold set_Topics. cbn [Topics FromBlock ToBlock Address BlockHash]. f_equal.
    apply list_eq. intros k. rewrite !set_at_lookup, !length_set_at.
    repeat case_decide; try reflexivity; try lia; subst; try lia.
Qed.

Lemma SetTopic_positions_witness :
  Topics (SetTopic 2 "0xddf2" NewLogFilter) =
    [TopicNil; TopicNil; TopicString "0xddf2"] /\
  SetTopic 0 "0xa" (SetTopic 3 "0xb" NewLogFilter) =
    SetTopic 3 "0xb" (SetTopic 0 "0xa" NewLogFilter).
Proof.
  destruct (SetTopic_positions 0 3 "0xa" "0xb" NewLogFilter) as (_ & _ & _ & Hcomm);
    [lia | lia |].
  split; [reflexivity | apply Hcomm; lia].
Defined.

End NodeFacts.

(** ** The other classifiers of package errors *)

Module ErrorClassFacts.
Import Errors ErrorsSpec.

Lemma As_HTTPError_root : forall err, As_HTTPError err = As_HTTPError (root err).
Proof.
  fix IH 1. intros [s|h|j|a|c m [cause|]|e|m [cause|]]; try reflexivity; exact (IH cause).
Qed.

Lemma As_APIError_root : forall err, As_APIError err = As_APIError (root err).
Proof.
  fix IH 1. intros [s|h|j|a|c m [cause|]|e|m [cause|]]; try reflexivity; exact (IH cause).
Qed.

Lemma Is_root : forall err target, Is err target = Is (root err) target.
Proof.
  fix IH 1. intros [s|h|j|a|c m [cause|]|e|m [cause|]] target; try reflexivity;
    exact (IH cause target).
Qed.

Lemma root_root : forall err, root (root err) = root err.
Proof.
  fix IH 1. intros [s|h|j|a|c m [cause|]|e|m [cause|]]; try reflexivity; exact (IH cause).
Qed.

(** X11. The three classifiers look at the last error of the [Unwrap]
    chain only: wrapping an error, any number of times, changes none of
    their answers. The stopRetry wrapper has no [Unwrap]: what it holds is
    hidden from them. *)
Theorem classifiers_by_root (err : error) (code message : string) :
  IsRetryable (Some err) = IsRetryable (Some (root err)) /\
  IsAuthError (Some err) = IsAuthError (Some (root err)) /\
  IsRateLimitError (Some err) = IsRateLimitError (Some (root err)) /\
  root (Wrap (Some err) code message) = root err /\
  IsRetryable (Some (Wrap (Some err) code message)) = IsRetryable (Some err) /\
  IsAuthError (Some (Wrap (Some err) code message)) = IsAuthError (Some err) /\
  IsRateLimitError (Some (Wrap (Some err) code message)) = IsRateLimitError (Some err) /\
  IsRetryable (Some (EStopRetry err)) = false /\
  IsAuthError (Some (EStopRetry err)) = false /\
  IsRateLimitError (Some (EStopRetry err)) = false.
Proof.
  assert (Hretry : IsRetryable (Some err) = IsRetryable (Some (root err))).
  { unfold IsRetryable. rewrite <- As_HTTPError_root, <- !Is_root. reflexivity. }
  assert (Hauth : IsAuthError (Some err) = IsAuthError (Some (root err))).
  { unfold IsAuthError.
    rewrite <- As_HTTPError_root, <- As_APIError_root, <- !Is_root. reflexivity. }
  assert (Hrate : IsRateLimitError (Some err) = IsRateLimitError (Some (root err))).
  { unfold IsRateLimitError.
    rewrite <- As_HTTPError_root, <- As_APIError_root, <- !Is_root. reflexivity. }
  repeat (split; [first [assumption | reflexivity]|]). reflexivity.
Qed.

Lemma HTTPError_auth_not_retryable (h : HTTPError) :
  (StatusCode h =? 401) || (StatusCode h =? 403) = true ->
  HTTPError_IsRetryable h = false /\ (StatusCode h =? 429) = false.
Proof.
  intros Hs. unfold HTTPError_IsRetryable.
  apply orb_true_iff in Hs as [Hs | Hs]; apply Z.eqb_eq in Hs; rewrite Hs; split; reflexivity.
Qed.

Lemma HTTPError_rate_limit_retryable (h : HTTPError) :
  (StatusCode h =? 429) = true -> HTTPError_IsRetryable h = true.
Proof. intros Hs. unfold HTTPError_IsRetryable. rewrite Hs. reflexivity. Qed.

Lemma classes_of_chain :
  forall err,
    (IsAuthError (Some err) = true ->
     IsRetryable (Some err) = false /\ IsRateLimitError (Some err) = false) /\
    (IsRateLimitError (Some err) = true ->
     IsRetryable (Some err) = true \/
     exists a, As_APIError err = Some a /\ As_HTTPError err = None /\
               Type_ a = ErrTypeRateLimitExceeded /\
               APIError_IsRetryable a = true /\ IsRetryable (Some err) = false).
Proof.
  fix IH 1. intros [s|h|j|a|c m [cause|]|e|m [cause|]]; try exact (IH cause);
    try (split; intros Hclass; discriminate Hclass).
  - destruct s; split; intros Hclass; try discriminate Hclass;
      first [split; reflexivity | left; reflexivity].
  - split; intros Hclass.
    + apply (HTTPError_auth_not_retryable h). exact Hclass.
    + left. apply (HTTPError_rate_limit_retryable h). exact Hclass.
  - split; intros Hclass.
    + apply bool_decide_eq_true_1 in Hclass. split; [reflexivity|].
      cbn. rewrite Hclass. reflexivity.
    + apply bool_decide_eq_true_1 in Hclass. right. exists a.
      split; [reflexivity|]. split; [reflexivity|]. split; [exact Hclass|].
      split; [|reflexivity]. unfold APIError_IsRetryable. rewrite Hclass. reflexivity.
Qed.

(** X12. An authentication error is never retryable and never a rate limit
    error. A rate limit error is retryable, except when it is an APIError of
    type RATE_LIMIT_EXCEEDED: that one the package classifier does not
    retry, although its own IsRetryable method answers true. *)
Theorem auth_and_rate_limit_errors (err : error) :
  (IsAuthError (Some err) = true ->
   IsRetryable (Some err) = false /\ IsRateLimitError (Some err) = false) /\
  (IsRateLimitError (Some err) = true ->
   IsRetryable (Some err) = true \/
   exists a, As_APIError err = Some a /\ As_HTTPError err = None /\
             Type_ a = ErrTypeRateLimitExceeded /\
             APIError_IsRetryable a = true /\ IsRetryable (Some err) = false) /\
  IsRateLimitError (Some (Wrap (Some (EAPI (mkAPIError ErrTypeRateLimitExceeded "" "")))
                            "API" "limit")) = true /\
  IsRetryable (Some (Wrap (Some (EAPI (mkAPIError ErrTypeRateLimitExceeded "" "")))
                       "API" "limit")) = false.
Proof.
  destruct (classes_of_chain err) as [Hauth Hrate].
  split; [exact Hauth|]. split; [exact Hrate|]. split; reflexivity.
Qed.

Lemma foreign_chain_not_retryable :
  forall err, foreign_chain err = true -> IsRetryable (Some err) = false.
Proof.
  fix IH 1. intros [s|h|j|a|c m [cause|]|e|m [cause|]] Hforeign;
    try discriminate Hforeign; [exact (IH cause Hforeign) | reflexivity].
Qed.

End ErrorClassFacts.

(** ** The retry loop under any handler, transport and context *)

Module RetryFacts.
Import Errors ErrorsSpec Client ClientSpec RetrySpec.

Section WithRuntime.
Context `{Runtime}.

Lemma Retrier_Do_from_negative (C : Type) (r : Retrier) (ctx : Context)
    (fn : C -> World -> option error * C * World) (c : C) (w : World) :
  MaxRetries r < 0 -> Retrier_Do r ctx fn c w = (None, c, w).
Proof.
  intros Hneg. unfold Retrier_Do.
  replace (Z.to_nat (MaxRetries r + 1)) with 0%nat by lia. reflexivity.
Qed.




(** X14. With a negative [MaxRetries] the loop makes no attempt: [Do]
    returns no response and no error and sends nothing, and [Post] and [Get],
    which read the response they were not given, panic. *)
Theorem Do_negative_MaxRetries (c : HTTPClient) (ctx : Context) (req : http.Request)
    (path : string) (w : World) :
  MaxRetries (retrier c) < 0 ->
  Do c ctx req w = (None, None, w) /\
  (NewRequestWithContext "GET" (request_url c path) None = inl req ->
   Get c ctx path w = (Panic, w)) /\
  (forall body data,
      body <> NoBody -> json_Marshal body = inl data ->
      NewRequestWithContext "POST" (request_url c path) (Some data) = inl req ->
      Post c ctx path body w = (Panic, w)).
Proof.
  intros Hneg.
  assert (Hdo : forall req, Do c ctx req w = (None, None, w)).
  { intros req'. unfold Do. rewrite Retrier_Do_from_negative by exact Hneg. reflexivity. }
  split; [apply Hdo|]. split.
  - intros Hreq. unfold Get. rewrite Hreq, Hdo. reflexivity.
  - intros body data Hbody Hmarshal Hreq. unfold Post.
    destruct body; [contradiction | |]; rewrite Hmarshal, Hreq, Hdo; reflexivity.
Qed.

(** X15. A context that is finished before the first attempt: nothing is
    sent, and [Do] returns the package's error for it. *)
Theorem Do_context_finished (c : HTTPClient) (ctx : Context) (req : http.Request)
    (w : World) (e : context.Err) :
  0 <= MaxRetries (retrier c) ->
  Err ctx w = Some e ->
  Do c ctx req w =
    (None, Some (ESentinel (match e with
                            | context.Canceled => ErrContextCanceled
                            | context.DeadlineExceeded => ErrContextDeadline
                            end)), w) /\
  IsRetryable (Do c ctx req w).1.2 = false.
Proof.
  intros Hmax Hctx.
  assert (Hdo : Do c ctx req w = (None, Some (context_error e), w)).
  { unfold Do, Retrier_Do.
    replace (Z.to_nat (MaxRetries (retrier c) + 1))
      with (S (Z.to_nat (MaxRetries (retrier c)))) by lia.
    simpl. rewrite Hctx. destruct e; reflexivity. }
  rewrite Hdo. destruct e; split; reflexivity.
Qed.

(** X16. A context that finishes during the wait after the first attempt:
    no second request is made and no wait is recorded, and [Do] returns the
    error of the attempt, not the context's. *)
Theorem Do_context_finished_in_backoff (c : HTTPClient) (ctx : Context)
    (req : http.Request) (w w1 : World) (resp : http.Response) (e : context.Err) :
  0 < MaxRetries (retrier c) ->
  Err ctx w = None ->
  handler_chain c ctx req w = (inl resp, w1) ->
  retried_status (http.StatusCode resp) ->
  Done ctx w1 (calculateDelay (retrier c) 0 w1) = Some e ->
  Do c ctx req w =
    (None,
     Some (EHTTP (NewHTTPError (http.StatusCode resp) (http.Status resp) (http.Body resp))),
     w1).
Proof.
  intros Hmax Hctx Hcall Hstatus Hdone. unfold Do, Retrier_Do.
  replace (Z.to_nat (MaxRetries (retrier c) + 1))
    with (S (Z.to_nat (MaxRetries (retrier c)))) by lia.
  cbn [Retrier_Do_from]. rewrite Hctx.
  unfold Do_attempt. rewrite Hcall.
  replace ((http.StatusCode resp =? 429) || (500 <=? http.StatusCode resp)) with true.
  2:{ symmetry. apply orb_true_iff. unfold retried_status in Hstatus.
      destruct Hstatus as [-> | Hs]; [left; reflexivity | right; apply Z.leb_le; lia]. }
  cbn [is_stopRetry]. unfold ShouldRetry.
  rewrite (ClientFacts.retried_status_IsRetryable _ _ _ Hstatus). cbn [negb].
  destruct (Z.eqb_spec 0 (MaxRetries (retrier c))) as [Hzero | _]; [lia|].
  rewrite Hdone. destruct e; reflexivity.
Qed.

(** X17. An error of the handler that the classifier does not retry, as
    every error that net/http makes is, ends [Do] after that one attempt;
    the caller gets the error itself, without the wrapper that stopped the
    loop. *)
Theorem Do_error_not_retried (c : HTTPClient) (ctx : Context) (req : http.Request)
    (w w1 : World) (err : error) :
  0 <= MaxRetries (retrier c) ->
  Err ctx w = None ->
  handler_chain c ctx req w = (inr err, w1) ->
  foreign_chain err = true \/ IsRetryable (Some err) = false ->
  Do c ctx req w = (None, Some err, w1).
Proof.
  intros Hmax Hctx Hcall Hkind.
  assert (Hretry : IsRetryable (Some err) = false).
  { destruct Hkind as [Hforeign | Hretry]; [|exact Hretry].
    apply ErrorClassFacts.foreign_chain_not_retryable, Hforeign. }
  unfold Do, Retrier_Do.
  replace (Z.to_nat (MaxRetries (retrier c) + 1))
    with (S (Z.to_nat (MaxRetries (retrier c)))) by lia.
  cbn [Retrier_Do_from]. rewrite Hctx.
  unfold Do_attempt. rewrite Hcall, Hretry. reflexivity.
Qed.

(** The loop over the bare transport: every request it sends is the one it
    was given, and there are no more requests than iterations and fewer
    waits than iterations. *)
Lemma Retrier_Do_from_doRequest (c : HTTPClient) (r : Retrier) (ctx : Context)
    (req : http.Request) :
  forall (remaining : nat) (attempt : Z) lastErr captured w,
    attempt + Z.of_nat remaining = MaxRetries r + 1 ->
    exists (k : nat) (delays : list Z),
      exchanges req k delays w
        (Retrier_Do_from r ctx (Do_attempt (doRequest c) ctx req)
           remaining attempt lastErr captured w).2 /\
      (k <= remaining)%nat /\
      (length delays < remaining \/ (remaining = 0 /\ delays = []))%nat /\
      (length delays <= k)%nat.
Proof.
  induction remaining as [|remaining IH]; intros attempt lastErr captured w Hattempt.
  { exists 0%nat, []. unfold exchanges. simpl. rewrite !app_nil_r. repeat split; auto. }
  assert (Hstop : forall w0 : World,
             w0 = log_sent req w ->
             exists (k : nat) (delays : list Z),
               exchanges req k delays w w0 /\
               (k <= S remaining)%nat /\
               (length delays < S remaining \/ (S remaining = 0 /\ delays = []))%nat /\
               (length delays <= k)%nat).
  { intros w0 ->. exists 1%nat, []. unfold exchanges. simpl. rewrite app_nil_r.
    repeat split; auto; lia. }
  assert (Hmore : forall err captured' d,
             attempt <> MaxRetries r ->
             exists (k : nat) (delays : list Z),
               exchanges req k delays w
                 (Retrier_Do_from r ctx (Do_attempt (doRequest c) ctx req)
                    remaining (attempt + 1) (Some err) captured'
                    (log_slept d (log_sent req w))).2 /\
               (k <= S remaining)%nat /\
               (length delays < S remaining \/ (S remaining = 0 /\ delays = []))%nat /\
               (length delays <= k)%nat).
  { intros err captured' d Hne.
    destruct (IH (attempt + 1) (Some err) captured' (log_slept d (log_sent req w)))
      as (k & delays & (Hsent & Hslept & Hid & Hheap) & Hk & Hd & Hdk); [lia|].
    exists (S k), (d :: delays). unfold exchanges.
    rewrite Hsent, Hslept, Hid, Hheap.
    cbn [sent slept log_slept log_sent requestIDCounter heap replicate length].
    rewrite <- !app_assoc. repeat split; auto; lia. }
  cbn [Retrier_Do_from].
  destruct (Err ctx w).
  { exists 0%nat, []. unfold exchanges. simpl. rewrite !app_nil_r.
    repeat split; auto; lia. }
  unfold Do_attempt at 1. unfold doRequest at 1.
  destruct (httpClient c ctx w req) as [resp | err].
  - destruct ((http.StatusCode resp =? 429) || (500 <=? http.StatusCode resp));
      [|apply Hstop; reflexivity].
    cbn [is_stopRetry]. destruct (negb _); [apply Hstop; reflexivity|].
    destruct (Z.eqb_spec attempt (MaxRetries r)) as [Hlast | Hne];
      [apply Hstop; reflexivity|].
    destruct (Done ctx _ _); [apply Hstop; reflexivity|].
    apply Hmore. exact Hne.
  - destruct (IsRetryable (Some err)) eqn:Hretry; [|apply Hstop; reflexivity].
    destruct (is_stopRetry err); [apply Hstop; reflexivity|].
    destruct (negb _); [apply Hstop; reflexivity|].
    destruct (Z.eqb_spec attempt (MaxRetries r)) as [Hlast | Hne];
      [apply Hstop; reflexivity|].
    destruct (Done ctx _ _); [apply Hstop; reflexivity|].
    apply Hmore. exact Hne.
Qed.

(** X18. Without middlewares, whatever the transport answers and whatever
    the context does: [Do] sends the request it was given and no other, at
    most [MaxRetries + 1] times; it waits at most [MaxRetries] times and
    never more often than it has sent; it leaves the request counter and
    the decode targets alone. *)
Theorem Do_requests_bounded (c : HTTPClient) (ctx : Context) (req : http.Request)
    (w : World) :
  middlewares c = [] ->
  exists (k : nat) (delays : list Z),
    sent (Do c ctx req w).2 = sent w ++ replicate k req /\
    slept (Do c ctx req w).2 = slept w ++ delays /\
    requestIDCounter (Do c ctx req w).2 = requestIDCounter w /\
    heap (Do c ctx req w).2 = heap w /\
    Z.of_nat k <= Z.max 0 (MaxRetries (retrier c) + 1) /\
    Z.of_nat (length delays) <= Z.max 0 (MaxRetries (retrier c)) /\
    (length delays <= k)%nat.
Proof.
  intros Hmw.
  destruct (Z.ltb_spec (MaxRetries (retrier c)) 0) as [Hneg | Hmax].
  { unfold Do. rewrite Retrier_Do_from_negative by exact Hneg.
    exists 0%nat, []. simpl. rewrite !app_nil_r. repeat split; auto; lia. }
  assert (Hworld : (Do c ctx req w).2 =
                   (Retrier_Do_from (retrier c) ctx (Do_attempt (doRequest c) ctx req)
                      (Z.to_nat (MaxRetries (retrier c) + 1)) 0 None (None, None) w).2).
  { unfold Do, Retrier_Do, handler_chain. rewrite Hmw. cbn [foldr].
    destruct (Retrier_Do_from _ _ _ _ _ _ _ _) as [[err [resp le]] w'].
    destruct err as [err|]; [|reflexivity].
    destruct err; try (destruct le; reflexivity); reflexivity. }
  rewrite Hworld.
  destruct (Retrier_Do_from_doRequest c (retrier c) ctx req
              (Z.to_nat (MaxRetries (retrier c) + 1)) 0 None (None, None) w)
    as (k & delays & (Hsent & Hslept & Hid & Hheap) & Hk & Hd & Hdk); [lia|].
  exists k, delays. repeat split; auto; lia.
Qed.

(** *** The User-Agent middleware *)

Lemma Header_Set_twice (req : http.Request) (key a b : string) :
  http.Header_Set (http.Header_Set req key a) key b = http.Header_Set req key b.
Proof. unfold http.Header_Set. simpl. rewrite insert_insert_eq. reflexivity. Qed.

Lemma Chain_UserAgent (uas : list string) (next : Handler) ctx req w :
  Chain (map UserAgentMiddleware uas) next ctx req w =
    next ctx (foldl (fun req ua => http.Header_Set req "User-Agent" ua) req uas) w.
Proof.
  revert req. induction uas as [|ua uas IH]; intros req; [reflexivity|].
  simpl. unfold UserAgentMiddleware at 1. apply IH.
Qed.

Lemma foldl_Header_Set (uas : list string) (ua : string) :
  forall req,
    foldl (fun req ua => http.Header_Set req "User-Agent" ua) req (uas ++ [ua]) =
    http.Header_Set req "User-Agent" ua.
Proof.
  induction uas as [|ua' uas IH]; intros req; [reflexivity|].
  cbn [app foldl]. rewrite IH. apply Header_Set_twice.
Qed.

(** X19. Of the User-Agent middlewares of a client the one registered last
    decides: the transport gets the request with that User-Agent and
    otherwise as [Do] was given it, on the first attempt and, the header
    being set in the request [Do] holds, on every later one. *)
Theorem UserAgent_last_wins (c : HTTPClient) (uas : list string) (ua : string)
    (ctx : Context) (req : http.Request) (w : World) :
  middlewares c = map UserAgentMiddleware (uas ++ [ua]) ->
  let req' := http.Header_Set req "User-Agent" ua in
  handler_chain c ctx req w = (httpClient c ctx w req', log_sent req' w) /\
  handler_chain c ctx req' w = handler_chain c ctx req w /\
  http.Header req' !! "User-Agent" = Some ua.
Proof.
  intros Hmw req'.
  assert (Hchain : forall req0,
             handler_chain c ctx req0 w =
               doRequest c ctx (http.Header_Set req0 "User-Agent" ua) w).
  { intros req0. unfold handler_chain. rewrite Hmw.
    change (foldr _ (doRequest c) ?ms) with (Chain ms (doRequest c)).
    rewrite Chain_UserAgent, foldl_Header_Set. reflexivity. }
  split; [rewrite Hchain; reflexivity|]. split.
  - rewrite !Hchain. unfold req'. rewrite Header_Set_twice. reflexivity.
  - unfold req'. simpl. apply lookup_insert_eq.
Qed.

End WithRuntime.

#[local] Existing Instance ClientExamples.test_runtime.


Lemma Do_negative_MaxRetries_witness :
  let c := ClientExamples.test_client (ClientExamples.always 200 []) (-1) in
  Do c ClientExamples.background ClientExamples.test_request ClientExamples.initial_world =
    (None, None, ClientExamples.initial_world) /\
  Get c ClientExamples.background "" ClientExamples.initial_world =
    (Panic, ClientExamples.initial_world).
Proof.
  destruct (Do_negative_MaxRetries
              (ClientExamples.test_client (ClientExamples.always 200 []) (-1))
              ClientExamples.background ClientExamples.test_request ""
              ClientExamples.initial_world) as (Hdo & Hget & _); [simpl; lia|].
  split; [exact Hdo | apply Hget; reflexivity].
Defined.

Lemma Do_context_finished_witness :
  Do (ClientExamples.test_client (ClientExamples.always 200 []) 3)
    RetryExamples.cancelled ClientExamples.test_request ClientExamples.initial_world =
  (None, Some (ESentinel ErrContextCanceled), ClientExamples.initial_world).
Proof.
  apply (Do_context_finished
           (ClientExamples.test_client (ClientExamples.always 200 []) 3)
           RetryExamples.cancelled ClientExamples.test_request
           ClientExamples.initial_world context.Canceled);
    [simpl; lia | reflexivity].
Defined.

Lemma Do_context_finished_in_backoff_witness :
  Do (ClientExamples.test_client (ClientExamples.always 503 []) 3)
    RetryExamples.deadline_while_waiting ClientExamples.test_request
    ClientExamples.initial_world =
  (None, Some (EHTTP (NewHTTPError 503 "503" [])),
   log_sent ClientExamples.test_request ClientExamples.initial_world).
Proof.
  apply (Do_context_finished_in_backoff
           (ClientExamples.test_client (ClientExamples.always 503 []) 3)
           RetryExamples.deadline_while_waiting ClientExamples.test_request
           ClientExamples.initial_world
           (log_sent ClientExamples.test_request ClientExamples.initial_world)
           {| http.StatusCode := 503; http.Status := "503"; http.Body := [];
              http.ReadErr := None |}
           context.DeadlineExceeded);
    [simpl; lia | reflexivity | reflexivity
     | unfold ClientSpec.retried_status; simpl; lia | reflexivity].
Defined.

Lemma Do_error_not_retried_witness :
  Do (ClientExamples.test_client RetryExamples.unreachable 3)
    ClientExamples.background ClientExamples.test_request ClientExamples.initial_world =
  (None,
   Some (EForeign "Post: dial tcp: connection refused"
           (Some (EForeign "dial tcp: connection refused" None))),
   log_sent ClientExamples.test_request ClientExamples.initial_world).
Proof.
  apply (Do_error_not_retried (ClientExamples.test_client RetryExamples.unreachable 3));
    [simpl; lia | reflexivity | reflexivity | left; reflexivity].
Defined.

Lemma Do_requests_bounded_witness :
  let w' := (Do (ClientExamples.test_client (ClientExamples.always 503 []) 3)
               ClientExamples.background ClientExamples.test_request
               ClientExamples.initial_world).2 in
  exists (k : nat) (delays : list Z),
    sent w' = replicate k ClientExamples.test_request /\
    slept w' = delays /\
    Z.of_nat k <= 4 /\ Z.of_nat (length delays) <= 3.
Proof.
  destruct (Do_requests_bounded
              (ClientExamples.test_client (ClientExamples.always 503 []) 3)
              ClientExamples.background ClientExamples.test_request
              ClientExamples.initial_world)
    as (k & delays & Hsent & Hslept & _ & _ & Hk & Hd & _); [reflexivity|].
  exists k, delays. split; [exact Hsent|]. split; [exact Hslept|].
  split; [exact Hk | exact Hd].
Defined.

Lemma UserAgent_last_wins_witness :
  (handler_chain RetryExamples.ua_client ClientExamples.background
     ClientExamples.test_request ClientExamples.initial_world).2 =
  log_sent (http.Header_Set ClientExamples.test_request "User-Agent" "my-app/2.0")
    ClientExamples.initial_world.
Proof.
  destruct (UserAgent_last_wins RetryExamples.ua_client ["alchemy-go/1.0"] "my-app/2.0"
              ClientExamples.background ClientExamples.test_request
              ClientExamples.initial_world) as (Hchain & _); [reflexivity|].
  rewrite Hchain. reflexivity.
Defined.

End RetryFacts.

(** ** JSON-RPC calls: ids and raw results *)

Module JSONRPCFacts.
Import Errors Client JSONRPCSpec.

Lemma length_request_ids (n : nat) : forall w, length (request_ids n w) = n.
Proof. induction n as [|n IH]; intros w; [reflexivity|]. simpl. rewrite IH. reflexivity. Qed.

Lemma request_ids_lookup (n : nat) :
  forall w i,
    (i < n)%nat ->
    request_ids n w !! i = Some (uint64 (requestIDCounter w + 1 + Z.of_nat i)).
Proof.
  induction n as [|n IH]; intros w i Hi; [lia|].
  destruct i as [|i]; simpl.
  - rewrite Z.add_0_r. reflexivity.
  - rewrite IH by lia. simpl. f_equal. unfold uint64.
    rewrite <- Z.add_assoc, Zplus_mod_idemp_l. f_equal. lia.
Qed.

Lemma uint64_offset_inj (c i j : Z) :
  0 <= i < 2 ^ 64 -> 0 <= j < 2 ^ 64 -> uint64 (c + i) = uint64 (c + j) -> i = j.
Proof.
  unfold uint64. intros Hi Hj Heq.
  assert (Hdiv : ((c + i) - (c + j)) mod 2 ^ 64 = 0).
  { rewrite Zminus_mod, Heq, Z.sub_diag. reflexivity. }
  replace (c + i - (c + j)) with (i - j) in Hdiv by lia.
  apply Z.mod_divide in Hdiv; [|lia]. destruct Hdiv as [q Hq]. nia.
Qed.

(** X20. Successive calls of [NextRequestID] return the counter plus 1, 2,
    ..., in uint64; up to 2^64 successive ids are pairwise different. *)
Theorem NextRequestID_distinct (n : nat) (w : World) :
  Z.of_nat n <= 2 ^ 64 ->
  NoDup (request_ids n w) /\
  (forall i, (i < n)%nat ->
     request_ids n w !! i = Some (uint64 (requestIDCounter w + 1 + Z.of_nat i))).
Proof.
  intros Hn. split; [|intros i Hi; apply request_ids_lookup, Hi].
  apply NoDup_alt. intros i j x Hi Hj.
  assert (Hin : (i < n)%nat)
    by (apply lookup_lt_Some in Hi; rewrite length_request_ids in Hi; exact Hi).
  assert (Hjn : (j < n)%nat)
    by (apply lookup_lt_Some in Hj; rewrite length_request_ids in Hj; exact Hj).
  rewrite request_ids_lookup in Hi by exact Hin.
  rewrite request_ids_lookup in Hj by exact Hjn.
  assert (Heq : uint64 (requestIDCounter w + 1 + Z.of_nat i) =
                uint64 (requestIDCounter w + 1 + Z.of_nat j)) by congruence.
  apply uint64_offset_inj in Heq; lia.
Qed.

Lemma NextRequestID_distinct_witness :
  request_ids 3 ClientExamples.initial_world = [1; 2; 3] /\
  NoDup (request_ids 3 ClientExamples.initial_world).
Proof.
  split; [reflexivity|].
  apply (NextRequestID_distinct 3 ClientExamples.initial_world). simpl. lia.
Defined.

Section WithRuntime.
Context `{Runtime}.

(** X21. [Call] is [CallRaw] followed by the decoding of the raw result
    into the target: the two make the same exchange and fail alike, and a
    nil target or an empty result leaves the targets as they are. *)
Theorem Call_CallRaw (c : JSONRPCClient) (ctx : Context) (method : string)
    (params : list Value) (result : option loc) (w : World) :
  Call c ctx method params result w =
    match CallRaw c ctx method params w with
    | (Ok raw, w') => decode_result raw result w'
    | (Fail err, w') => (Fail err, w')
    | (Panic, w') => (Panic, w')
    end /\
  (forall raw w',
      CallRaw c ctx method params w = (Ok raw, w') ->
      result = None \/ raw = [] ->
      Call c ctx method params result w = (Ok tt, w')).
Proof.
  assert (Heq : Call c ctx method params result w =
                match CallRaw c ctx method params w with
                | (Ok raw, w') => decode_result raw result w'
                | (Fail err, w') => (Fail err, w')
                | (Panic, w') => (Panic, w')
                end).
  { unfold Call, CallRaw, decode_result.
    destruct (NextRequestID w) as [id w0].
    destruct (Post _ _ _ _ _) as [[respBody | err |] w1]; try reflexivity.
    destruct (json_Unmarshal_JSONRPCResponse respBody) as [resp | err]; [|reflexivity].
    destruct (resp_Error resp); reflexivity. }
  split; [exact Heq|].
  intros raw w' Hraw Hnone. rewrite Heq, Hraw. unfold decode_result.
  destruct Hnone as [-> | ->]; [reflexivity|]. destruct result; reflexivity.
Qed.

End WithRuntime.

(** X22. The id of the response envelope is not looked at: a decoder that
    reports any other id gives [Call] and [CallRaw] the same outcome and the
    same world. *)
Theorem Call_ignores_response_ID (R : Runtime) (f : Z -> Z) (c : JSONRPCClient)
    (ctx : Context) (method : string) (params : list Value) (result : option loc)
    (w : World) :
  @Call (with_response_ID f R) c ctx method params result w =
    @Call R c ctx method params result w /\
  @CallRaw (with_response_ID f R) c ctx method params w =
    @CallRaw R c ctx method params w.
Proof.
  assert (HPost : forall path body w0,
             @Post (with_response_ID f R) (rpc_httpClient c) ctx path body w0 =
             @Post R (rpc_httpClient c) ctx path body w0) by reflexivity.
  assert (HUnmarshal : forall raw target w0,
             @Unmarshal (with_response_ID f R) raw target w0 =
             @Unmarshal R raw target w0) by reflexivity.
  unfold Call, CallRaw. destruct (NextRequestID w) as [id w0]. rewrite HPost.
  destruct (Post _ _ _ _ _) as [[respBody | err |] w1]; try (split; reflexivity).
  cbn [json_Unmarshal_JSONRPCResponse with_response_ID].
  destruct (json_Unmarshal_JSONRPCResponse respBody) as [resp | err];
    [|split; reflexivity].
  cbn [resp_Error resp_Result]. destruct (resp_Error resp); [split; reflexivity|].
  split; [|reflexivity].
  destruct result as [target|]; [|reflexivity].
  destruct (0 <? _); [|reflexivity]. rewrite HUnmarshal. reflexivity.
Qed.

End JSONRPCFacts.

(** ** The iterator in any state, and over any number of pages *)

Module IteratorFacts.
Import Errors Data DataSpec.

Lemma Next_not_Panic it log : (Next it log).1.1 <> Panic.
Proof.
  unfold Next, fetchNext, GetAssetTransfers.
  repeat case_match; simplify_eq/=; discriminate.
Qed.

Lemma Next_log it log :
  exists fetched,
    (Next it log).2 = log ++ fetched /\
    (length fetched <= 2)%nat /\
    (is_Some (current it) -> (length fetched <= 1)%nat).
Proof.
  unfold Next, fetchNext, GetAssetTransfers.
  repeat case_match; simplify_eq/=;
    first [ exists []; rewrite app_nil_r; repeat split; simpl; auto; lia
          | eexists [_]; repeat split; simpl; auto; lia
          | rewrite <- app_assoc; eexists [_; _]; split; [reflexivity|];
            split; [simpl; lia|]; intros [? Hsome]; congruence ].
Qed.

Lemma HasNext_false it log :
  HasNext it = false ->
  (Next it log).2 = log /\
  ((Next it log).1.1 = Ok None \/ exists e, (Next it log).1.1 = Fail e /\ err it = Some e).
Proof.
  unfold HasNext. intros Hhas.
  destruct (err it) as [e|] eqn:Herr.
  { rewrite (DataFacts.Next_stored_error it log e Herr). split; [reflexivity|].
    right. eauto. }
  destruct (done it) eqn:Hdone.
  { rewrite (DataFacts.Next_done it log Herr Hdone). split; [reflexivity|].
    left. reflexivity. }
  rewrite bool_decide_eq_false_2 in Hhas by (intros [? [=]]). cbn [orb] in Hhas.
  destruct (current it) as [cur|] eqn:Hcur; [|discriminate].
  destruct (bool_decide_reflect (index it < length (Transfers cur))%nat) as [Hlt | Hge];
    [discriminate|].
  rewrite (DataFacts.Next_last_page it log cur Herr Hdone Hcur).
  - split; [reflexivity|]. left. reflexivity.
  - lia.
  - unfold HasMore in Hhas. apply negb_false_iff, bool_decide_eq_true_1 in Hhas.
    exact Hhas.
Qed.

(** X23. [Next] never dereferences a nil page. It makes at most two
    fetches, and at most one when the iterator holds a page. When [HasNext]
    says false, [Next] fetches nothing and returns no transfer: the end, or
    the error the iterator holds. *)
Theorem Next_fetches (it : AssetTransfersIterator) (log : FetchLog) :
  (Next it log).1.1 <> Panic /\
  (exists fetched,
      (Next it log).2 = log ++ fetched /\
      (length fetched <= 2)%nat /\
      (is_Some (current it) -> (length fetched <= 1)%nat)) /\
  (HasNext it = false ->
   (Next it log).2 = log /\
   ((Next it log).1.1 = Ok None \/
    exists e, (Next it log).1.1 = Fail e /\ err it = Some e)).
Proof.
  split; [apply Next_not_Panic|]. split; [apply Next_log | apply HasNext_false].
Qed.

(** *** Collect over any number of pages *)

Lemma Collect_loop_Next (fuel : nat) acc it log it1 log1 :
  Next it log = Next it1 log1 ->
  Collect_loop fuel acc it log = Collect_loop fuel acc it1 log1.
Proof. intros Hnext. destruct fuel; [reflexivity|]. simpl. rewrite Hnext. reflexivity. Qed.

Lemma set_index_same it : set_index (index it) it = it.
Proof. destruct it. reflexivity. Qed.

(** The rest of the current page takes one call of [Next] per transfer. *)
Lemma Collect_loop_in_page :
  forall (m : nat) it log acc fuel cur,
    err it = None -> done it = false -> current it = Some cur ->
    (index it + m = length (Transfers cur))%nat ->
    Collect_loop (m + fuel) acc it log =
      Collect_loop fuel (acc ++ drop (index it) (Transfers cur))
        (set_index (length (Transfers cur)) it) log.
Proof.
  induction m as [|m IH]; intros it log acc fuel cur Herr Hdone Hcur Hindex.
  - rewrite Nat.add_0_r in Hindex. rewrite drop_ge, app_nil_r by lia.
    rewrite <- Hindex, set_index_same. reflexivity.
  - destruct (Transfers cur !! index it) as [transfer|] eqn:Hitem.
    2:{ apply lookup_ge_None_1 in Hitem. lia. }
    cbn [Nat.add Collect_loop].
    rewrite (DataFacts.Next_in_page it log cur transfer Herr Hdone Hcur Hitem).
    rewrite (IH (set_index (S (index it)) it) log (acc ++ [transfer]) fuel cur);
      try assumption; [|simpl; lia].
    cbn [index set_index]. rewrite (drop_S _ _ _ Hitem), <- app_assoc. reflexivity.
Qed.

Lemma set_PageKey_params key p p' :
  set_PageKey "" p' = set_PageKey "" p -> set_PageKey key p' = set_PageKey key p.
Proof.
  intros Hp. change (set_PageKey key (set_PageKey "" p') = set_PageKey key (set_PageKey "" p)).
  rewrite Hp. reflexivity.
Qed.

(** From the end of a page on: the pages along the cursors, one fetch
    each. *)
Lemma Collect_loop_pages (c : Client) (p : AssetTransfersParams) :
  forall pages key transfers it log acc fuel,
    client it = c -> set_PageKey "" (params it) = set_PageKey "" p ->
    err it = None -> done it = false ->
    current it = Some {| resp_PageKey := key; Transfers := transfers |} ->
    index it = length transfers ->
    serves c p key pages ->
    (length (transfers_of pages) + 1 <= fuel)%nat ->
    exists it',
      Collect_loop fuel acc it log =
        Some (Ok (acc ++ transfers_of pages), it', log ++ requests p key pages) /\
      done it' = true /\ err it' = None.
Proof.
  induction pages as [|[page next] pages IH];
    intros key transfers it log acc fuel Hclient Hparams Herr Hdone Hcur Hindex Hserves Hfuel.
  - simpl in Hserves. subst key. destruct fuel as [|fuel]; [lia|].
    exists (set_done true it). cbn [Collect_loop].
    rewrite (DataFacts.Next_last_page it log _ Herr Hdone Hcur) by (simpl; auto; lia).
    unfold transfers_of. simpl. rewrite !app_nil_r. auto.
  - destruct Hserves as (Hkey & Hpage & Hrpc & Hserves).
    destruct page as [|transfer page]; [contradiction|].
    unfold transfers_of in *. cbn [map fst concat] in *.
    rewrite length_app in Hfuel. cbn [length] in Hfuel.
    destruct fuel as [|fuel]; [lia|]. cbn [Collect_loop].
    pose proof (DataFacts.Next_following_page it log _
                  {| resp_PageKey := next; Transfers := transfer :: page |}
                  Herr Hdone Hcur) as Hnext.
    cbn [Transfers resp_PageKey] in Hnext.
    rewrite (set_PageKey_params key p _ Hparams) in Hnext.
    rewrite Hclient in Hnext. specialize (Hnext ltac:(lia) Hkey (Hrpc log)).
    cbv zeta in Hnext. rewrite Hnext. clear Hnext.
    set (it1 := set_index 1 _).
    replace fuel with (length page + (fuel - length page))%nat by lia.
    rewrite (Collect_loop_in_page (length page) it1 _ _ _
               {| resp_PageKey := next; Transfers := transfer :: page |});
      try reflexivity; try (subst it1; simpl; assumption).
    cbn [Transfers].
    destruct (IH next (transfer :: page) (set_index (length (transfer :: page)) it1)
                (log ++ [set_PageKey key p])
                ((acc ++ [transfer]) ++ drop (index it1) (transfer :: page))
                (fuel - length page)%nat) as (it' & Hloop & Hfinal);
      try reflexivity; try (subst it1; simpl; assumption); [lia|].
    exists it'. rewrite Hloop. split; [|exact Hfinal].
    subst it1. cbn [index set_index drop]. rewrite drop_0.
    rewrite <- !app_assoc. reflexivity.
Qed.

(** X24. Against an endpoint that answers the iterator's first request with
    a page, empty or not, and serves a page with at least one transfer at
    every cursor that follows, up to a page without cursor: [Collect] of a
    new iterator returns the transfers of all pages in order, after one
    fetch per page, each with the cursor of the page before as page key
    (whenever it is allowed one call of [Next] per transfer and one more). *)
Theorem Collect_all_pages (c : Client) (p : AssetTransfersParams) (log : FetchLog)
    (first : list AssetTransfer) (next : string)
    (pages : list (list AssetTransfer * string)) (fuel : nat) :
  (forall log, rpc c log p = inl {| resp_PageKey := next; Transfers := first |}) ->
  serves c p next pages ->
  (length first + length (transfers_of pages) + 1 <= fuel)%nat ->
  exists it',
    Collect fuel (GetAssetTransfersIterator c p) log =
      Some (Ok (first ++ transfers_of pages), it', log ++ p :: requests p next pages) /\
    done it' = true /\ err it' = None.
Proof.
  intros Hfirst Hserves Hfuel. unfold Collect.
  set (it := GetAssetTransfersIterator c p).
  rewrite (Collect_loop_Next fuel [] it log _ _
             (DataFacts.Next_first_fetch it log _ eq_refl eq_refl eq_refl (Hfirst log))).
  set (it1 := set_index 0 _).
  replace fuel with (length first + (fuel - length first))%nat by lia.
  rewrite (Collect_loop_in_page (length first) it1 _ _ _
             {| resp_PageKey := next; Transfers := first |}); try reflexivity.
  cbn [Transfers]. change (params it) with p.
  destruct (Collect_loop_pages c p pages next first
              (set_index (length first) it1) (log ++ [p])
              ([] ++ drop (index it1) first) (fuel - length first)%nat)
    as (it' & Hloop & Hfinal); try reflexivity; try assumption; [lia|].
  exists it'. rewrite Hloop. split; [|exact Hfinal].
  subst it1. cbn [index set_index]. rewrite drop_0, <- (app_assoc log). reflexivity.
Qed.

Lemma Collect_all_pages_witness :
  exists it',
    Collect 4 (GetAssetTransfersIterator DataExamples.two_pages NewAssetTransfersParams) [] =
      Some (Ok [DataExamples.transfer "a"; DataExamples.transfer "b";
                DataExamples.transfer "c"], it',
            [NewAssetTransfersParams; set_PageKey "k2" NewAssetTransfersParams]) /\
    done it' = true /\ err it' = None.
Proof.
  apply (Collect_all_pages DataExamples.two_pages NewAssetTransfersParams []
           [DataExamples.transfer "a"; DataExamples.transfer "b"] "k2"
           [([DataExamples.transfer "c"], "")] 4).
  - reflexivity.
  - simpl. repeat split; try discriminate.
  - simpl. lia.
Defined.

(** *** CollectN *)

Lemma Next_Ok_None it log it' log' :
  Next it log = (Ok None, it', log') -> done it' = true /\ err it' = None.
Proof.
  unfold Next, fetchNext, GetAssetTransfers.
  repeat case_match; simplify_eq/=; intros; simplify_eq/=; auto.
Qed.

Lemma Collect_loop_acc (fuel : nat) :
  forall acc it log,
    Collect_loop fuel acc it log =
      match Collect_loop fuel [] it log with
      | Some (r, it', log') => Some (after acc r, it', log')
      | None => None
      end.
Proof.
  induction fuel as [|fuel IH]; intros acc it log; [reflexivity|].
  cbn [Collect_loop].
  destruct (Next it log) as [[[[transfer|] | e |] it'] log']; simpl;
    rewrite ?app_nil_r; try reflexivity.
  rewrite (IH (acc ++ [transfer])), (IH ([] ++ [transfer])).
  destruct (Collect_loop fuel [] it' log') as [[[r it''] log'']|]; [|reflexivity].
  destruct r; simpl; rewrite <- ?app_assoc; reflexivity.
Qed.

Lemma CollectN_loop_Collect_loop :
  forall (m : nat) acc it log l1 it1 log1,
    CollectN_loop m acc it log = (Ok l1, it1, log1) ->
    (length l1 <= length acc + m)%nat /\
    forall fuel res,
      Collect_loop fuel l1 it1 log1 = Some res ->
      Collect_loop (m + fuel) acc it log = Some res.
Proof.
  induction m as [|m IH]; intros acc it log l1 it1 log1 HN.
  - simpl in HN. simplify_eq. split; [lia|]. intros fuel res Hrest. exact Hrest.
  - cbn [CollectN_loop] in HN.
    destruct (Next it log) as [[[[transfer|] | e |] it'] log'] eqn:Hnext;
      try discriminate.
    + apply IH in HN as [Hlen Hrest]. rewrite length_app in Hlen. simpl in Hlen.
      split; [lia|]. intros fuel res Hres.
      cbn [Nat.add Collect_loop]. rewrite Hnext. apply Hrest, Hres.
    + simplify_eq. split; [lia|]. intros fuel res Hres.
      cbn [Nat.add Collect_loop]. rewrite Hnext.
      apply Next_Ok_None in Hnext as [Hdone Herr].
      destruct fuel as [|fuel]; [discriminate|]. cbn [Collect_loop] in Hres.
      rewrite (DataFacts.Next_done it1 log1 Herr Hdone) in Hres. exact Hres.
Qed.

(** X25. [CollectN] returns at most [n] transfers, and what [Collect]
    returns after it is what is left: the two results together, and the
    iterator and the fetches at the end, are those of [Collect] alone. For
    a negative [n] it panics. *)
Theorem CollectN_then_Collect (n : Z) (it : AssetTransfersIterator) (log : FetchLog)
    (l1 : list AssetTransfer) (it1 : AssetTransfersIterator) (log1 : FetchLog)
    (fuel : nat) (r : outcome (list AssetTransfer)) (it2 : AssetTransfersIterator)
    (log2 : FetchLog) :
  CollectN n it log = (Ok l1, it1, log1) ->
  Collect fuel it1 log1 = Some (r, it2, log2) ->
  0 <= n /\
  Z.of_nat (length l1) <= n /\
  Collect (Z.to_nat n + fuel) it log = Some (after l1 r, it2, log2).
Proof.
  unfold CollectN, Collect. intros HN Hrest.
  destruct (Z.ltb_spec n 0) as [Hneg | Hpos]; [discriminate|].
  apply CollectN_loop_Collect_loop in HN as [Hlen Hcollect].
  split; [exact Hpos|]. split; [simpl in Hlen; lia|].
  apply Hcollect. rewrite Collect_loop_acc, Hrest. reflexivity.
Qed.

Lemma CollectN_then_Collect_witness :
  let it := GetAssetTransfersIterator DataExamples.two_pages NewAssetTransfersParams in
  let first := CollectN 1 it [] in
  let rest := default (Panic, it, []) (Collect 3 first.1.2 first.2) in
  first.1.1 = Ok [DataExamples.transfer "a"] /\
  rest.1.1 = Ok [DataExamples.transfer "b"; DataExamples.transfer "c"] /\
  Collect 4 it [] =
    Some (Ok [DataExamples.transfer "a"; DataExamples.transfer "b";
              DataExamples.transfer "c"], rest.1.2, rest.2).
Proof.
  intros it first rest. split; [reflexivity|]. split; [reflexivity|].
  destruct (CollectN_then_Collect 1 it [] [DataExamples.transfer "a"]
              first.1.2 first.2 3
              (Ok [DataExamples.transfer "b"; DataExamples.transfer "c"])
              rest.1.2 rest.2) as (_ & _ & Hcollect);
    [reflexivity | reflexivity | exact Hcollect].
Defined.

End IteratorFacts.

(** ** The block number of a transfer *)

Module DataTypesFacts.
Import Stdlib.Strings.Ascii.
Import Hex HexSpec Data DataTypes HexFacts.
#[local] Open Scope char_scope.
#[local] Open Scope string_scope.
#[local] Open Scope Z_scope.

Lemma hexDigitToValue_digit (d : Z) : 0 <= d < 16 -> hexDigitToValue (digit_char d) = d.
Proof. intros Hd. each_digit Hd; reflexivity. Qed.

Lemma BlockNumber_loop_ascii (s : string) :
  ascii_only s = true ->
  BlockNumber_loop (runes s) =
    foldl (fun n c => (n * 16 + hexDigitToValue c) mod 2 ^ 64) 0
      (String.list_ascii_of_string s).
Proof.
  intros Hs. unfold BlockNumber_loop. rewrite (runes_ascii s Hs).
  generalize 0. clear Hs. induction s as [|c s IH]; intros n; [reflexivity|].
  cbn [String.list_ascii_of_string List.map foldl]. rewrite byte_of_rune_code. apply IH.
Qed.

Lemma format_digits_value (fuel : nat) :
  forall n acc,
    0 <= n < 16 ^ Z.of_nat fuel -> n < 2 ^ 64 ->
    foldl (fun n c => (n * 16 + hexDigitToValue c) mod 2 ^ 64) 0
      (String.list_ascii_of_string (format_digits fuel 16 n acc)) =
    foldl (fun n c => (n * 16 + hexDigitToValue c) mod 2 ^ 64) n
      (String.list_ascii_of_string acc).
Proof.
  induction fuel as [|fuel IH]; intros n acc Hn H64.
  - simpl in Hn. assert (n = 0) as -> by lia. reflexivity.
  - rewrite Nat2Z.inj_succ, Z.pow_succ_r in Hn by lia.
    cbn [format_digits].
    assert (Hd : 0 <= n mod 16 < 16) by (apply Z.mod_pos_bound; lia).
    pose proof (Z.div_mod n 16 ltac:(lia)) as Hdm.
    destruct (Z.eqb_spec (n / 16) 0) as [Hzero | Hmore].
    + cbn [String.list_ascii_of_string foldl]. rewrite (hexDigitToValue_digit _ Hd).
      f_equal. rewrite Z.mod_small by lia. lia.
    + rewrite IH;
        [| split; [apply Z.div_pos; lia | apply Z.div_lt_upper_bound; lia]
         | apply Z.div_lt_upper_bound; lia].
      cbn [String.list_ascii_of_string foldl]. rewrite (hexDigitToValue_digit _ Hd).
      f_equal. rewrite Z.mod_small by lia. lia.
Qed.

(** X26. The block number of a transfer whose [BlockNum] is the encoding
    of a uint64 is that number, as [DecodeUint64] reads it too. An empty
    [BlockNum] reads as 0, one of a single byte cannot be sliced, and the
    first two bytes are dropped whatever they are. *)
Theorem AssetTransfer_BlockNumber_EncodeUint64 (t : AssetTransfer) (n : Z) :
  0 <= n < 2 ^ 64 ->
  (BlockNum t = EncodeUint64 n ->
   AssetTransfer_BlockNumber t = Some n /\
   AssetTransfer_BlockNumber t = Some (DecodeUint64 (BlockNum t)).1) /\
  (BlockNum t = "" -> AssetTransfer_BlockNumber t = Some 0) /\
  (String.length (BlockNum t) = 1%nat -> AssetTransfer_BlockNumber t = None) /\
  (forall c0 c1,
      BlockNum t = String c0 (String c1 (FormatUint n 16)) ->
      AssetTransfer_BlockNumber t = Some n).
Proof.
  intros Hn.
  assert (Hdigits : BlockNumber_loop (runes (FormatUint n 16)) = n).
  { unfold FormatUint. rewrite BlockNumber_loop_ascii.
    - rewrite format_digits_value; [reflexivity | | lia].
      split; [lia|]. change (16 ^ Z.of_nat 64) with (2 ^ 256).
      assert (2 ^ 64 < 2 ^ 256) by (apply Z.pow_lt_mono_r; lia). lia.
    - apply every_format_digits; [|reflexivity].
      intros d Hd. each_digit Hd; reflexivity. }
  assert (Hdrop : forall c0 c1,
             BlockNum t = String c0 (String c1 (FormatUint n 16)) ->
             AssetTransfer_BlockNumber t = Some n).
  { intros c0 c1 Hnum. unfold AssetTransfer_BlockNumber. rewrite Hnum.
    rewrite bool_decide_eq_false_2 by discriminate.
    cbn [String.length Nat.ltb Nat.leb drop2]. rewrite Hdigits. reflexivity. }
  split; [|split; [|split; [|exact Hdrop]]].
  - intros Hnum.
    assert (Hblock : AssetTransfer_BlockNumber t = Some n).
    { unfold EncodeUint64 in Hnum. destruct (Z.eqb_spec n 0) as [-> | Hpos].
      - unfold AssetTransfer_BlockNumber. rewrite Hnum. reflexivity.
      - apply (Hdrop "0"%char "x"%char). exact Hnum. }
    split; [exact Hblock|]. rewrite Hblock, Hnum, DecodeUint64_EncodeUint64_id by exact Hn.
    reflexivity.
  - intros Hnum. unfold AssetTransfer_BlockNumber. rewrite Hnum. reflexivity.
  - intros Hlen. unfold AssetTransfer_BlockNumber.
    destruct (BlockNum t) as [|c0 [|c1 rest]]; try discriminate Hlen. reflexivity.
Qed.

Lemma AssetTransfer_BlockNumber_EncodeUint64_witness :
  AssetTransfer_BlockNumber (DataExamples.transfer "a") = Some 1.
Proof.
  destruct (AssetTransfer_BlockNumber_EncodeUint64 (DataExamples.transfer "a") 1)
    as (Hblock & _); [lia|].
  apply Hblock. reflexivity.
Defined.

End DataTypesFacts.

(** ** Configuration and construction *)

Module AlchemyFacts.
Import Client Alchemy.

Lemma default_Z (z d : Z) :
  d <> 0 ->
  (if z =? 0 then d else z) <> 0 /\
  (if (if z =? 0 then d else z) =? 0 then d else (if z =? 0 then d else z)) =
    (if z =? 0 then d else z).
Proof.
  intros Hd. destruct (Z.eqb_spec z 0) as [-> | Hz].
  - split; [exact Hd|]. destruct (Z.eqb_spec d 0); [contradiction | reflexivity].
  - split; [exact Hz|]. destruct (Z.eqb_spec z 0); [contradiction | reflexivity].
Qed.

Lemma default_string (s d : string) :
  d <> "" ->
  (if bool_decide (s = "") then d else s) <> "" /\
  (if bool_decide ((if bool_decide (s = "") then d else s) = "") then d
   else (if bool_decide (s = "") then d else s)) =
    (if bool_decide (s = "") then d else s).
Proof.
  intros Hd. destruct (bool_decide_reflect (s = "")) as [-> | Hs].
  - split; [exact Hd|]. rewrite bool_decide_eq_false_2 by exact Hd. reflexivity.
  - split; [exact Hs|]. rewrite bool_decide_eq_false_2 by exact Hs. reflexivity.
Qed.

(** X27. [WithDefaults] leaves no zero in the network, the timeout, the
    retry count and the two delays, and keeps what is not zero; applying it
    again changes nothing. A retry count of 0 becomes 3: the count of
    retries cannot be set to none. *)
Theorem WithDefaults_idempotent (c : Config) :
  WithDefaults (WithDefaults c) = WithDefaults c /\
  Network (WithDefaults c) <> "" /\
  Timeout (WithDefaults c) <> 0 /\
  MaxRetries (WithDefaults c) <> 0 /\
  RetryDelay (WithDefaults c) <> 0 /\
  RetryMaxDelay (WithDefaults c) <> 0 /\
  MaxRetries (WithDefaults c) = (if MaxRetries c =? 0 then 3 else MaxRetries c) /\
  (Network c <> "" -> Network (WithDefaults c) = Network c) /\
  Validate (WithDefaults c) = Validate c.
Proof.
  destruct c as [key network base timeout retries delay maxDelay transport dbg].
  unfold WithDefaults, Validate, DefaultConfig.
  cbn [APIKey Network BaseURL Timeout MaxRetries RetryDelay RetryMaxDelay HTTPClient
       Debug def_Network def_Timeout def_MaxRetries def_RetryDelay def_RetryMaxDelay].
  destruct (default_string network EthMainnet ltac:(discriminate)) as [Hn1 Hn2].
  destruct (default_Z timeout (30 * Second) ltac:(discriminate)) as [Ht1 Ht2].
  destruct (default_Z retries 3 ltac:(discriminate)) as [Hr1 Hr2].
  destruct (default_Z delay (1 * Second) ltac:(discriminate)) as [Hd1 Hd2].
  destruct (default_Z maxDelay (30 * Second) ltac:(discriminate)) as [Hm1 Hm2].
  rewrite Hn2, Ht2, Hr2, Hd2, Hm2.
  repeat (split; [first [reflexivity | assumption]|]).
  split; [|reflexivity].
  intros Hnetwork. rewrite bool_decide_eq_false_2 by exact Hnetwork. reflexivity.
Qed.

Lemma New_valid (cfg : Config) :
  APIKey cfg <> "" ->
  New cfg =
    inl {| config := WithDefaults cfg;
           http_client :=
             NewHTTPClient
               {| cfg_BaseURL := GetBaseURL (WithDefaults cfg);
                  cfg_APIKey := APIKey cfg;
                  cfg_MaxRetries := if MaxRetries cfg =? 0 then 3 else MaxRetries cfg;
                  cfg_RetryDelay := RetryDelay (WithDefaults cfg);
                  cfg_RetryMaxDelay := RetryMaxDelay (WithDefaults cfg);
                  cfg_HTTPClient := HTTPClient cfg;
                  cfg_Middlewares := [];
                  cfg_Debug := Debug cfg |};
           rpc_client :=
             {| rpc_httpClient :=
                  NewHTTPClient
                    {| cfg_BaseURL := GetBaseURL (WithDefaults cfg);
                       cfg_APIKey := APIKey cfg;
                       cfg_MaxRetries := if MaxRetries cfg =? 0 then 3 else MaxRetries cfg;
                       cfg_RetryDelay := RetryDelay (WithDefaults cfg);
                       cfg_RetryMaxDelay := RetryMaxDelay (WithDefaults cfg);
                       cfg_HTTPClient := HTTPClient cfg;
                       cfg_Middlewares := [];
                       cfg_Debug := Debug cfg |} |};
           nftURL := Network_NFTURL (Network (WithDefaults cfg)) |}.
Proof.
  intros Hkey. unfold New, Validate.
  change (APIKey (WithDefaults cfg)) with (APIKey cfg).
  rewrite bool_decide_eq_false_2 by exact Hkey. reflexivity.
Qed.

Lemma New_invalid (cfg : Config) : APIKey cfg = "" -> New cfg = inr ErrMissingAPIKey.
Proof.
  intros Hkey. unfold New, Validate.
  change (APIKey (WithDefaults cfg)) with (APIKey cfg).
  rewrite bool_decide_eq_true_2 by exact Hkey. reflexivity.
Qed.

(** X28. [New] fails exactly for an empty API key. The client it returns
    sends to the base URL followed by the key, without middlewares, under
    a retry count that is 3 where the configuration says 0 and is never 0;
    its JSON-RPC client shares the HTTP client. *)
Theorem New_client (cfg : Config) :
  (APIKey cfg = "" -> New cfg = inr ErrMissingAPIKey) /\
  (APIKey cfg <> "" ->
   exists a,
     New cfg = inl a /\
     config a = WithDefaults cfg /\
     Client.MaxRetries (retrier (http_client a)) =
       (if MaxRetries cfg =? 0 then 3 else MaxRetries cfg) /\
     Client.MaxRetries (retrier (http_client a)) <> 0 /\
     middlewares (http_client a) = [] /\
     httpClient (http_client a) = HTTPClient cfg /\
     rpc_httpClient (rpc_client a) = http_client a /\
     request_url (http_client a) "" =
       (if bool_decide (BaseURL cfg = "")
        then Network_BaseURL (if bool_decide (Network cfg = "") then EthMainnet
                              else Network cfg)
        else BaseURL cfg) +:+ "/" +:+ APIKey cfg).
Proof.
  split; [apply New_invalid|].
  - intros Hkey. eexists. split; [apply New_valid, Hkey|].
    cbn [config http_client rpc_client retrier NewHTTPClient Client.MaxRetries
         cfg_MaxRetries middlewares cfg_Middlewares rpc_httpClient httpClient
         cfg_HTTPClient].
    repeat split.
    + destruct (Z.eqb_spec (MaxRetries cfg) 0); [discriminate | assumption].
    + unfold request_url, GetBaseURL.
      cbn [baseURL apiKey NewHTTPClient cfg_BaseURL cfg_APIKey].
      rewrite bool_decide_eq_true_2 by reflexivity.
      change (BaseURL (WithDefaults cfg)) with (BaseURL cfg).
      destruct (bool_decide (BaseURL cfg = "")); reflexivity.
Qed.

Section WithRuntime.
Context `{Runtime}.

(** X29. A negative retry count passes [New], and the client it makes is
    of no use: every [Get] and every JSON-RPC call panics, having sent
    nothing. *)
Theorem New_negative_MaxRetries (cfg : Config) (ctx : Context) (w : World) :
  APIKey cfg <> "" ->
  MaxRetries cfg < 0 ->
  exists a,
    New cfg = inl a /\
    (forall path req,
        NewRequestWithContext "GET" (request_url (http_client a) path) None = inl req ->
        Get (http_client a) ctx path w = (Panic, w)) /\
    (forall method params result data req,
        json_Marshal (Single {| JSONRPC := "2.0"; Method := method; Params := params;
                                ID := (NextRequestID w).1 |}) = inl data ->
        NewRequestWithContext "POST" (request_url (http_client a) "") (Some data) =
          inl req ->
        Call (rpc_client a) ctx method params result w = (Panic, (NextRequestID w).2)).
Proof.
  intros Hkey Hneg. eexists. split; [apply New_valid, Hkey|].
  cbn [http_client rpc_client rpc_httpClient].
  set (c := NewHTTPClient _).
  assert (Hdo : forall req w0, Do c ctx req w0 = (None, None, w0)).
  { intros req w0. unfold Do. rewrite RetryFacts.Retrier_Do_from_negative; [reflexivity|].
    subst c. cbn. destruct (Z.eqb_spec (MaxRetries cfg) 0); lia. }
  split.
  - intros path req Hreq. unfold Get. rewrite Hreq, Hdo. reflexivity.
  - intros method params result data req Hmarshal Hreq.
    unfold Call, NextRequestID in *. cbn [fst snd rpc_httpClient] in *. cbv zeta.
    unfold Post. rewrite Hmarshal, Hreq, Hdo. reflexivity.
Qed.

End WithRuntime.

(** X30. [WithNetwork] makes a client for the given network at that
    network's own endpoints: a base URL the configuration had is dropped.
    Key, transport and retry settings are those of the client it is called
    on; an empty network name gives the default network. *)
Theorem WithNetwork_client (cfg : Config) (a : Alchemy) (network : string) :
  New cfg = inl a ->
  exists a',
    WithNetwork a network = inl a' /\
    Network (config a') = (if bool_decide (network = "") then EthMainnet else network) /\
    BaseURL (config a') = "" /\
    baseURL (http_client a') = Network_BaseURL (Network (config a')) /\
    nftURL a' = Network_NFTURL (Network (config a')) /\
    apiKey (http_client a') = apiKey (http_client a) /\
    retrier (http_client a') = retrier (http_client a) /\
    httpClient (http_client a') = httpClient (http_client a).
Proof.
  intros Hnew.
  assert (Hkey : APIKey cfg <> "").
  { intros Hkey. rewrite (New_invalid cfg Hkey) in Hnew. discriminate. }
  rewrite (New_valid cfg Hkey) in Hnew. injection Hnew as <-.
  unfold WithNetwork. cbn [config].
  eexists. split; [apply New_valid; exact Hkey|].
  cbn [config http_client nftURL NewHTTPClient baseURL apiKey retrier httpClient
       cfg_BaseURL cfg_APIKey cfg_MaxRetries cfg_RetryDelay cfg_RetryMaxDelay
       cfg_HTTPClient].
  do 5 (split; [reflexivity|]). split; [|reflexivity].
  unfold WithDefaults, set_Network_BaseURL, DefaultConfig.
  cbn [APIKey Network BaseURL Timeout MaxRetries RetryDelay RetryMaxDelay HTTPClient
       Debug def_Network def_Timeout def_MaxRetries def_RetryDelay def_RetryMaxDelay].
  destruct (default_Z (MaxRetries cfg) 3 ltac:(discriminate)) as [_ ->].
  destruct (default_Z (RetryDelay cfg) (1 * Second) ltac:(discriminate)) as [_ ->].
  destruct (default_Z (RetryMaxDelay cfg) (30 * Second) ltac:(discriminate)) as [_ ->].
  reflexivity.
Qed.

Lemma New_negative_MaxRetries_witness :
  exists a,
    New AlchemyExamples.no_retry_config = inl a /\
    @Get ClientExamples.test_runtime (http_client a) ClientExamples.background ""
      ClientExamples.initial_world = (Panic, ClientExamples.initial_world).
Proof.
  destruct (@New_negative_MaxRetries ClientExamples.test_runtime
              AlchemyExamples.no_retry_config ClientExamples.background
              ClientExamples.initial_world) as (a & Hnew & Hget & _);
    [discriminate | reflexivity |].
  exists a. split; [exact Hnew|]. eapply Hget. reflexivity.
Defined.

Lemma WithNetwork_client_witness :
  exists a a',
    New AlchemyExamples.no_retry_config = inl a /\
    WithNetwork a "base-mainnet" = inl a' /\
    baseURL (http_client a) = "http://localhost:8545" /\
    baseURL (http_client a') = "https://base-mainnet.g.alchemy.com/v2".
Proof.
  destruct (New AlchemyExamples.no_retry_config) as [a|] eqn:Hnew; [|discriminate Hnew].
  destruct (WithNetwork_client AlchemyExamples.no_retry_config a "base-mainnet" Hnew)
    as (a' & Hwith & Hnet & _ & Hbase & _).
  exists a, a'. split; [reflexivity|]. split; [exact Hwith|].
  split; [injection Hnew as <-; reflexivity|].
  rewrite Hbase, Hnet. reflexivity.
Defined.

End AlchemyFacts.
